(** * TVDataProcessor: a shallow embedding of [tv_data_processor.py]

    The program is a linear pandas pipeline:

      load_data -> preprocess_data -> merge_data -> aggregate_data
                -> convert_data_types -> save_summary_to_json

    A DataFrame is modelled as the list of its rows (a record per row, a
    nullable cell as an [option]); where the code addresses rows by index
    label ([idxmax], [loc]) the rows carry their label.  The pandas
    operations the methods call ([merge], [groupby], [agg], [sort_values],
    [cumsum], [fillna], [astype], [to_json]) are written out as list
    functions, with the behaviour of pandas 2.2: nulls are dropped from
    group keys, sorted last, skipped by [max], [sum] and [cumsum]; an outer
    merge orders its rows by key; [idxmax] accepts a text column and
    compares its values as Python compares strings.

    Cells are typed.  A text is the sequence of its UTF-8 bytes.  A
    Programme or Territory column carries whether it holds text (pandas
    gives it the dtype [object] then); its cells are read as texts only
    then, and the stages that need text raise otherwise.  Channel and
    Viewers are whole numbers or null, and pandas holds such a column as
    int64, or as float64 once it has a null: the sums over [Z] written
    here are its sums as long as those are exact, which [exact_numbers]
    states; every property of a sum assumes it.  A Date cell is abstracted
    by what [pd.to_datetime] makes of it.  A sheet carries a subset of its
    expected columns.  Reading the workbook and writing the file are taken
    to succeed and are not modelled beyond the data they carry; messages
    printed on the way are left out. *)

From Stdlib Require Import ZArith List String Ascii Bool Lia.
From Stdlib Require Import Sorted Permutation OrdersEx RelationClasses.
Import ListNotations.

Local Open Scope string_scope.
Local Open Scope Z_scope.
Local Open Scope list_scope.

(* ================================================================== *)
(** ** Exceptions and the result of a stage *)

Inductive Exception : Type :=
| KeyError (column : string)      (* a column label is missing *)
| AttributeError (accessor : string) (* [.dt] used on a non-datetime column,
                                       [.str] on a column without text *)
| ValueError (column : string)    (* [merge] on a text and a numeric key *)
| IntCastingNaNError (column : string). (* [astype('int')] met a null *)

Inductive result (A : Type) : Type :=
| Ok (a : A)
| Raise (e : Exception).

Arguments Ok {A} a.
Arguments Raise {A} e.

Definition bind {A B : Type} (r : result A) (k : A -> result B) : result B :=
  match r with
  | Ok a => k a
  | Raise e => Raise e
  end.

Notation "x <- c ;; k" := (bind c (fun x => k))
  (at level 61, c at next level, right associativity).

(** [column.str]: "Can only use .str accessor with string values". *)
Definition require_text (is_text : bool) : result unit :=
  if is_text then Ok tt else Raise (AttributeError "str").

Definition require_column (present : bool) (label : string) : result unit :=
  if present then Ok tt else Raise (KeyError label).

Fixpoint mapM {A B : Type} (f : A -> result B) (l : list A) : result (list B) :=
  match l with
  | [] => Ok []
  | a :: l' => b <- f a ;; bs <- mapM f l' ;; Ok (b :: bs)
  end.

(* ================================================================== *)
(** ** Comparisons

    Python compares strings by code point, which on UTF-8 bytes is the
    byte-wise lexicographic order of [String_as_OT.compare]. *)

Class Lawful {A : Type} (cmp : A -> A -> comparison) : Prop := {
  cmp_eq : forall x y, cmp x y = Eq <-> x = y;
  cmp_opp : forall x y, cmp y x = CompOpp (cmp x y);
  cmp_lt_trans : forall x y z, cmp x y = Lt -> cmp y z = Lt -> cmp x z = Lt
}.

Arguments cmp_eq {A} cmp {_} x y.
Arguments cmp_opp {A} cmp {_} x y.
Arguments cmp_lt_trans {A} cmp {_} x y z _ _.

Definition lex (c1 c2 : comparison) : comparison :=
  match c1 with
  | Eq => c2
  | _ => c1
  end.

Definition pair_cmp {A B : Type} (ca : A -> A -> comparison)
    (cb : B -> B -> comparison) (x y : A * B) : comparison :=
  lex (ca (fst x) (fst y)) (cb (snd x) (snd y)).

(** Nulls compare greater than every value: [na_position='last']. *)
Definition na_last {A : Type} (cmp : A -> A -> comparison)
    (x y : option A) : comparison :=
  match x, y with
  | Some a, Some b => cmp a b
  | Some _, None => Lt
  | None, Some _ => Gt
  | None, None => Eq
  end.

Definition on_key {A K : Type} (key : A -> K) (cmp : K -> K -> comparison)
    (x y : A) : comparison :=
  cmp (key x) (key y).

Definition leb_of {A : Type} (cmp : A -> A -> comparison) (x y : A) : bool :=
  match cmp x y with
  | Gt => false
  | _ => true
  end.

Definition eqb_of {A : Type} (cmp : A -> A -> comparison) (x y : A) : bool :=
  match cmp x y with
  | Eq => true
  | _ => false
  end.

(** The orders a comparison gives. *)
Definition le {A : Type} (cmp : A -> A -> comparison) (x y : A) : Prop :=
  leb_of cmp x y = true.

Definition lt {A : Type} (cmp : A -> A -> comparison) (x y : A) : Prop :=
  cmp x y = Lt.

Definition str_cmp : string -> string -> comparison := String_as_OT.compare.

(* ================================================================== *)
(** ** Dates and months *)

Record Timestamp : Type := {
  ts_year : Z;
  ts_month : Z;
  ts_day : Z;
  ts_nanos : Z      (* time of day *)
}.

(** A monthly [Period]: [Timestamp.to_period('M')]. *)
Record Period : Type := {
  p_year : Z;
  p_month : Z
}.

(** The Date cell as read from the sheet, by the outcome of
    [pd.to_datetime(cell, errors='coerce')] on it. *)
Inductive DateCell : Type :=
| Parseable (t : Timestamp)
| Unparseable.

Definition to_datetime (c : DateCell) : option Timestamp :=
  match c with
  | Parseable t => Some t
  | Unparseable => None      (* errors='coerce': NaT *)
  end.

Definition to_period (t : Timestamp) : Period :=
  {| p_year := ts_year t; p_month := ts_month t |}.

Definition ts_key (t : Timestamp) : Z * (Z * (Z * Z)) :=
  (ts_year t, (ts_month t, (ts_day t, ts_nanos t))).

Definition ts_cmp : Timestamp -> Timestamp -> comparison :=
  on_key ts_key (pair_cmp Z.compare (pair_cmp Z.compare (pair_cmp Z.compare Z.compare))).

Definition period_key (p : Period) : Z * Z := (p_year p, p_month p).

Definition period_cmp : Period -> Period -> comparison :=
  on_key period_key (pair_cmp Z.compare Z.compare).

(** Timestamps pandas can hold (nanosecond resolution: years 1677..2262). *)
Definition wf_timestamp (t : Timestamp) : Prop :=
  1677 <= ts_year t <= 2262 /\ 1 <= ts_month t <= 12.

(* ================================================================== *)
(** ** [str.strip] *)

(** [str.strip()] removes the characters [c] with [c.isspace()] from both
    ends.  In UTF-8 the whitespace characters below U+0080 are one byte,
    the others two or three bytes. *)

(** U+0009..U+000D, U+001C..U+0020. *)
Definition is_space (c : ascii) : bool :=
  let n := nat_of_ascii c in
  ((9 <=? n) && (n <=? 13) || (28 <=? n) && (n <=? 32))%nat.

(** U+0085 and U+00A0: the bytes C2 85 and C2 A0. *)
Definition is_space2 (c d : ascii) : bool :=
  let m := nat_of_ascii c in
  let n := nat_of_ascii d in
  ((m =? 194) && ((n =? 133) || (n =? 160)))%nat.

(** U+1680: E1 9A 80.  U+2000..U+200A, U+2028, U+2029, U+202F: E2 80 and
    80..8A, A8, A9, AF.  U+205F: E2 81 9F.  U+3000: E3 80 80. *)
Definition is_space3 (c d e : ascii) : bool :=
  let l := nat_of_ascii c in
  let m := nat_of_ascii d in
  let n := nat_of_ascii e in
  ((l =? 225) && (m =? 154) && (n =? 128)
   || (l =? 226) && (m =? 128)
      && ((128 <=? n) && (n <=? 138) || (n =? 168) || (n =? 169) || (n =? 175))
   || (l =? 226) && (m =? 129) && (n =? 159)
   || (l =? 227) && (m =? 128) && (n =? 128))%nat.

(** The text after the whitespace character [s] starts with, when it starts
    with one. *)
Definition after_space (s : string) : option string :=
  match s with
  | EmptyString => None
  | String c s1 =>
      if is_space c then Some s1
      else match s1 with
           | EmptyString => None
           | String d s2 =>
               if is_space2 c d then Some s2
               else match s2 with
                    | EmptyString => None
                    | String e s3 => if is_space3 c d e then Some s3 else None
                    end
           end
  end.

Fixpoint lstrip (s : string) : string :=
  match s with
  | EmptyString => EmptyString
  | String c s1 =>
      if is_space c then lstrip s1
      else match s1 with
           | EmptyString => s
           | String d s2 =>
               if is_space2 c d then lstrip s2
               else match s2 with
                    | EmptyString => s
                    | String e s3 => if is_space3 c d e then lstrip s3 else s
                    end
           end
  end.

(** From the right: what is left of the tail, with the byte before it, is
    dropped when the two make one whitespace character. *)
Fixpoint rstrip (s : string) : string :=
  match s with
  | EmptyString => EmptyString
  | String c s1 =>
      match rstrip s1 with
      | EmptyString => if is_space c then EmptyString else String c EmptyString
      | String d EmptyString =>
          if is_space2 c d then EmptyString else String c (String d EmptyString)
      | String d (String e EmptyString) =>
          if is_space3 c d e then EmptyString
          else String c (String d (String e EmptyString))
      | t => String c t
      end
  end.

Definition strip (s : string) : string := rstrip (lstrip s).

(* ================================================================== *)
(** ** The two sheets *)

Record ViewingRecord : Type := {
  vr_Date : DateCell;
  vr_Programme : string;
  vr_Territory : string;
  vr_Channel : option Z;
  vr_Viewers : option Z
}.

Record ProducerRecord : Type := {
  pr_Programme : string;
  pr_Producer : option string
}.

(** Sheet 'Viewing data': which expected columns it has, whether its
    Programme and Territory columns hold text (pandas gives a column the
    dtype [object] when a cell of it is text, and a numeric dtype when its
    cells are numbers or blank), and its rows.  The cells of an absent
    column are never read, nor are those of a Programme or Territory column
    that holds no text: the [.str] accessor is refused on it. *)
Record ViewingSheet : Type := {
  has_Date : bool;
  has_Programme : bool;
  has_Territory : bool;
  has_Channel : bool;
  has_Viewers : bool;
  Programme_is_text : bool;
  Territory_is_text : bool;
  viewing_rows : list ViewingRecord
}.

(** Sheet 'Producers'. *)
Record ProducerSheet : Type := {
  has_pr_Programme : bool;
  has_pr_Producer : bool;
  pr_Programme_is_text : bool;
  producer_rows : list ProducerRecord
}.

Record Workbook : Type := {
  sheet_viewing : ViewingSheet;
  sheet_producers : ProducerSheet
}.

(** [load_data]: the two sheets, columns passed through verbatim.  The
    workbook is one that [pd.read_excel] has read: a file or a sheet that
    is not there makes [load_data] raise before any stage runs, which is
    outside this model. *)
Definition load_data (wb : Workbook) : result (ViewingSheet * ProducerSheet) :=
  Ok (sheet_viewing wb, sheet_producers wb).

(* ================================================================== *)
(** ** [preprocess_data] *)

Record NormalizedViewingRecord : Type := {
  nv_Date : option Timestamp;
  nv_Programme : string;
  nv_Territory : string;
  nv_Channel : option Z;
  nv_Viewers : option Z;
  nv_Month : option Period
}.

Record NormalizedFrame : Type := {
  nf_has_Channel : bool;
  nf_has_Viewers : bool;
  nf_rows : list NormalizedViewingRecord
}.

Definition fillna {A : Type} (value : A) (cell : option A) : option A :=
  match cell with
  | Some a => Some a
  | None => Some value
  end.

(** One row through lines 31-35; [fill] says whether the frame has a
    Viewers column ([fillna] with a dict skips the labels it does not
    find). *)
Definition preprocess_row (fill : bool) (r : ViewingRecord) : NormalizedViewingRecord :=
  let date := to_datetime (vr_Date r) in
  {| nv_Date := date;
     nv_Programme := strip (vr_Programme r);
     nv_Territory := strip (vr_Territory r);
     nv_Channel := vr_Channel r;
     nv_Viewers := if fill then fillna 0 (vr_Viewers r) else vr_Viewers r;
     nv_Month := option_map to_period date |}.

Definition preprocess_data (df : ViewingSheet) : result NormalizedFrame :=
  _ <- require_column (has_Date df) "Date" ;;
  (* [apply] on a column without rows keeps its object dtype, on which the
     [.dt] accessor is refused *)
  _ <- match viewing_rows df with
       | [] => Raise (AttributeError "dt")
       | _ :: _ => Ok tt
       end ;;
  _ <- require_column (has_Programme df) "Programme" ;;
  _ <- require_text (Programme_is_text df) ;;
  _ <- require_column (has_Territory df) "Territory" ;;
  _ <- require_text (Territory_is_text df) ;;
  Ok {| nf_has_Channel := has_Channel df;
        nf_has_Viewers := has_Viewers df;
        nf_rows := map (preprocess_row (has_Viewers df)) (viewing_rows df) |}.

(* ================================================================== *)
(** ** Sorted keys, stable sort *)

Section Ordering.
Context {A : Type} (cmp : A -> A -> comparison).

(** Insert into an ascending list without repeats. *)
Fixpoint insert_unique (k : A) (l : list A) : list A :=
  match l with
  | [] => [k]
  | h :: t =>
      match cmp k h with
      | Lt => k :: h :: t
      | Eq => h :: t
      | Gt => h :: insert_unique k t
      end
  end.

(** The distinct values of a list, ascending. *)
Definition sorted_unique (l : list A) : list A :=
  fold_right insert_unique [] l.

(** Stable insertion: [x] goes before the first element that is not
    below it, so before its equals, which it preceded in the input. *)
Fixpoint insert_stable (x : A) (l : list A) : list A :=
  match l with
  | [] => [x]
  | h :: t => if leb_of cmp x h then x :: h :: t else h :: insert_stable x t
  end.

Definition stable_sort (l : list A) : list A :=
  fold_right insert_stable [] l.
End Ordering.

(* ================================================================== *)
(** ** [merge_data] *)

Record JoinedRecord : Type := {
  Programme : string;
  Producer : option string;
  Date : option Timestamp;
  Territory : option string;
  Channel : option Z;
  Viewers : option Z;
  Month : option Period
}.

(** A frame whose rows carry their index label. *)
Definition Indexed (A : Type) : Type := list (nat * A).

Definition range_index {A : Type} (l : list A) : Indexed A :=
  combine (seq 0 (List.length l)) l.

Record JoinedFrame : Type := {
  jf_has_Producer : bool;
  jf_has_Channel : bool;
  jf_has_Viewers : bool;
  jf_rows : Indexed JoinedRecord
}.

(** A viewing row with the Producer cell the join gives it. *)
Definition of_viewing (producer : option string) (v : NormalizedViewingRecord)
    : JoinedRecord :=
  {| Programme := nv_Programme v;
     Producer := producer;
     Date := nv_Date v;
     Territory := Some (nv_Territory v);
     Channel := nv_Channel v;
     Viewers := nv_Viewers v;
     Month := nv_Month v |}.

(** A producer row no viewing row matches: the viewing cells are null. *)
Definition of_producer (p : ProducerRecord) : JoinedRecord :=
  {| Programme := pr_Programme p;
     Producer := pr_Producer p;
     Date := None;
     Territory := None;
     Channel := None;
     Viewers := None;
     Month := None |}.

(** [left.merge(right, on='Programme', how='outer')]: the union of the keys
    in ascending order; under a key, every left row with every right row,
    left-major; a side without the key leaves nulls. *)
Definition merge_outer (left : list ProducerRecord)
    (right : list NormalizedViewingRecord) : list JoinedRecord :=
  let keys := sorted_unique str_cmp (map pr_Programme left ++ map nv_Programme right) in
  flat_map
    (fun k =>
       let ls := filter (fun p => String.eqb (pr_Programme p) k) left in
       let rs := filter (fun v => String.eqb (nv_Programme v) k) right in
       match ls, rs with
       | [], _ => map (of_viewing None) rs
       | _, [] => map of_producer ls
       | _, _ => flat_map (fun p => map (of_viewing (pr_Producer p)) rs) ls
       end)
    keys.

Definition fillna_Producer (r : JoinedRecord) : JoinedRecord :=
  {| Programme := Programme r;
     Producer := fillna "Unknown" (Producer r);
     Date := Date r;
     Territory := Territory r;
     Channel := Channel r;
     Viewers := Viewers r;
     Month := Month r |}.

(** [fillna({'Producer': 'Unknown'})]; with a dict, [fillna] passes over a
    label the frame does not have. *)
Definition fill_producers (has_Producer : bool) (rows : list JoinedRecord)
    : list JoinedRecord :=
  if has_Producer then map fillna_Producer rows else rows.

Definition merge_data (df_producers : ProducerSheet) (df_viewings : NormalizedFrame)
    : result JoinedFrame :=
  _ <- require_column (has_pr_Programme df_producers) "Programme" ;;
  (* a text key is not merged with a numeric one; a frame without rows is
     passed over by this check *)
  _ <- match producer_rows df_producers, nf_rows df_viewings with
       | _ :: _, _ :: _ =>
           if pr_Programme_is_text df_producers then Ok tt
           else Raise (ValueError "Programme")
       | _, _ => Ok tt
       end ;;
  let merged := merge_outer (producer_rows df_producers) (nf_rows df_viewings) in
  let filled := fill_producers (has_pr_Producer df_producers) merged in
  Ok {| jf_has_Producer := has_pr_Producer df_producers;
        jf_has_Channel := nf_has_Channel df_viewings;
        jf_has_Viewers := nf_has_Viewers df_viewings;
        jf_rows := range_index filled |}.

(* ================================================================== *)
(** ** [aggregate_data] *)

(** *** [groupby(['Producer', 'Month', 'Channel'])] *)

Definition GroupKey : Type := string * (Period * Z).

Definition group_cmp : GroupKey -> GroupKey -> comparison :=
  pair_cmp str_cmp (pair_cmp period_cmp Z.compare).

(** The group a row falls in; a null in any key column leaves the row out
    of every group ([dropna=True]). *)
Definition group_key (r : JoinedRecord) : option GroupKey :=
  match Producer r, Month r, Channel r with
  | Some p, Some m, Some c => Some (p, (m, c))
  | _, _, _ => None
  end.

Fixpoint dropna {A : Type} (l : list (option A)) : list A :=
  match l with
  | [] => []
  | Some a :: l' => a :: dropna l'
  | None :: l' => dropna l'
  end.

Section GroupBy.
Context {A : Type} (key : A -> option GroupKey).

Definition in_group (k : GroupKey) (ir : nat * A) : bool :=
  match key (snd ir) with
  | Some k' => eqb_of group_cmp k' k
  | None => false
  end.

(** The group keys, ascending ([sort=True]). *)
Definition group_keys (df : Indexed A) : list GroupKey :=
  sorted_unique group_cmp (dropna (map (fun ir => key (snd ir)) df)).

(** The rows of a group, in frame order, under their labels. *)
Definition get_group (k : GroupKey) (df : Indexed A) : Indexed A :=
  filter (in_group k) df.

Definition groupby (df : Indexed A) : list (GroupKey * Indexed A) :=
  map (fun k => (k, get_group k df)) (group_keys df).
End GroupBy.

(** *** The aggregations *)

(** [Series.idxmax] on a text column: the label of the first greatest
    value; a later value replaces the best only when strictly greater. *)
Fixpoint idxmax_from (best_label : nat) (best : string) (x : Indexed string) : nat :=
  match x with
  | [] => best_label
  | (i, v) :: x' =>
      match str_cmp v best with
      | Gt => idxmax_from i v x'
      | _ => idxmax_from best_label best x'
      end
  end.

Definition idxmax (x : Indexed string) : option nat :=
  match x with
  | [] => None
  | (i, v) :: x' => Some (idxmax_from i v x')
  end.

(** [x.loc[label]]. *)
Definition loc {A : Type} (x : Indexed A) (label : nat) : option A :=
  option_map snd (find (fun iv => Nat.eqb (fst iv) label) x).

(** [lambda x: x.loc[x.idxmax()]], which [agg] applies to the Programme
    column of the group. *)
Definition top_programme (x : Indexed string) : option string :=
  match idxmax x with
  | Some label => loc x label
  | None => None
  end.

(** ['max'], nulls skipped; null for a column of nulls. *)
Fixpoint series_max (l : list (option Z)) : option Z :=
  match l with
  | [] => None
  | c :: l' =>
      match c, series_max l' with
      | Some a, Some b => Some (Z.max a b)
      | Some a, None => Some a
      | None, m => m
      end
  end.

(** ['sum'], nulls skipped; the sum pandas makes as long as it is exact
    (see [exact_numbers]). *)
Fixpoint series_sum (l : list (option Z)) : Z :=
  match l with
  | [] => 0
  | Some v :: l' => v + series_sum l'
  | None :: l' => series_sum l'
  end.

Definition column {A B : Type} (f : A -> B) (df : Indexed A) : Indexed B :=
  map (fun ir => (fst ir, f (snd ir))) df.

Definition values {A B : Type} (f : A -> B) (df : Indexed A) : list B :=
  map (fun ir => f (snd ir)) df.

Record PeakAndSum : Type := {
  pk_Top_Programme : option string;
  pk_Highest_Viewers : option Z;
  pk_Sum_of_Viewers : Z
}.

Definition peak_and_sum (g : Indexed JoinedRecord) : PeakAndSum :=
  {| pk_Top_Programme := top_programme (column Programme g);
     pk_Highest_Viewers := series_max (values Viewers g);
     pk_Sum_of_Viewers := series_sum (values Viewers g) |}.

(** *** [sort_values(['Producer', 'Month', 'Channel', 'Date'])] *)

Definition SortKey : Type :=
  option string * (option Period * (option Z * option Timestamp)).

Definition sort_key (r : JoinedRecord) : SortKey :=
  (Producer r, (Month r, (Channel r, Date r))).

Definition sort_cmp : SortKey -> SortKey -> comparison :=
  pair_cmp (na_last str_cmp)
    (pair_cmp (na_last period_cmp)
       (pair_cmp (na_last Z.compare) (na_last ts_cmp))).

Definition row_cmp : nat * JoinedRecord -> nat * JoinedRecord -> comparison :=
  on_key (fun ir => sort_key (snd ir)) sort_cmp.

Definition sort_values (df : Indexed JoinedRecord) : Indexed JoinedRecord :=
  stable_sort row_cmp df.

(** Ascending in (Producer, Month, Channel, Date), nulls last. *)
Definition row_le : nat * JoinedRecord -> nat * JoinedRecord -> Prop := le row_cmp.

(** *** [groupby(['Producer'])['Viewers'].cumsum()] *)

(** The running total of every Producer seen so far. *)
Definition Running : Type := string -> Z.

Definition add_to (acc : Running) (p : string) (v : Z) : Running :=
  fun q => if String.eqb q p then acc q + v else acc q.

(** The frame with its new column Cumulative_Viewers: down the rows, each
    Producer's total so far; null on a row whose Viewers is null, or whose
    Producer is (such a row is in no group).  The totals are those pandas
    makes as long as they are exact (see [exact_numbers]). *)
Fixpoint cumsum (acc : Running) (df : Indexed JoinedRecord)
    : Indexed (JoinedRecord * option Z) :=
  match df with
  | [] => []
  | (i, r) :: df' =>
      match Producer r, Viewers r with
      | Some p, Some v =>
          (i, (r, Some (acc p + v))) :: cumsum (add_to acc p v) df'
      | _, _ => (i, (r, None)) :: cumsum acc df'
      end
  end.

(** The group of a row of the frame with its new column. *)
Definition cum_key (rc : JoinedRecord * option Z) : option GroupKey :=
  group_key (fst rc).

(** *** [merge] of the two aggregates, [how='inner'] *)

(** Every left row with every right row of the same key, in the order of
    the left rows. *)
Definition merge_inner {A B : Type} (left : list (GroupKey * A))
    (right : list (GroupKey * B)) : list (GroupKey * (A * B)) :=
  flat_map
    (fun l =>
       map (fun r => (fst l, (snd l, snd r)))
         (filter (fun r => eqb_of group_cmp (fst r) (fst l)) right))
    left.

Record SummaryRow : Type := {
  s_Producer : string;
  s_Month : Period;
  s_Channel : Z;
  Top_Programme : option string;
  Highest_Viewers : option Z;
  Sum_of_Viewers : Z;
  Cumulative_Viewers : option Z
}.

Definition summary_row (m : GroupKey * (PeakAndSum * option Z)) : SummaryRow :=
  let '(k, (pk, cum)) := m in
  {| s_Producer := fst k;
     s_Month := fst (snd k);
     s_Channel := snd (snd k);
     Top_Programme := pk_Top_Programme pk;
     Highest_Viewers := pk_Highest_Viewers pk;
     Sum_of_Viewers := pk_Sum_of_Viewers pk;
     Cumulative_Viewers := cum |}.

Definition summary_key (s : SummaryRow) : GroupKey :=
  (s_Producer s, (s_Month s, s_Channel s)).

Definition no_totals : Running := fun _ => 0.

Definition peak_summary (df : Indexed JoinedRecord) : list (GroupKey * PeakAndSum) :=
  map (fun g => (fst g, peak_and_sum (snd g))) (groupby group_key df).

Definition cumulative_summary (df : Indexed JoinedRecord)
    : list (GroupKey * option Z) :=
  let sorted := sort_values df in
  let with_cumulative := cumsum no_totals sorted in
  map (fun g => (fst g, series_max (values snd (snd g))))
    (groupby cum_key with_cumulative).

Definition aggregate_data (df : JoinedFrame) : result (list SummaryRow) :=
  _ <- require_column (jf_has_Producer df) "Producer" ;;
  _ <- require_column (jf_has_Channel df) "Channel" ;;
  _ <- require_column (jf_has_Viewers df) "Viewers" ;;
  let summary := peak_summary (jf_rows df) in
  let cumulative := cumulative_summary (jf_rows df) in
  Ok (map summary_row (merge_inner summary cumulative)).

(* ================================================================== *)
(** ** [convert_data_types] *)

(** The summary with its final dtypes: ['string'] columns stay nullable,
    ['int'] columns are integers. *)
Record SummaryRecord : Type := {
  rec_Producer : option string;
  rec_Month : option string;
  rec_Channel : Z;
  rec_Top_Programme : option string;
  rec_Highest_Viewers : Z;
  rec_Sum_of_Viewers : Z;
  rec_Cumulative_Viewers : Z
}.

Definition digit (n : Z) : ascii := ascii_of_nat (48 + Z.to_nat n).

Definition pad2 (n : Z) : string :=
  String (digit (n / 10 mod 10)) (String (digit (n mod 10)) EmptyString).

Definition pad4 (n : Z) : string :=
  String (digit (n / 1000 mod 10)) (String (digit (n / 100 mod 10)) (pad2 n)).

(** [%Y]: the year in decimal, without leading zeros (the years of dates
    are 1..9999). *)
Definition year_str (y : Z) : string :=
  if 1000 <=? y then pad4 y
  else if 100 <=? y then String (digit (y / 100 mod 10)) (pad2 y)
  else if 10 <=? y then pad2 y
  else String (digit (y mod 10)) EmptyString.

(** [str] of a monthly Period: ["%Y-%m"]. *)
Definition period_str (p : Period) : string :=
  (year_str (p_year p) ++ "-" ++ pad2 (p_month p))%string.

(** [astype('int')] on a cell of a numeric column: a null is refused; a
    whole number within the exact range is kept as it is. *)
Definition astype_int (label : string) (cell : option Z) : result Z :=
  match cell with
  | Some z => Ok z
  | None => Raise (IntCastingNaNError label)
  end.

Definition convert_row (s : SummaryRow) : result SummaryRecord :=
  highest <- astype_int "Highest_Viewers" (Highest_Viewers s) ;;
  cumulative <- astype_int "Cumulative_Viewers" (Cumulative_Viewers s) ;;
  Ok {| rec_Producer := Some (s_Producer s);
        rec_Month := Some (period_str (s_Month s));
        rec_Channel := s_Channel s;
        rec_Top_Programme := Top_Programme s;
        rec_Highest_Viewers := highest;
        rec_Sum_of_Viewers := Sum_of_Viewers s;
        rec_Cumulative_Viewers := cumulative |}.

(** [astype] casts column by column, in the order of the frame's columns:
    a null Highest_Viewers anywhere is reported before a null
    Cumulative_Viewers. *)
Definition convert_data_types (final_summary : list SummaryRow)
    : result (list SummaryRecord) :=
  _ <- mapM (fun s => astype_int "Highest_Viewers" (Highest_Viewers s)) final_summary ;;
  mapM convert_row final_summary.

(* ================================================================== *)
(** ** [save_summary_to_json] *)

Inductive Json : Type :=
| JNull
| JNumber (z : Z)
| JString (s : string).

(** One record of [to_json(orient='records')]: the fields in column order. *)
Definition JsonRecord : Type := list (string * Json).

Definition json_text (cell : option string) : Json :=
  match cell with
  | Some s => JString s
  | None => JNull
  end.

Definition to_json_record (r : SummaryRecord) : JsonRecord :=
  [ ("Producer", json_text (rec_Producer r));
    ("Month", json_text (rec_Month r));
    ("Channel", JNumber (rec_Channel r));
    ("Top_Programme", json_text (rec_Top_Programme r));
    ("Highest_Viewers", JNumber (rec_Highest_Viewers r));
    ("Sum_of_Viewers", JNumber (rec_Sum_of_Viewers r));
    ("Cumulative_Viewers", JNumber (rec_Cumulative_Viewers r)) ].

Definition to_json (final_summary : list SummaryRecord) : list JsonRecord :=
  map to_json_record final_summary.

(** The output file: [None] while nothing has been written to it.  The
    file is one that can be opened for writing: an [open] or [write] that
    fails is outside this model. *)
Definition File : Type := option (list JsonRecord).

Definition save_summary_to_json (final_summary : list SummaryRecord)
    (output_file : File) : File * result unit :=
  (Some (to_json final_summary), Ok tt).

(* ================================================================== *)
(** ** [process_and_save_data] *)

(** The frame [merge_data] leaves in [df_viewings]. *)
Definition joined_frame_of (wb : Workbook) : result JoinedFrame :=
  sheets <- load_data wb ;;
  df_viewings <- preprocess_data (fst sheets) ;;
  merge_data (snd sheets) df_viewings.

(** [final_summary] after [aggregate_data]. *)
Definition summary_of (wb : Workbook) : result (list SummaryRow) :=
  df_joined <- joined_frame_of wb ;;
  aggregate_data df_joined.

(** [final_summary] after [convert_data_types]: the stages before the
    write. *)
Definition final_summary_of (wb : Workbook) : result (list SummaryRecord) :=
  summary <- summary_of wb ;;
  convert_data_types summary.

(** An exception of any stage is re-raised with the file untouched. *)
Definition process_and_save_data (wb : Workbook) (output_file : File)
    : File * result unit :=
  match final_summary_of wb with
  | Ok final_summary => save_summary_to_json final_summary output_file
  | Raise e => (output_file, Raise e)
  end.

(* ================================================================== *)
(** ** Sample workbooks *)

Definition day (y m d : Z) : DateCell :=
  Parseable {| ts_year := y; ts_month := m; ts_day := d; ts_nanos := 0 |}.

Definition viewing (date : DateCell) (programme territory : string)
    (channel : option Z) (viewers : option Z) : ViewingRecord :=
  {| vr_Date := date; vr_Programme := programme; vr_Territory := territory;
     vr_Channel := channel; vr_Viewers := viewers |}.

Definition producer (programme producer_name : string) : ProducerRecord :=
  {| pr_Programme := programme; pr_Producer := Some producer_name |}.

Definition workbook (vs : list ViewingRecord) (ps : list ProducerRecord) : Workbook :=
  {| sheet_viewing :=
       {| has_Date := true; has_Programme := true; has_Territory := true;
          has_Channel := true; has_Viewers := true;
          Programme_is_text := true; Territory_is_text := true;
          viewing_rows := vs |};
     sheet_producers :=
       {| has_pr_Programme := true; has_pr_Producer := true;
          pr_Programme_is_text := true; producer_rows := ps |} |}.

(** The scenario of the specification. *)
Definition wb_scenario : Workbook :=
  workbook
    [ viewing (day 2024 1 5) "Show A" "UK" (Some 101) (Some 1000);
      viewing (day 2024 1 20) "Show A" "UK" (Some 101) (Some 500) ]
    [ producer "Show A" "Acme" ].


(* ================================================================== *)
(** ** The aggregate, group by group *)

(** Cumulative_Viewers of group [k]: the greatest running total on the rows
    of the group in the sorted frame. *)
Definition cumulative_of (k : GroupKey) (df : Indexed JoinedRecord) : option Z :=
  series_max (values snd (get_group cum_key k (cumsum no_totals (sort_values df)))).

(** What [aggregate_data] leaves in [final_summary] (see
    [aggregate_data_rows]). *)
Definition aggregate_rows (df : Indexed JoinedRecord) : list SummaryRow :=
  map (fun k => summary_row
                  (k, (peak_and_sum (get_group group_key k df), cumulative_of k df)))
    (group_keys group_key df).

(* ================================================================== *)
(** ** The cumulative aggregate in the words of the specification *)

Definition producer_is (p : option string) (ir : nat * JoinedRecord) : bool :=
  match p, Producer (snd ir) with
  | Some a, Some b => String.eqb a b
  | _, _ => false
  end.

(** The Viewers of the rows of one Producer, summed. *)
Definition viewers_total (p : option string) (rows : Indexed JoinedRecord) : Z :=
  series_sum (values Viewers (filter (producer_is p) rows)).

(** The running sum of Viewers per Producer over a table: each row with
    the total of the rows of its Producer down to it; [seen] are the rows
    above the table. *)
Fixpoint running_sums (seen table : Indexed JoinedRecord)
    : list (nat * JoinedRecord * Z) :=
  match table with
  | [] => []
  | ir :: rest =>
      (ir, viewers_total (Producer (snd ir)) (seen ++ [ir]))
        :: running_sums (seen ++ [ir]) rest
  end.

(** The running-sum values observed within a group, in table order. *)
Definition group_running_sums (k : GroupKey) (table : Indexed JoinedRecord) : list Z :=
  map snd (filter (fun irt => in_group group_key k (fst irt)) (running_sums [] table)).

Definition is_maximum (m : Z) (l : list Z) : Prop :=
  In m l /\ Forall (fun x => x <= m) l.

(** No Viewers cell of the sheet is negative. *)
Definition viewers_are_counts (df : ViewingSheet) : Prop :=
  Forall (fun r => forall v, vr_Viewers r = Some v -> 0 <= v) (viewing_rows df).

(** Every Date cell that parses is a timestamp pandas can hold. *)
Definition dates_in_range (df : ViewingSheet) : Prop :=
  Forall (fun r => forall t, vr_Date r = Parseable t -> wf_timestamp t)
    (viewing_rows df).

(* ================================================================== *)
(** ** Rows of the join and rows of the sheets *)

(** The joined row [j] carries the cells of the viewing row [v]. *)
Definition corresponds (v : NormalizedViewingRecord) (j : JoinedRecord) : Prop :=
  Programme j = nv_Programme v /\ Date j = nv_Date v /\
  Territory j = Some (nv_Territory v) /\ Channel j = nv_Channel v /\
  Viewers j = nv_Viewers v /\ Month j = nv_Month v.

(** A producer row whose Programme is that of the viewing row. *)
Definition matches (v : NormalizedViewingRecord) (p : ProducerRecord) : Prop :=
  pr_Programme p = nv_Programme v.

(* ================================================================== *)
(** ** Further sample workbooks *)

(** One group whose later broadcast has a negative Viewers cell. *)
Definition wb_negative_later : Workbook :=
  workbook
    [ viewing (day 2024 1 5) "Show A" "UK" (Some 101) (Some 5);
      viewing (day 2024 1 20) "Show A" "UK" (Some 101) (Some (-3)) ]
    [ producer "Show A" "Acme" ].

(** Two months of one Producer, the second with a negative Viewers cell. *)
Definition wb_negative_month : Workbook :=
  workbook
    [ viewing (day 2024 1 5) "Show A" "UK" (Some 101) (Some 10);
      viewing (day 2024 2 20) "Show A" "UK" (Some 101) (Some (-5)) ]
    [ producer "Show A" "Acme" ].

(** Two programmes of one Producer in one group: "Alpha" has the most
    viewers, "Zulu" the greatest name. *)
Definition wb_two_programmes : Workbook :=
  workbook
    [ viewing (day 2024 1 5) "Alpha" "UK" (Some 101) (Some 900);
      viewing (day 2024 1 20) "Zulu" "UK" (Some 101) (Some 100) ]
    [ producer "Alpha" "Acme"; producer "Zulu" "Acme" ].

(** A January broadcast without Channel, a February broadcast with one. *)
Definition wb_null_channel : Workbook :=
  workbook
    [ viewing (day 2024 1 5) "Show A" "UK" None (Some 7);
      viewing (day 2024 2 20) "Show A" "UK" (Some 1) (Some 3) ]
    [ producer "Show A" "Acme" ].

(** A broadcast of January 2024 and one whose Date does not parse. *)
Definition wb_unparseable_date : Workbook :=
  workbook
    [ viewing (day 2024 1 5) "Show A" "UK" (Some 101) (Some 8);
      viewing Unparseable "Show A" "UK" (Some 101) (Some 3) ]
    [ producer "Show A" "Acme" ].

(** A viewing sheet without its Viewers column. *)
Definition wb_no_viewers_column : Workbook :=
  {| sheet_viewing :=
       {| has_Date := true; has_Programme := true; has_Territory := true;
          has_Channel := true; has_Viewers := false;
          Programme_is_text := true; Territory_is_text := true;
          viewing_rows :=
            [ viewing (day 2024 1 5) "Show A" "UK" (Some 101) None ] |};
     sheet_producers :=
       {| has_pr_Programme := true; has_pr_Producer := true;
          pr_Programme_is_text := true;
          producer_rows := [ producer "Show A" "Acme" ] |} |}.

(** A mixed workbook: an unmatched programme, a programme with two
    producers, a producer without broadcasts, nulls in every nullable
    column. *)
Definition wb_mixed : Workbook :=
  workbook
    [ viewing (day 2024 2 20) " Show Z " "UK" (Some 1) (Some 3);
      viewing (day 2024 2 21) "Show B" "UK " (Some 1) None;
      viewing (day 2024 1 7) "Show B" "FR" (Some 2) (Some 40);
      viewing Unparseable "Show B" "FR" (Some 2) (Some 9);
      viewing (day 2024 3 1) "Show A" "DE" None (Some 11);
      viewing (day 2024 3 2) "Show A" "DE" (Some 2) (Some 5) ]
    [ producer "Show A" "Acme"; producer "Show B" "Beta";
      producer "Show B" "Acme"; producer "Show C" "Gamma";
      {| pr_Programme := "Show A"; pr_Producer := None |} ].

(** The value of a stage that succeeded. *)
Definition value_of {A : Type} (default : A) (r : result A) : A :=
  match r with
  | Ok a => a
  | Raise _ => default
  end.

Definition empty_frame : JoinedFrame :=
  {| jf_has_Producer := false; jf_has_Channel := false;
     jf_has_Viewers := false; jf_rows := [] |}.

Definition jf_mixed : JoinedFrame :=
  Eval vm_compute in value_of empty_frame (joined_frame_of wb_mixed).

Definition summary_mixed : list SummaryRow :=
  Eval vm_compute in value_of [] (summary_of wb_mixed).

(* ================================================================== *)
(** ** Frames with rows left out *)

(** The frame restricted to the rows that satisfy [keep], under their
    labels ([df[mask]]). *)
Definition select (keep : JoinedRecord -> bool) (df : JoinedFrame) : JoinedFrame :=
  {| jf_has_Producer := jf_has_Producer df;
     jf_has_Channel := jf_has_Channel df;
     jf_has_Viewers := jf_has_Viewers df;
     jf_rows := filter (fun ir => keep (snd ir)) (jf_rows df) |}.

Definition notnull {A : Type} (cell : option A) : bool :=
  match cell with
  | Some _ => true
  | None => false
  end.

Definition has_Month (r : JoinedRecord) : bool := notnull (Month r).

Definition has_Channel_cell (r : JoinedRecord) : bool := notnull (Channel r).

(** No null among Producer, Month and Channel. *)
Definition has_group_key (r : JoinedRecord) : bool := notnull (group_key r).

(** A record without its Cumulative_Viewers. *)
Definition peak_fields (s : SummaryRow)
    : GroupKey * option string * option Z * Z :=
  (summary_key s, Top_Programme s, Highest_Viewers s, Sum_of_Viewers s).

Definition result_map {A B : Type} (f : A -> B) (r : result A) : result B :=
  match r with
  | Ok a => Ok (f a)
  | Raise e => Raise e
  end.

(* ================================================================== *)
(** ** Reading a "YYYY-MM" label *)

Definition is_digit (c : ascii) : bool :=
  ((48 <=? nat_of_ascii c) && (nat_of_ascii c <=? 57))%nat.

Definition digit_value (c : ascii) : Z := Z.of_nat (nat_of_ascii c) - 48.

(** The year and the month a text of the shape "YYYY-MM" denotes; [None]
    for a text of any other shape. *)
Definition year_month (s : string) : option (Z * Z) :=
  match s with
  | String y3 (String y2 (String y1 (String y0
      (String hyphen (String m1 (String m0 EmptyString)))))) =>
      if forallb is_digit [y3; y2; y1; y0; m1; m0] && Ascii.eqb hyphen "-"
      then Some (1000 * digit_value y3 + 100 * digit_value y2
                 + 10 * digit_value y1 + digit_value y0,
                 10 * digit_value m1 + digit_value m0)
      else None
  | _ => None
  end.

(* ================================================================== *)
(** ** The key of a written record *)

Definition field (name : string) (rec : JsonRecord) : option Json :=
  option_map snd (find (fun kv => String.eqb (fst kv) name) rec).

(** The (Producer, Month, Channel) a written record shows. *)
Definition json_key (rec : JsonRecord) : option (string * (string * Z)) :=
  match field "Producer" rec, field "Month" rec, field "Channel" rec with
  | Some (JString p), Some (JString m), Some (JNumber c) => Some (p, (m, c))
  | _, _, _ => None
  end.

(** Lexicographic on (Producer, Month, Channel), the texts compared as
    texts, the Channel as a number. *)
Definition output_cmp : string * (string * Z) -> string * (string * Z) -> comparison :=
  pair_cmp str_cmp (pair_cmp str_cmp Z.compare).

(** A group key as the output shows it. *)
Definition text_key (k : GroupKey) : string * (string * Z) :=
  (fst k, (period_str (fst (snd k)), snd (snd k))).

Definition out_mixed : list JsonRecord :=
  Eval vm_compute in
    match fst (process_and_save_data wb_mixed None) with
    | Some out => out
    | None => []
    end.

(* ================================================================== *)
(** ** Auxiliary notions for the running sums *)

(** What a row adds to a sum of Viewers. *)
Definition viewers_or_zero (ir : nat * JoinedRecord) : Z :=
  match Viewers (snd ir) with
  | Some v => v
  | None => 0
  end.

(** The cell [cumsum] leaves on a row whose running sum is [t]. *)
Definition cumulative_cell (irt : nat * JoinedRecord * Z)
    : nat * (JoinedRecord * option Z) :=
  let r := snd (fst irt) in
  (fst (fst irt),
   (r, match Producer r, Viewers r with
       | Some _, Some _ => Some (snd irt)
       | _, _ => None
       end)).

(** No Viewers cell of the table is negative. *)
Definition nonnegative (table : Indexed JoinedRecord) : Prop :=
  forall ir v, In ir table -> Viewers (snd ir) = Some v -> 0 <= v.

(** The running sums of a group in a table that continues the rows
    [seen]. *)
Definition group_sums_from (k : GroupKey) (seen table : Indexed JoinedRecord)
    : list Z :=
  map snd (filter (fun irt => in_group group_key k (fst irt))
             (running_sums seen table)).

(** The stages of [wb_mixed]. *)
Definition nf_mixed : NormalizedFrame :=
  Eval vm_compute in
    value_of {| nf_has_Channel := false; nf_has_Viewers := false; nf_rows := [] |}
      (preprocess_data (sheet_viewing wb_mixed)).

(* ================================================================== *)
(** ** Notions for the properties of the whole pipeline *)

(** The expected columns a workbook lacks, in the order in which the
    stages ask for them. *)
Definition missing_columns (wb : Workbook) : list string :=
  let v := sheet_viewing wb in
  let p := sheet_producers wb in
  (if has_Date v then [] else ["Date"])
  ++ (if has_Programme v then [] else ["Programme"])
  ++ (if has_Territory v then [] else ["Territory"])
  ++ (if has_pr_Programme p then [] else ["Programme"])
  ++ (if has_pr_Producer p then [] else ["Producer"])
  ++ (if has_Channel v then [] else ["Channel"])
  ++ (if has_Viewers v then [] else ["Viewers"]).

(** The producer rows of a programme. *)
Definition producers_of (ps : list ProducerRecord) (programme : string)
    : list ProducerRecord :=
  filter (fun p => String.eqb (pr_Programme p) programme) ps.

Definition producer_name (p : ProducerRecord) : string :=
  match pr_Producer p with
  | Some name => name
  | None => "Unknown"
  end.

(** The Producer names under which a broadcast of a programme is counted. *)
Definition producer_names (ps : list ProducerRecord) (programme : string)
    : list string :=
  match producers_of ps programme with
  | [] => ["Unknown"]
  | matching => map producer_name matching
  end.

(** (Month, Channel) of the row is not after that of the key, nulls
    last. *)
Definition not_after (k : GroupKey) (ir : nat * JoinedRecord) : bool :=
  leb_of (pair_cmp (na_last period_cmp) (na_last Z.compare))
    (Month (snd ir), Channel (snd ir))
    (Some (fst (snd k)), Some (snd (snd k))).

Definition list_sum (l : list Z) : Z := fold_right Z.add 0 l.

(** A broadcast that enters a group: its Date parses and it has a
    Channel. *)
Definition counted (raw : ViewingRecord) : bool :=
  match vr_Date raw, vr_Channel raw with
  | Parseable _, Some _ => true
  | _, _ => false
  end.

Definition raw_viewers (raw : ViewingRecord) : Z :=
  match vr_Viewers raw with
  | Some v => v
  | None => 0
  end.

(** The number of joined rows a broadcast of the programme has: one for
    each of its producer rows, one when it has none. *)
Definition copies (ps : list ProducerRecord) (programme : string) : Z :=
  Z.max 1 (Z.of_nat (List.length (producers_of ps programme))).


(** The Viewers a joined row adds to the sum of its group: nothing when it
    is in no group or has no Viewers. *)
Definition grouped_viewers (j : JoinedRecord) : Z :=
  if has_group_key j
  then match Viewers j with Some v => v | None => 0 end
  else 0.

(** The same for a normalized viewing row, whatever Producer the join gives
    it. *)
Definition normalized_viewers (v : NormalizedViewingRecord) : Z :=
  if notnull (nv_Month v) && notnull (nv_Channel v)
  then match nv_Viewers v with Some x => x | None => 0 end
  else 0.

(** What a broadcast adds to the Sum_of_Viewers of the summary, all records
    together. *)
Definition broadcast_share (ps : list ProducerRecord) (raw : ViewingRecord) : Z :=
  if counted raw
  then copies ps (strip (vr_Programme raw)) * raw_viewers raw
  else 0.


(** A producers sheet whose Programme is written with a leading blank. *)
Definition wb_padded_producer : Workbook :=
  workbook
    [ viewing (day 2024 1 5) "Show A" "UK" (Some 101) (Some 8) ]
    [ producer " Show A" "Acme" ].

Definition jf_padded_producer : JoinedFrame :=
  Eval vm_compute in value_of empty_frame (joined_frame_of wb_padded_producer).


(** The workbook with the rows of its two sheets replaced, its columns
    kept. *)
Definition with_rows (vs : list ViewingRecord) (ps : list ProducerRecord)
    (wb : Workbook) : Workbook :=
  let v := sheet_viewing wb in
  let p := sheet_producers wb in
  {| sheet_viewing :=
       {| has_Date := has_Date v; has_Programme := has_Programme v;
          has_Territory := has_Territory v; has_Channel := has_Channel v;
          has_Viewers := has_Viewers v;
          Programme_is_text := Programme_is_text v;
          Territory_is_text := Territory_is_text v; viewing_rows := vs |};
     sheet_producers :=
       {| has_pr_Programme := has_pr_Programme p;
          has_pr_Producer := has_pr_Producer p;
          pr_Programme_is_text := pr_Programme_is_text p;
          producer_rows := ps |} |}.


(** A viewing row with the empty text in its Territory cell. *)
Definition without_Territory (r : ViewingRecord) : ViewingRecord :=
  {| vr_Date := vr_Date r; vr_Programme := vr_Programme r;
     vr_Territory := EmptyString; vr_Channel := vr_Channel r;
     vr_Viewers := vr_Viewers r |}.

Definition nv_without_Territory (v : NormalizedViewingRecord)
    : NormalizedViewingRecord :=
  {| nv_Date := nv_Date v; nv_Programme := nv_Programme v;
     nv_Territory := EmptyString; nv_Channel := nv_Channel v;
     nv_Viewers := nv_Viewers v; nv_Month := nv_Month v |}.

Definition blank_Territory (j : JoinedRecord) : JoinedRecord :=
  {| Programme := Programme j; Producer := Producer j; Date := Date j;
     Territory := option_map (fun _ => EmptyString) (Territory j);
     Channel := Channel j; Viewers := Viewers j; Month := Month j |}.

(** A change of the rows of a frame that keeps their labels. *)
Definition on_rows {A B : Type} (g : A -> B) (df : Indexed A) : Indexed B :=
  map (fun ir => (fst ir, g (snd ir))) df.

(** The same workbook with other Territory texts. *)
Definition wb_mixed_territories : list ViewingRecord :=
  [ viewing (day 2024 2 20) " Show Z " "Wales" (Some 1) (Some 3);
    viewing (day 2024 2 21) "Show B" "" (Some 1) None;
    viewing (day 2024 1 7) "Show B" "FR" (Some 2) (Some 40);
    viewing Unparseable "Show B" " IT" (Some 2) (Some 9);
    viewing (day 2024 3 1) "Show A" "DE" None (Some 11);
    viewing (day 2024 3 2) "Show A" "ES" (Some 2) (Some 5) ].


(** A viewing sheet with its columns and no rows. *)
Definition wb_no_rows : Workbook := workbook [] [ producer "Show A" "Acme" ].


(* ================================================================== *)
(** ** The range of exact numbers *)

(** pandas holds the Channel and Viewers columns as int64, or as float64
    once they have a null (a blank cell, or the cells an unmatched producer
    row gets in the merge).  An int64 sum wraps around at 2^63 and a
    float64 holds the whole numbers up to 2^53 only.  The numbers of a
    frame are exact, and its sums are those over [Z] of [series_sum] and
    [cumsum], when the absolute values of its Viewers sum below 2^53 and
    its Channels are below 2^53: no sum of a group and no running total can
    then leave the range (see [sums_within_exact_range]). *)
Definition exact_limit : Z := 2 ^ 53.

Definition exact_numbersb (table : Indexed JoinedRecord) : bool :=
  (list_sum (map (fun ir => Z.abs (viewers_or_zero ir)) table) <? exact_limit)
  && forallb (fun ir => match Channel (snd ir) with
                        | Some c => Z.abs c <? exact_limit
                        | None => true
                        end) table.

Definition exact_numbers (table : Indexed JoinedRecord) : Prop :=
  exact_numbersb table = true.

(** The same of a workbook, through its join. *)
Definition exact_workbook (wb : Workbook) : Prop :=
  match joined_frame_of wb with
  | Ok jf => exact_numbers (jf_rows jf)
  | Raise _ => True
  end.


(** U+00A0 and U+2003 in UTF-8. *)
Definition no_break_space : string :=
  String (ascii_of_nat 194) (String (ascii_of_nat 160) EmptyString).

Definition em_space : string :=
  String (ascii_of_nat 226)
    (String (ascii_of_nat 128) (String (ascii_of_nat 131) EmptyString)).

(* ================================================================== *)
(** * Properties *)

(** ** Lawful comparisons *)

Section LawfulFacts.
Context {A : Type} (cmp : A -> A -> comparison) {L : Lawful cmp}.

Lemma cmp_refl (x : A) : cmp x x = Eq.
Proof. apply (cmp_eq cmp). reflexivity. Qed.

Lemma cmp_gt_lt (x y : A) : cmp x y = Gt <-> cmp y x = Lt.
Proof.
  rewrite (cmp_opp cmp x y).
  destruct (cmp x y); simpl; split; congruence.
Qed.

Lemma leb_of_total (x y : A) : leb_of cmp x y = false -> leb_of cmp y x = true.
Proof.
  unfold leb_of. rewrite (cmp_opp cmp x y).
  destruct (cmp x y); simpl; congruence.
Qed.

Lemma leb_of_trans (x y z : A) :
  leb_of cmp x y = true -> leb_of cmp y z = true -> leb_of cmp x z = true.
Proof.
  unfold leb_of. intros Hxy Hyz.
  destruct (cmp x y) eqn:Exy; try discriminate;
    destruct (cmp y z) eqn:Eyz; try discriminate.
  - apply (cmp_eq cmp) in Exy. subst y. rewrite Eyz. reflexivity.
  - apply (cmp_eq cmp) in Exy. subst y. rewrite Eyz. reflexivity.
  - apply (cmp_eq cmp) in Eyz. subst z. rewrite Exy. reflexivity.
  - rewrite (cmp_lt_trans cmp x y z Exy Eyz). reflexivity.
Qed.

Lemma eqb_of_true (x y : A) : eqb_of cmp x y = true <-> x = y.
Proof.
  unfold eqb_of. rewrite <- (cmp_eq cmp).
  destruct (cmp x y); split; congruence.
Qed.

Lemma eqb_of_refl (x : A) : eqb_of cmp x x = true.
Proof. apply eqb_of_true. reflexivity. Qed.
End LawfulFacts.

#[export] Instance lawful_Z : Lawful Z.compare.
Proof.
  constructor.
  - intros x y. apply Z.compare_eq_iff.
  - intros x y. apply Z.compare_antisym.
  - intros x y z. rewrite !Z.compare_lt_iff. lia.
Qed.

Lemma str_lt_irrefl (x : string) : ~ String_as_OT.lt x x.
Proof. exact (@StrictOrder_Irreflexive _ _ String_as_OT.lt_strorder x). Qed.

Lemma str_lt_trans (x y z : string) :
  String_as_OT.lt x y -> String_as_OT.lt y z -> String_as_OT.lt x z.
Proof. exact (@StrictOrder_Transitive _ _ String_as_OT.lt_strorder x y z). Qed.

#[export] Instance lawful_str : Lawful str_cmp.
Proof.
  unfold str_cmp. constructor.
  - intros x y. destruct (String_as_OT.compare_spec x y) as [E | L | L].
    + tauto.
    + split; [discriminate |]. intros ->. destruct (str_lt_irrefl _ L).
    + split; [discriminate |]. intros ->. destruct (str_lt_irrefl _ L).
  - intros x y.
    destruct (String_as_OT.compare_spec x y) as [E | L | L];
      destruct (String_as_OT.compare_spec y x) as [E' | L' | L'];
      simpl; try reflexivity; exfalso; unfold String_as_OT.eq in *; subst;
      match goal with
      | H : String_as_OT.lt ?a ?a |- _ => exact (str_lt_irrefl _ H)
      | H1 : String_as_OT.lt ?a ?b, H2 : String_as_OT.lt ?b ?a |- _ =>
          exact (str_lt_irrefl _ (str_lt_trans _ _ _ H1 H2))
      end.
  - intros x y z. apply str_lt_trans.
Qed.

Lemma lawful_pair {A B : Type} (ca : A -> A -> comparison)
    (cb : B -> B -> comparison) :
  Lawful ca -> Lawful cb -> Lawful (pair_cmp ca cb).
Proof.
  intros La Lb. unfold pair_cmp, lex. constructor.
  - intros [a b] [a' b']. simpl.
    destruct (ca a a') eqn:Ea.
    + apply (cmp_eq ca) in Ea. subst a'. rewrite (cmp_eq cb).
      split; [intros -> | intros [= ->]]; reflexivity.
    + split; [discriminate | intros [= -> ->]].
      rewrite (cmp_refl ca) in Ea. discriminate.
    + split; [discriminate | intros [= -> ->]].
      rewrite (cmp_refl ca) in Ea. discriminate.
  - intros [a b] [a' b']. simpl. rewrite (cmp_opp ca a a').
    destruct (ca a a'); simpl; try reflexivity. apply (cmp_opp cb).
  - intros [a b] [a' b'] [a'' b'']. simpl.
    destruct (ca a a') eqn:E1; try discriminate;
      destruct (ca a' a'') eqn:E2; try discriminate; intros H1 H2.
    + apply (cmp_eq ca) in E1, E2. subst. rewrite (cmp_refl ca).
      exact (cmp_lt_trans cb _ _ _ H1 H2).
    + apply (cmp_eq ca) in E1. subst. rewrite E2. reflexivity.
    + apply (cmp_eq ca) in E2. subst. rewrite E1. reflexivity.
    + rewrite (cmp_lt_trans ca _ _ _ E1 E2). reflexivity.
Qed.

Lemma lawful_na_last {A : Type} (cmp : A -> A -> comparison) :
  Lawful cmp -> Lawful (na_last cmp).
Proof.
  intros L. constructor.
  - intros [a |] [b |]; simpl; try (split; congruence).
    rewrite (cmp_eq cmp). split; congruence.
  - intros [a |] [b |]; simpl; try reflexivity. apply (cmp_opp cmp).
  - intros [a |] [b |] [c |]; simpl; try congruence.
    apply (cmp_lt_trans cmp).
Qed.

Lemma lawful_on_key {A K : Type} (key : A -> K) (cmp : K -> K -> comparison) :
  Lawful cmp -> (forall x y, key x = key y -> x = y) -> Lawful (on_key key cmp).
Proof.
  intros L inj. unfold on_key. constructor.
  - intros x y. rewrite (cmp_eq cmp). split; [apply inj | congruence].
  - intros x y. apply (cmp_opp cmp).
  - intros x y z. apply (cmp_lt_trans cmp).
Qed.

#[export] Instance lawful_period : Lawful period_cmp.
Proof.
  apply lawful_on_key.
  - apply lawful_pair; apply lawful_Z.
  - intros [y m] [y' m']. unfold period_key. simpl. congruence.
Qed.

#[export] Instance lawful_ts : Lawful ts_cmp.
Proof.
  apply lawful_on_key.
  - repeat apply lawful_pair; apply lawful_Z.
  - intros [y m d n] [y' m' d' n']. unfold ts_key. simpl. congruence.
Qed.

#[export] Instance lawful_group : Lawful group_cmp.
Proof.
  unfold group_cmp. repeat apply lawful_pair;
    auto using lawful_str, lawful_period, lawful_Z.
Qed.

#[export] Instance lawful_sort : Lawful sort_cmp.
Proof.
  unfold sort_cmp. repeat apply lawful_pair; apply lawful_na_last;
    auto using lawful_str, lawful_period, lawful_Z, lawful_ts.
Qed.

(* ================================================================== *)
(** ** The stable sort *)

Section StableSort.
Context {A : Type} (cmp : A -> A -> comparison).
Hypothesis total : forall x y, leb_of cmp x y = false -> leb_of cmp y x = true.
Hypothesis trans : forall x y z,
  leb_of cmp x y = true -> leb_of cmp y z = true -> leb_of cmp x z = true.

Lemma insert_stable_perm (x : A) (l : list A) :
  Permutation (insert_stable cmp x l) (x :: l).
Proof.
  induction l as [| h t IH]; simpl.
  - apply Permutation_refl.
  - destruct (leb_of cmp x h).
    + apply Permutation_refl.
    + apply Permutation_trans with (h :: x :: t).
      * apply perm_skip. exact IH.
      * apply perm_swap.
Qed.

Lemma stable_sort_perm (l : list A) : Permutation (stable_sort cmp l) l.
Proof.
  induction l as [| x l IH]; simpl.
  - apply perm_nil.
  - apply Permutation_trans with (x :: stable_sort cmp l).
    + apply insert_stable_perm.
    + apply perm_skip. exact IH.
Qed.

Lemma insert_stable_sorted (x : A) (l : list A) :
  StronglySorted (le cmp) l -> StronglySorted (le cmp) (insert_stable cmp x l).
Proof.
  induction l as [| h t IH]; simpl; intros Hs.
  - constructor; constructor.
  - inversion Hs as [| ? ? Ht Hh]; subst.
    destruct (leb_of cmp x h) eqn:E.
    + constructor; [exact Hs |].
      constructor; [exact E |].
      rewrite Forall_forall in Hh |- *. intros y Hy.
      exact (trans _ _ _ E (Hh y Hy)).
    + constructor; [apply IH; exact Ht |].
      rewrite Forall_forall in Hh |- *. intros y Hy.
      apply (Permutation_in _ (insert_stable_perm x t)) in Hy.
      destruct Hy as [<- | Hy]; [apply total; exact E | apply Hh; exact Hy].
Qed.

Lemma stable_sort_sorted (l : list A) : StronglySorted (le cmp) (stable_sort cmp l).
Proof.
  induction l as [| x l IH]; simpl.
  - constructor.
  - apply insert_stable_sorted. exact IH.
Qed.

(** Stability, as far as the pipeline needs it: dropping rows before or
    after sorting is the same. *)
Lemma insert_stable_filter (keep : A -> bool) (x : A) (l : list A) :
  StronglySorted (le cmp) l ->
  filter keep (insert_stable cmp x l)
  = if keep x then insert_stable cmp x (filter keep l) else filter keep l.
Proof.
  induction l as [| h t IH]; simpl; intros Hs.
  - destruct (keep x); reflexivity.
  - inversion Hs as [| ? ? Ht Hh]; subst.
    destruct (leb_of cmp x h) eqn:E; simpl.
    + destruct (keep x) eqn:Kx; [| reflexivity].
      destruct (keep h) eqn:Kh; simpl.
      * rewrite E. reflexivity.
      * assert (Hall : Forall (le cmp x) (filter keep t)).
        { rewrite Forall_forall in Hh |- *. intros y Hy.
          apply filter_In in Hy. destruct Hy as [Hy _].
          exact (trans _ _ _ E (Hh y Hy)). }
        destruct (filter keep t) as [| z u]; simpl; [reflexivity |].
        inversion Hall as [| ? ? Hz _]; subst. unfold le in Hz.
        rewrite Hz. reflexivity.
    + rewrite (IH Ht).
      destruct (keep h) eqn:Kh; destruct (keep x) eqn:Kx; simpl;
        try rewrite E; reflexivity.
Qed.

Lemma stable_sort_filter (keep : A -> bool) (l : list A) :
  filter keep (stable_sort cmp l) = stable_sort cmp (filter keep l).
Proof.
  induction l as [| x l IH]; simpl.
  - reflexivity.
  - rewrite insert_stable_filter by apply stable_sort_sorted.
    rewrite IH. destruct (keep x); reflexivity.
Qed.
End StableSort.

Lemma row_leb_total (x y : nat * JoinedRecord) :
  leb_of row_cmp x y = false -> leb_of row_cmp y x = true.
Proof. unfold row_cmp, on_key. apply (leb_of_total sort_cmp). Qed.

Lemma row_leb_trans (x y z : nat * JoinedRecord) :
  leb_of row_cmp x y = true -> leb_of row_cmp y z = true ->
  leb_of row_cmp x z = true.
Proof. unfold row_cmp, on_key. apply (leb_of_trans sort_cmp). Qed.

Lemma sort_values_perm (df : Indexed JoinedRecord) :
  Permutation (sort_values df) df.
Proof. apply stable_sort_perm. Qed.

Lemma sort_values_sorted (df : Indexed JoinedRecord) :
  StronglySorted row_le (sort_values df).
Proof. apply stable_sort_sorted; [exact row_leb_total | exact row_leb_trans]. Qed.

Lemma sort_values_filter (keep : nat * JoinedRecord -> bool) (df : Indexed JoinedRecord) :
  filter keep (sort_values df) = sort_values (filter keep df).
Proof. apply stable_sort_filter; [exact row_leb_total | exact row_leb_trans]. Qed.

(* ================================================================== *)
(** ** Ascending keys without repeats *)

Section SortedUnique.
Context {A : Type} (cmp : A -> A -> comparison) {L : Lawful cmp}.

Lemma insert_unique_In (x k : A) (l : list A) :
  In k (insert_unique cmp x l) <-> k = x \/ In k l.
Proof.
  induction l as [| h t IH]; simpl.
  - intuition congruence.
  - destruct (cmp x h) eqn:E; simpl.
    + apply (cmp_eq cmp) in E. subst h. intuition congruence.
    + intuition congruence.
    + rewrite IH. intuition congruence.
Qed.

Lemma insert_unique_sorted (x : A) (l : list A) :
  StronglySorted (lt cmp) l -> StronglySorted (lt cmp) (insert_unique cmp x l).
Proof.
  induction l as [| h t IH]; simpl; intros Hs.
  - constructor; constructor.
  - inversion Hs as [| ? ? Ht Hh]; subst.
    destruct (cmp x h) eqn:E.
    + exact Hs.
    + constructor; [exact Hs |].
      constructor; [exact E |].
      rewrite Forall_forall in Hh |- *. intros y Hy.
      exact (cmp_lt_trans cmp _ _ _ E (Hh y Hy)).
    + constructor; [apply IH; exact Ht |].
      rewrite Forall_forall in Hh |- *. intros y Hy.
      apply insert_unique_In in Hy. destruct Hy as [-> | Hy].
      * apply (cmp_gt_lt cmp). exact E.
      * apply Hh. exact Hy.
Qed.

Lemma sorted_unique_In (k : A) (l : list A) :
  In k (sorted_unique cmp l) <-> In k l.
Proof.
  induction l as [| x l IH]; simpl.
  - tauto.
  - rewrite insert_unique_In, IH. intuition congruence.
Qed.

Lemma sorted_unique_sorted (l : list A) : StronglySorted (lt cmp) (sorted_unique cmp l).
Proof.
  induction l as [| x l IH]; simpl.
  - constructor.
  - apply insert_unique_sorted. exact IH.
Qed.

Lemma lt_irrefl (x : A) : ~ lt cmp x x.
Proof. unfold lt. rewrite (cmp_refl cmp). discriminate. Qed.

(** An ascending list without repeats is determined by its members. *)
Lemma strictly_sorted_ext (l1 l2 : list A) :
  StronglySorted (lt cmp) l1 -> StronglySorted (lt cmp) l2 ->
  (forall k, In k l1 <-> In k l2) -> l1 = l2.
Proof.
  revert l2. induction l1 as [| h1 t1 IH]; intros [| h2 t2] H1 H2 Hin.
  - reflexivity.
  - destruct (proj2 (Hin h2) (or_introl eq_refl)).
  - destruct (proj1 (Hin h1) (or_introl eq_refl)).
  - inversion H1 as [| ? ? Ht1 Hh1]; inversion H2 as [| ? ? Ht2 Hh2]; subst.
    rewrite Forall_forall in Hh1, Hh2.
    assert (E : h1 = h2).
    { destruct (proj1 (Hin h1) (or_introl eq_refl)) as [E | I1]; [congruence |].
      destruct (proj2 (Hin h2) (or_introl eq_refl)) as [E | I2]; [congruence |].
      destruct (lt_irrefl h1).
      exact (cmp_lt_trans cmp _ _ _ (Hh1 _ I2) (Hh2 _ I1)). }
    subst h2. f_equal. apply IH; [exact Ht1 | exact Ht2 |].
    intros k. split; intros I.
    + destruct (proj1 (Hin k) (or_intror I)) as [E | I']; [| exact I'].
      subst k. destruct (lt_irrefl h1). exact (Hh1 _ I).
    + destruct (proj2 (Hin k) (or_intror I)) as [E | I']; [| exact I'].
      subst k. destruct (lt_irrefl h1). exact (Hh2 _ I).
Qed.

Lemma sorted_unique_ext (l1 l2 : list A) :
  (forall k, In k l1 <-> In k l2) -> sorted_unique cmp l1 = sorted_unique cmp l2.
Proof.
  intros H. apply strictly_sorted_ext; try apply sorted_unique_sorted.
  intros k. rewrite !sorted_unique_In. apply H.
Qed.

Lemma strictly_sorted_NoDup (l : list A) : StronglySorted (lt cmp) l -> NoDup l.
Proof.
  induction 1 as [| h t Ht IH Hh]; constructor; [| exact IH].
  intros I. rewrite Forall_forall in Hh. exact (lt_irrefl h (Hh _ I)).
Qed.
End SortedUnique.

(* ================================================================== *)
(** ** Groups *)

Lemma dropna_In {A : Type} (k : A) (l : list (option A)) :
  In k (dropna l) <-> In (Some k) l.
Proof.
  induction l as [| [a |] l IH]; simpl.
  - tauto.
  - rewrite IH. intuition congruence.
  - rewrite IH. intuition congruence.
Qed.

Section GroupFacts.
Context {A : Type} (key : A -> option GroupKey).

Lemma in_group_true (k : GroupKey) (ir : nat * A) :
  in_group key k ir = true <-> key (snd ir) = Some k.
Proof.
  unfold in_group. destruct (key (snd ir)) as [k' |].
  - rewrite (eqb_of_true group_cmp). split; congruence.
  - split; discriminate.
Qed.

Lemma get_group_In (k : GroupKey) (df : Indexed A) (ir : nat * A) :
  In ir (get_group key k df) <-> In ir df /\ key (snd ir) = Some k.
Proof. unfold get_group. rewrite filter_In, in_group_true. tauto. Qed.

Lemma group_keys_In (k : GroupKey) (df : Indexed A) :
  In k (group_keys key df) <-> exists ir, In ir df /\ key (snd ir) = Some k.
Proof.
  unfold group_keys. rewrite (sorted_unique_In group_cmp), dropna_In, in_map_iff.
  split; intros [ir H]; exists ir; tauto.
Qed.

Lemma group_keys_sorted (df : Indexed A) :
  StronglySorted (lt group_cmp) (group_keys key df).
Proof. apply (sorted_unique_sorted group_cmp). Qed.

Lemma group_keys_NoDup (df : Indexed A) : NoDup (group_keys key df).
Proof. apply (strictly_sorted_NoDup group_cmp), group_keys_sorted. Qed.

(** Every group of [groupby] has a row. *)
Lemma get_group_nonempty (k : GroupKey) (df : Indexed A) :
  In k (group_keys key df) -> get_group key k df <> [].
Proof.
  intros H E. apply group_keys_In in H. destruct H as [ir [I K]].
  assert (I' : In ir (get_group key k df)) by (apply get_group_In; tauto).
  rewrite E in I'. exact I'.
Qed.
End GroupFacts.

(** The frame under its new column is the frame. *)
Lemma cumsum_rows (acc : Running) (df : Indexed JoinedRecord) :
  map (fun irc => (fst irc, fst (snd irc))) (cumsum acc df) = df.
Proof.
  revert acc. induction df as [| [i r] df IH]; intros acc; simpl.
  - reflexivity.
  - destruct (Producer r) as [p |]; [destruct (Viewers r) as [v |] |];
      simpl; rewrite IH; reflexivity.
Qed.

Lemma cumsum_In_row (acc : Running) (df : Indexed JoinedRecord) (i : nat)
    (r : JoinedRecord) :
  In (i, r) df <-> exists c, In (i, (r, c)) (cumsum acc df).
Proof.
  rewrite <- (cumsum_rows acc df) at 1. rewrite in_map_iff. split.
  - intros [[i' [r' c]] [E I]]. simpl in E. injection E as -> ->.
    exists c. exact I.
  - intros [c I]. exists (i, (r, c)). split; [reflexivity | exact I].
Qed.

(** Sorting and the new column leave the set of groups as it was. *)
Lemma group_keys_sorted_frame (df : Indexed JoinedRecord) :
  group_keys cum_key (cumsum no_totals (sort_values df)) = group_keys group_key df.
Proof.
  apply strictly_sorted_ext with (cmp := group_cmp);
    try apply group_keys_sorted; try exact lawful_group.
  intros k. rewrite !group_keys_In. split.
  - intros [[i [r c]] [I K]]. exists (i, r). split; [| exact K].
    apply (Permutation_in _ (sort_values_perm df)).
    apply (cumsum_In_row no_totals). exists c. exact I.
  - intros [[i r] [I K]].
    apply (Permutation_in _ (Permutation_sym (sort_values_perm df))) in I.
    apply (cumsum_In_row no_totals) in I. destruct I as [c I].
    exists (i, (r, c)). split; [exact I | exact K].
Qed.

Lemma filter_none {A : Type} (f : A -> bool) (l : list A) :
  (forall x, In x l -> f x = false) -> filter f l = [].
Proof.
  induction l as [| h t IH]; simpl; intros H; [reflexivity |].
  rewrite (H h (or_introl eq_refl)). apply IH. intros x I. apply H. right. exact I.
Qed.

Lemma filter_key_singleton (k : GroupKey) (ks : list GroupKey) :
  NoDup ks -> In k ks -> filter (fun k' => eqb_of group_cmp k' k) ks = [k].
Proof.
  induction 1 as [| h t Hh Ht IH]; simpl; [tauto |].
  intros [-> | I].
  - rewrite (eqb_of_refl group_cmp). f_equal.
    apply filter_none.
    intros y Hy. destruct (eqb_of group_cmp y k) eqn:E; [| reflexivity].
    apply (eqb_of_true group_cmp) in E. subst y. contradiction.
  - destruct (eqb_of group_cmp h k) eqn:E.
    + apply (eqb_of_true group_cmp) in E. subst h. contradiction.
    + apply IH. exact I.
Qed.

(** Two aggregates over the same keys merge key by key. *)
Lemma merge_inner_same_keys {A B : Type} (f : GroupKey -> A) (g : GroupKey -> B)
    (ks : list GroupKey) :
  NoDup ks ->
  merge_inner (map (fun k => (k, f k)) ks) (map (fun k => (k, g k)) ks)
  = map (fun k => (k, (f k, g k))) ks.
Proof.
  intros ND. unfold merge_inner.
  assert (H : forall k, In k ks ->
            filter (fun r : GroupKey * B => eqb_of group_cmp (fst r) k)
              (map (fun k => (k, g k)) ks) = [(k, g k)]).
  { intros k I.
    assert (E : filter (fun r : GroupKey * B => eqb_of group_cmp (fst r) k)
                  (map (fun k => (k, g k)) ks)
                = map (fun k => (k, g k))
                    (filter (fun k' => eqb_of group_cmp k' k) ks)).
    { clear. induction ks as [| h t IH]; simpl; [reflexivity |].
      destruct (eqb_of group_cmp h k); simpl; rewrite IH; reflexivity. }
    rewrite E, (filter_key_singleton k ks ND I). reflexivity. }
  assert (G : forall l, (forall k, In k l -> In k ks) ->
            flat_map
              (fun l0 : GroupKey * A =>
                 map (fun r : GroupKey * B => (fst l0, (snd l0, snd r)))
                   (filter (fun r : GroupKey * B => eqb_of group_cmp (fst r) (fst l0))
                      (map (fun k => (k, g k)) ks)))
              (map (fun k => (k, f k)) l)
            = map (fun k => (k, (f k, g k))) l).
  { induction l as [| h t IH]; intros Hl; simpl; [reflexivity |].
    rewrite (H h (Hl h (or_introl eq_refl))). simpl. f_equal.
    apply IH. intros k I. apply Hl. right. exact I. }
  apply G. auto.
Qed.

(* ================================================================== *)
(** ** [aggregate_data], group by group *)

Lemma peak_summary_keys (df : Indexed JoinedRecord) :
  peak_summary df
  = map (fun k => (k, peak_and_sum (get_group group_key k df)))
      (group_keys group_key df).
Proof. unfold peak_summary, groupby. rewrite map_map. reflexivity. Qed.

Lemma cumulative_summary_keys (df : Indexed JoinedRecord) :
  cumulative_summary df
  = map (fun k => (k, cumulative_of k df)) (group_keys group_key df).
Proof.
  unfold cumulative_summary, groupby. rewrite map_map.
  rewrite group_keys_sorted_frame. reflexivity.
Qed.

Lemma merge_aggregates (df : Indexed JoinedRecord) :
  map summary_row (merge_inner (peak_summary df) (cumulative_summary df))
  = aggregate_rows df.
Proof.
  rewrite peak_summary_keys, cumulative_summary_keys.
  rewrite merge_inner_same_keys by apply group_keys_NoDup.
  unfold aggregate_rows. rewrite map_map. reflexivity.
Qed.

Lemma aggregate_data_flags (df : JoinedFrame) (summary : list SummaryRow) :
  aggregate_data df = Ok summary ->
  jf_has_Producer df = true /\ jf_has_Channel df = true /\ jf_has_Viewers df = true.
Proof.
  unfold aggregate_data, require_column.
  destruct (jf_has_Producer df), (jf_has_Channel df), (jf_has_Viewers df);
    simpl; intros H; try discriminate; auto.
Qed.

Lemma aggregate_data_rows (df : JoinedFrame) (summary : list SummaryRow) :
  aggregate_data df = Ok summary -> summary = aggregate_rows (jf_rows df).
Proof.
  intros H. destruct (aggregate_data_flags _ _ H) as [P [C V]].
  unfold aggregate_data, require_column in H. rewrite P, C, V in H. simpl in H.
  rewrite merge_aggregates in H. congruence.
Qed.

Lemma aggregate_data_ok (df : JoinedFrame) :
  jf_has_Producer df = true -> jf_has_Channel df = true ->
  jf_has_Viewers df = true ->
  aggregate_data df = Ok (aggregate_rows (jf_rows df)).
Proof.
  intros P C V. unfold aggregate_data, require_column. rewrite P, C, V. simpl.
  rewrite merge_aggregates. reflexivity.
Qed.

Lemma summary_key_row (k : GroupKey) (pk : PeakAndSum) (cum : option Z) :
  summary_key (summary_row (k, (pk, cum))) = k.
Proof. destruct k as [p [m c]]. reflexivity. Qed.

Lemma cumulative_row (k : GroupKey) (pk : PeakAndSum) (cum : option Z) :
  Cumulative_Viewers (summary_row (k, (pk, cum))) = cum.
Proof. reflexivity. Qed.

Lemma aggregate_rows_keys (df : Indexed JoinedRecord) :
  map summary_key (aggregate_rows df) = group_keys group_key df.
Proof.
  unfold aggregate_rows. rewrite map_map.
  erewrite map_ext; [apply map_id |]. intros k. apply summary_key_row.
Qed.

Lemma aggregate_rows_In (df : Indexed JoinedRecord) (s : SummaryRow) :
  In s (aggregate_rows df) <->
  In (summary_key s) (group_keys group_key df) /\
  s = summary_row (summary_key s,
        (peak_and_sum (get_group group_key (summary_key s) df),
         cumulative_of (summary_key s) df)).
Proof.
  unfold aggregate_rows. rewrite in_map_iff. split.
  - intros [k [E I]]. subst s. rewrite summary_key_row. tauto.
  - intros [I E]. exists (summary_key s). split; [symmetry; exact E | exact I].
Qed.

(* ================================================================== *)
(** ** The stages before the aggregation *)

Lemma preprocess_data_ok (df : ViewingSheet) (nf : NormalizedFrame) :
  preprocess_data df = Ok nf ->
  has_Date df = true /\ has_Programme df = true /\ has_Territory df = true /\
  viewing_rows df <> [] /\
  nf = {| nf_has_Channel := has_Channel df;
          nf_has_Viewers := has_Viewers df;
          nf_rows := map (preprocess_row (has_Viewers df)) (viewing_rows df) |}.
Proof.
  unfold preprocess_data, require_column, require_text.
  destruct (has_Date df); simpl; [| discriminate].
  destruct (viewing_rows df) as [| r rows]; simpl; [discriminate |].
  destruct (has_Programme df); simpl; [| discriminate].
  destruct (Programme_is_text df); simpl; [| discriminate].
  destruct (has_Territory df); simpl; [| discriminate].
  destruct (Territory_is_text df); simpl; [| discriminate].
  intros [= <-]. repeat split; congruence.
Qed.

(** The Normalizer passes a sheet only when its Programme and Territory
    columns hold text. *)
Lemma preprocess_data_text (df : ViewingSheet) (nf : NormalizedFrame) :
  preprocess_data df = Ok nf ->
  Programme_is_text df = true /\ Territory_is_text df = true.
Proof.
  unfold preprocess_data, require_column, require_text.
  destruct (has_Date df); simpl; [| discriminate].
  destruct (viewing_rows df) as [| r rows]; simpl; [discriminate |].
  destruct (has_Programme df); simpl; [| discriminate].
  destruct (Programme_is_text df); simpl; [| discriminate].
  destruct (has_Territory df); simpl; [| discriminate].
  destruct (Territory_is_text df); simpl; [| discriminate].
  intros _. split; reflexivity.
Qed.

(** What the Normalizer does with a sheet, check by check. *)
Lemma preprocess_data_cases (df : ViewingSheet) :
  preprocess_data df
  = if negb (has_Date df) then Raise (KeyError "Date")
    else match viewing_rows df with
         | [] => Raise (AttributeError "dt")
         | _ :: _ =>
             if negb (has_Programme df) then Raise (KeyError "Programme")
             else if negb (Programme_is_text df) then Raise (AttributeError "str")
             else if negb (has_Territory df) then Raise (KeyError "Territory")
             else if negb (Territory_is_text df) then Raise (AttributeError "str")
             else Ok {| nf_has_Channel := has_Channel df;
                        nf_has_Viewers := has_Viewers df;
                        nf_rows := map (preprocess_row (has_Viewers df))
                                     (viewing_rows df) |}
         end.
Proof.
  unfold preprocess_data, require_column, require_text.
  destruct (has_Date df); [| reflexivity].
  destruct (viewing_rows df) as [| r rows]; [reflexivity |].
  destruct (has_Programme df); [| reflexivity].
  destruct (Programme_is_text df); [| reflexivity].
  destruct (has_Territory df); [| reflexivity].
  destruct (Territory_is_text df); reflexivity.
Qed.

Lemma merge_data_ok (ps : ProducerSheet) (nf : NormalizedFrame) (jf : JoinedFrame) :
  merge_data ps nf = Ok jf ->
  has_pr_Programme ps = true /\
  jf = {| jf_has_Producer := has_pr_Producer ps;
          jf_has_Channel := nf_has_Channel nf;
          jf_has_Viewers := nf_has_Viewers nf;
          jf_rows := range_index
                       (fill_producers (has_pr_Producer ps)
                          (merge_outer (producer_rows ps) (nf_rows nf))) |}.
Proof.
  unfold merge_data, require_column.
  destruct (has_pr_Programme ps); simpl; [| discriminate].
  destruct (producer_rows ps) as [| p ps'], (nf_rows nf) as [| v vs];
    try destruct (pr_Programme_is_text ps); simpl; try discriminate;
    intros [= <-]; split; reflexivity.
Qed.

(** What the Joiner does with its two frames, check by check. *)
Lemma merge_data_cases (ps : ProducerSheet) (nf : NormalizedFrame) :
  merge_data ps nf
  = if negb (has_pr_Programme ps) then Raise (KeyError "Programme")
    else if match producer_rows ps, nf_rows nf with
            | _ :: _, _ :: _ => negb (pr_Programme_is_text ps)
            | _, _ => false
            end
         then Raise (ValueError "Programme")
         else Ok {| jf_has_Producer := has_pr_Producer ps;
                    jf_has_Channel := nf_has_Channel nf;
                    jf_has_Viewers := nf_has_Viewers nf;
                    jf_rows := range_index
                                 (fill_producers (has_pr_Producer ps)
                                    (merge_outer (producer_rows ps) (nf_rows nf))) |}.
Proof.
  unfold merge_data, require_column.
  destruct (has_pr_Programme ps); [| reflexivity].
  destruct (producer_rows ps) as [| p ps'], (nf_rows nf) as [| v vs];
    try destruct (pr_Programme_is_text ps); reflexivity.
Qed.

Lemma map_snd_combine_seq {A : Type} (l : list A) (start : nat) :
  map snd (combine (seq start (List.length l)) l) = l.
Proof.
  revert start. induction l as [| x l IH]; intros start; simpl.
  - reflexivity.
  - rewrite IH. reflexivity.
Qed.

Lemma range_index_values {A : Type} (l : list A) : map snd (range_index l) = l.
Proof. apply map_snd_combine_seq. Qed.

Lemma range_index_In {A : Type} (l : list A) (x : A) :
  In x l <-> exists i, In (i, x) (range_index l).
Proof.
  rewrite <- (range_index_values l) at 1. rewrite in_map_iff. split.
  - intros [[i y] [E I]]. simpl in E. subst y. exists i. exact I.
  - intros [i I]. exists (i, x). split; [reflexivity | exact I].
Qed.

Lemma filter_programme_nil {A : Type} (prog : A -> string) (k : string) (l : list A) :
  filter (fun a => String.eqb (prog a) k) l = [] <->
  forall a, In a l -> prog a <> k.
Proof.
  split.
  - intros E a I Hk.
    assert (I' : In a (filter (fun a => String.eqb (prog a) k) l)).
    { apply filter_In. split; [exact I | apply String.eqb_eq; exact Hk]. }
    rewrite E in I'. exact I'.
  - intros H. apply filter_none. intros a I.
    apply String.eqb_neq. apply H. exact I.
Qed.

(** The rows of the outer join: a viewing row with each producer row of its
    Programme; a viewing row no producer row matches, Producer null; a
    producer row no viewing row matches, viewing cells null. *)
Lemma merge_outer_In (left : list ProducerRecord)
    (right : list NormalizedViewingRecord) (j : JoinedRecord) :
  In j (merge_outer left right) <->
  (exists p v, In p left /\ In v right /\ pr_Programme p = nv_Programme v /\
               j = of_viewing (pr_Producer p) v) \/
  (exists v, In v right /\ (forall p, In p left -> pr_Programme p <> nv_Programme v) /\
             j = of_viewing None v) \/
  (exists p, In p left /\ (forall v, In v right -> nv_Programme v <> pr_Programme p) /\
             j = of_producer p).
Proof.
  unfold merge_outer. rewrite in_flat_map. split.
  - intros [k [Hk Hj]].
    destruct (filter (fun p => String.eqb (pr_Programme p) k) left) as [| p0 ls] eqn:El.
    + right. left. apply in_map_iff in Hj. destruct Hj as [v [E I]].
      apply filter_In in I. destruct I as [I K]. apply String.eqb_eq in K.
      exists v. split; [exact I |]. split; [| congruence].
      rewrite K. apply (proj1 (filter_programme_nil pr_Programme k left) El).
    + destruct (filter (fun v => String.eqb (nv_Programme v) k) right) as [| v0 rs] eqn:Er.
      * right. right. apply in_map_iff in Hj. destruct Hj as [p [E I]].
        rewrite <- El in I. apply filter_In in I. destruct I as [I K].
        apply String.eqb_eq in K.
        exists p. split; [exact I |]. split; [| congruence].
        rewrite K. apply (proj1 (filter_programme_nil nv_Programme k right) Er).
      * left. apply in_flat_map in Hj. destruct Hj as [p [Ip Hj]].
        apply in_map_iff in Hj. destruct Hj as [v [E Iv]].
        rewrite <- El in Ip. rewrite <- Er in Iv.
        apply filter_In in Ip, Iv. destruct Ip as [Ip Kp], Iv as [Iv Kv].
        apply String.eqb_eq in Kp, Kv.
        exists p, v. repeat split; congruence.
  - intros [[p [v [Ip [Iv [E Hj]]]]] | [[v [Iv [N Hj]]] | [p [Ip [N Hj]]]]].
    + exists (nv_Programme v). split.
      { apply (sorted_unique_In str_cmp), in_or_app. right. apply in_map. exact Iv. }
      assert (Fp : In p (filter (fun p => String.eqb (pr_Programme p) (nv_Programme v)) left)).
      { apply filter_In. split; [exact Ip | apply String.eqb_eq; exact E]. }
      assert (Fv : In v (filter (fun v' => String.eqb (nv_Programme v') (nv_Programme v)) right)).
      { apply filter_In. split; [exact Iv | apply String.eqb_refl]. }
      destruct (filter (fun p => String.eqb (pr_Programme p) (nv_Programme v)) left)
        as [| p0 ls]; [destruct Fp |].
      destruct (filter (fun v' => String.eqb (nv_Programme v') (nv_Programme v)) right)
        as [| v0 rs]; [destruct Fv |].
      apply in_flat_map. exists p. split; [exact Fp |].
      apply in_map_iff. exists v. split; [congruence | exact Fv].
    + exists (nv_Programme v). split.
      { apply (sorted_unique_In str_cmp), in_or_app. right. apply in_map. exact Iv. }
      rewrite (proj2 (filter_programme_nil pr_Programme (nv_Programme v) left) N).
      apply in_map_iff. exists v. split; [congruence |].
      apply filter_In. split; [exact Iv | apply String.eqb_refl].
    + exists (pr_Programme p). split.
      { apply (sorted_unique_In str_cmp), in_or_app. left. apply in_map. exact Ip. }
      assert (Fp : In p (filter (fun p' => String.eqb (pr_Programme p') (pr_Programme p)) left)).
      { apply filter_In. split; [exact Ip | apply String.eqb_refl]. }
      rewrite (proj2 (filter_programme_nil nv_Programme (pr_Programme p) right) N).
      destruct (filter (fun p' => String.eqb (pr_Programme p') (pr_Programme p)) left)
        as [| p0 ls]; [destruct Fp |].
      apply in_map_iff. exists p. split; [congruence | exact Fp].
Qed.

Lemma joined_rows_In (ps : ProducerSheet) (nf : NormalizedFrame) (jf : JoinedFrame)
    (j : JoinedRecord) :
  merge_data ps nf = Ok jf -> has_pr_Producer ps = true ->
  (exists i, In (i, j) (jf_rows jf)) <->
  exists j0, In j0 (merge_outer (producer_rows ps) (nf_rows nf)) /\
             j = fillna_Producer j0.
Proof.
  intros H P. apply merge_data_ok in H. destruct H as [_ ->]. simpl.
  rewrite P. simpl. rewrite <- range_index_In, in_map_iff.
  split; intros [j0 [A B]]; exists j0; split; congruence.
Qed.

Lemma corresponds_of_viewing (prod : option string) (v : NormalizedViewingRecord) :
  corresponds v (fillna_Producer (of_viewing prod v)).
Proof. unfold corresponds. simpl. repeat split; reflexivity. Qed.

Lemma matches_dec (v : NormalizedViewingRecord) (l : list ProducerRecord) :
  (exists p, In p l /\ matches v p) \/ (forall p, In p l -> ~ matches v p).
Proof.
  unfold matches. induction l as [| p l IH].
  - right. intros p [].
  - destruct (String.eqb_spec (pr_Programme p) (nv_Programme v)) as [E | N].
    + left. exists p. split; [left; reflexivity | exact E].
    + destruct IH as [[q [Iq Mq]] | IH].
      * left. exists q. split; [right; exact Iq | exact Mq].
      * right. intros q [<- | Iq]; [exact N | apply IH; exact Iq].
Qed.

(** C3. Join completeness: every normalized viewing row has a row in the
    join that carries its cells; when no producer row has its Programme,
    every such row has Producer "Unknown"; and no row of the join has a
    null Producer.  (The producers sheet has its Producer column.) *)
Theorem C3_join_completeness (ps : ProducerSheet) (nf : NormalizedFrame)
    (jf : JoinedFrame) :
  merge_data ps nf = Ok jf ->
  has_pr_Producer ps = true ->
  (forall v, In v (nf_rows nf) ->
     (exists i j, In (i, j) (jf_rows jf) /\ corresponds v j) /\
     ((forall p, In p (producer_rows ps) -> ~ matches v p) ->
      forall i j, In (i, j) (jf_rows jf) -> corresponds v j ->
                  Producer j = Some "Unknown")) /\
  (forall i j, In (i, j) (jf_rows jf) -> Producer j <> None).
Proof.
  intros H P. pose proof (fun j => joined_rows_In ps nf jf j H P) as R.
  split.
  - intros v Iv. split.
    + pose proof (matches_dec v (producer_rows ps)) as C.
      destruct C as [[p [Ip M]] | N].
      * destruct (proj2 (R (fillna_Producer (of_viewing (pr_Producer p) v)))) as [i I].
        { exists (of_viewing (pr_Producer p) v). split; [| reflexivity].
          apply merge_outer_In. left. exists p, v. auto. }
        exists i, (fillna_Producer (of_viewing (pr_Producer p) v)).
        split; [exact I | apply corresponds_of_viewing].
      * destruct (proj2 (R (fillna_Producer (of_viewing None v)))) as [i I].
        { exists (of_viewing None v). split; [| reflexivity].
          apply merge_outer_In. right. left. exists v. auto. }
        exists i, (fillna_Producer (of_viewing None v)).
        split; [exact I | apply corresponds_of_viewing].
    + intros N i j I C.
      destruct (proj1 (R j) (ex_intro _ i I)) as [j0 [I0 ->]].
      destruct C as [Cp [_ [Ct _]]]. simpl in Cp, Ct.
      apply merge_outer_In in I0.
      destruct I0 as [[p [v' [Ip [_ [E ->]]]]] | [[v' [_ [_ ->]]] | [p [_ [_ ->]]]]].
      * simpl in Cp. destruct (N p Ip). unfold matches. congruence.
      * reflexivity.
      * simpl in Ct. discriminate.
  - intros i j I. destruct (proj1 (R j) (ex_intro _ i I)) as [j0 [_ ->]].
    simpl. destruct (Producer j0); discriminate.
Qed.

(* ================================================================== *)
(** ** The running totals of [cumsum] are the running sums of the
       specification *)

Lemma cumsum_ext (acc acc' : Running) (df : Indexed JoinedRecord) :
  (forall q, acc q = acc' q) -> cumsum acc df = cumsum acc' df.
Proof.
  revert acc acc'. induction df as [| [i r] df IH]; intros acc acc' E; simpl.
  - reflexivity.
  - destruct (Producer r) as [p |]; [destruct (Viewers r) as [v |] |].
    + rewrite (E p). f_equal. apply IH. intros q. unfold add_to.
      rewrite (E q). reflexivity.
    + f_equal. apply IH. exact E.
    + f_equal. apply IH. exact E.
Qed.

Lemma series_sum_app (l1 l2 : list (option Z)) :
  series_sum (l1 ++ l2) = series_sum l1 + series_sum l2.
Proof.
  induction l1 as [| [v |] l1 IH]; simpl; rewrite ?IH; lia.
Qed.

Lemma viewers_total_snoc (p : option string) (seen : Indexed JoinedRecord)
    (ir : nat * JoinedRecord) :
  viewers_total p (seen ++ [ir])
  = viewers_total p seen + (if producer_is p ir then viewers_or_zero ir else 0).
Proof.
  unfold viewers_total, values. rewrite filter_app, map_app, series_sum_app.
  f_equal. simpl. unfold viewers_or_zero.
  destruct (producer_is p ir); simpl; [| reflexivity].
  destruct (Viewers (snd ir)); lia.
Qed.

Lemma producer_is_same (p : string) (ir : nat * JoinedRecord) :
  producer_is (Some p) ir = true <-> Producer (snd ir) = Some p.
Proof.
  unfold producer_is. destruct (Producer (snd ir)) as [q |].
  - rewrite String.eqb_eq. split; congruence.
  - split; discriminate.
Qed.

Lemma cumsum_running_sums (seen df : Indexed JoinedRecord) :
  cumsum (fun q => viewers_total (Some q) seen) df
  = map cumulative_cell (running_sums seen df).
Proof.
  revert seen. induction df as [| [i r] df IH]; intros seen; simpl.
  - reflexivity.
  - rewrite <- IH. unfold cumulative_cell at 1. simpl.
    destruct (Producer r) as [p |] eqn:Ep; [destruct (Viewers r) as [v |] eqn:Ev |].
    + f_equal.
      * rewrite viewers_total_snoc.
        rewrite (proj2 (producer_is_same p (i, r)) Ep).
        unfold viewers_or_zero. simpl. rewrite Ev. reflexivity.
      * apply cumsum_ext. intros q. unfold add_to. rewrite viewers_total_snoc.
        unfold producer_is, viewers_or_zero. simpl. rewrite Ep, Ev.
        destruct (String.eqb q p); lia.
    + f_equal. apply cumsum_ext. intros q. rewrite viewers_total_snoc.
      destruct (producer_is (Some q) (i, r)); [| lia].
      unfold viewers_or_zero. simpl. rewrite Ev. lia.
    + f_equal. apply cumsum_ext. intros q. rewrite viewers_total_snoc.
      unfold producer_is. simpl. rewrite Ep. lia.
Qed.

Lemma cumsum_no_totals (df : Indexed JoinedRecord) :
  cumsum no_totals df = map cumulative_cell (running_sums [] df).
Proof.
  rewrite <- cumsum_running_sums. apply cumsum_ext. intros q. reflexivity.
Qed.

Lemma running_sums_rows (seen table : Indexed JoinedRecord) :
  map fst (running_sums seen table) = table.
Proof.
  revert seen. induction table as [| ir rest IH]; intros seen; simpl.
  - reflexivity.
  - rewrite IH. reflexivity.
Qed.

Lemma running_sums_In (seen table : Indexed JoinedRecord)
    (irt : nat * JoinedRecord * Z) :
  In irt (running_sums seen table) -> In (fst irt) table.
Proof.
  intros I. rewrite <- (running_sums_rows seen table). apply in_map. exact I.
Qed.

Lemma in_group_cell (k : GroupKey) (irt : nat * JoinedRecord * Z) :
  in_group cum_key k (cumulative_cell irt) = in_group group_key k (fst irt).
Proof. reflexivity. Qed.

Lemma group_key_viewers_cell (k : GroupKey) (irt : nat * JoinedRecord * Z) :
  group_key (snd (fst irt)) = Some k -> Viewers (snd (fst irt)) <> None ->
  snd (snd (cumulative_cell irt)) = Some (snd irt).
Proof.
  unfold cumulative_cell, group_key. simpl.
  destruct (Producer (snd (fst irt))); [| discriminate].
  destruct (Viewers (snd (fst irt))); [reflexivity | congruence].
Qed.

(** On a frame whose grouped rows all have their Viewers, the cells of a
    group under the new column are the running sums of the group. *)
Lemma group_cells (k : GroupKey) (seen table : Indexed JoinedRecord) :
  (forall ir, In ir table -> group_key (snd ir) <> None -> Viewers (snd ir) <> None) ->
  values snd (get_group cum_key k (map cumulative_cell (running_sums seen table)))
  = map Some
      (map snd (filter (fun irt => in_group group_key k (fst irt))
                  (running_sums seen table))).
Proof.
  intros V.
  assert (G : forall l, (forall irt, In irt l -> In (fst irt) table) ->
            values snd (get_group cum_key k (map cumulative_cell l))
            = map Some (map snd (filter (fun irt => in_group group_key k (fst irt)) l))).
  { unfold values, get_group.
    induction l as [| irt l IH]; intros Hl; cbn [map filter]; [reflexivity |].
    rewrite in_group_cell.
    destruct (in_group group_key k (fst irt)) eqn:E; cbn [map].
    - rewrite IH by (intros x I; apply Hl; right; exact I).
      apply in_group_true in E.
      rewrite (group_key_viewers_cell k irt E); [reflexivity |].
      apply V; [apply Hl; left; reflexivity | congruence].
    - apply IH. intros x I. apply Hl. right. exact I. }
  apply G. intros irt. apply running_sums_In.
Qed.

Lemma cumulative_of_running_sums (k : GroupKey) (df : Indexed JoinedRecord) :
  (forall ir, In ir df -> group_key (snd ir) <> None -> Viewers (snd ir) <> None) ->
  cumulative_of k df = series_max (map Some (group_running_sums k (sort_values df))).
Proof.
  intros V. unfold cumulative_of, group_running_sums.
  rewrite cumsum_no_totals, group_cells; [reflexivity |].
  intros ir I. apply V. apply (Permutation_in _ (sort_values_perm df)). exact I.
Qed.

Lemma series_max_maximum (l : list Z) :
  l <> [] -> exists m, series_max (map Some l) = Some m /\ is_maximum m l.
Proof.
  unfold is_maximum. induction l as [| x l IH]; [congruence |]. intros _.
  destruct l as [| y l].
  - exists x. simpl. repeat split; [left; reflexivity |].
    constructor; [lia | constructor].
  - destruct IH as [m [E [I F]]]; [discriminate |].
    exists (Z.max x m). cbn [map series_max] in E |- *. rewrite E.
    split; [reflexivity |]. split.
    + destruct (Z.max_spec x m) as [[_ ->] | [_ ->]];
        [right; exact I | left; reflexivity].
    + constructor; [lia |].
      eapply Forall_impl; [| exact F]. simpl. intros z Hz. lia.
Qed.

Lemma maximum_unique (m m' : Z) (l : list Z) :
  is_maximum m l -> is_maximum m' l -> m = m'.
Proof.
  intros [I F] [I' F']. rewrite Forall_forall in F, F'.
  pose proof (F _ I'). pose proof (F' _ I). lia.
Qed.

Lemma last_is_maximum (l : list Z) (d : Z) :
  l <> [] -> StronglySorted Z.le l -> is_maximum (last l d) l.
Proof.
  unfold is_maximum. induction l as [| x l IH]; [congruence |]. intros _ S.
  inversion S as [| ? ? Sl Fx]; subst.
  destruct l as [| y l].
  - simpl. split; [left; reflexivity | constructor; [lia | constructor]].
  - destruct IH as [I F]; [discriminate | exact Sl |].
    change (last (x :: y :: l) d) with (last (y :: l) d).
    split; [right; exact I |].
    constructor; [| exact F].
    rewrite Forall_forall in Fx. apply Fx. exact I.
Qed.

(** *** With no negative Viewers, running sums only grow *)

Lemma viewers_or_zero_nonneg (table : Indexed JoinedRecord) (ir : nat * JoinedRecord) :
  nonnegative table -> In ir table -> 0 <= viewers_or_zero ir.
Proof.
  intros N I. unfold viewers_or_zero.
  destruct (Viewers (snd ir)) as [v |] eqn:E; [exact (N ir v I E) | lia].
Qed.

Lemma group_sums_grow (k : GroupKey) (seen table : Indexed JoinedRecord) :
  nonnegative table ->
  StronglySorted Z.le (group_sums_from k seen table) /\
  Forall (fun t => viewers_total (Some (fst k)) seen <= t)
    (group_sums_from k seen table).
Proof.
  unfold group_sums_from.
  revert seen. induction table as [| ir rest IH]; intros seen N;
    cbn [running_sums filter map].
  - split; constructor.
  - destruct (IH (seen ++ [ir])) as [S F].
    { intros x v I. apply N. right. exact I. }
    assert (G : viewers_total (Some (fst k)) seen
                <= viewers_total (Some (fst k)) (seen ++ [ir])).
    { rewrite viewers_total_snoc.
      pose proof (viewers_or_zero_nonneg _ ir N (or_introl eq_refl)).
      destruct (producer_is (Some (fst k)) ir); lia. }
    assert (F' : Forall (fun t => viewers_total (Some (fst k)) seen <= t)
                   (map snd (filter (fun irt => in_group group_key k (fst irt))
                               (running_sums (seen ++ [ir]) rest)))).
    { eapply Forall_impl; [| exact F]. simpl. intros t Ht. lia. }
    cbn [fst]. destruct (in_group group_key k ir) eqn:E; cbn [map snd].
    + apply in_group_true in E.
      assert (P : Producer (snd ir) = Some (fst k)).
      { unfold group_key in E.
        destruct (Producer (snd ir)), (Month (snd ir)), (Channel (snd ir));
          try discriminate. injection E as <-. reflexivity. }
      rewrite P. split.
      * constructor; [exact S | exact F].
      * constructor; [exact G | exact F'].
    + split; [exact S | exact F'].
Qed.

Lemma group_sums_nil (k : GroupKey) (table : Indexed JoinedRecord) :
  group_running_sums k table = [] -> get_group group_key k table = [].
Proof.
  unfold group_running_sums, get_group. intros E.
  apply filter_none. intros ir I.
  destruct (in_group group_key k ir) eqn:G; [| reflexivity].
  rewrite <- (running_sums_rows [] table) in I.
  apply in_map_iff in I. destruct I as [irt [<- I]].
  assert (I' : In (snd irt)
                 (map snd (filter (fun irt => in_group group_key k (fst irt))
                             (running_sums [] table)))).
  { apply in_map, filter_In. split; [exact I | exact G]. }
  rewrite E in I'. destruct I'.
Qed.

(* ================================================================== *)
(** ** The rows the aggregation receives *)

Lemma joined_row_origin (df : ViewingSheet) (ps : ProducerSheet)
    (nf : NormalizedFrame) (jf : JoinedFrame) (i : nat) (r : JoinedRecord) :
  preprocess_data df = Ok nf -> merge_data ps nf = Ok jf ->
  has_pr_Producer ps = true ->
  In (i, r) (jf_rows jf) ->
  (exists raw prod, In raw (viewing_rows df) /\
     r = fillna_Producer (of_viewing prod (preprocess_row (has_Viewers df) raw))) \/
  (exists p, r = fillna_Producer (of_producer p)).
Proof.
  intros Hp Hm P I.
  destruct (proj1 (joined_rows_In ps nf jf r Hm P) (ex_intro _ i I)) as [j0 [I0 ->]].
  apply preprocess_data_ok in Hp. destruct Hp as [_ [_ [_ [_ ->]]]].
  simpl in I0. apply merge_outer_In in I0.
  destruct I0 as [[p [v [_ [Iv [_ ->]]]]] | [[v [Iv [_ ->]]] | [p [_ [_ ->]]]]].
  - apply in_map_iff in Iv. destruct Iv as [raw [<- Iraw]].
    left. exists raw, (pr_Producer p). split; [exact Iraw | reflexivity].
  - apply in_map_iff in Iv. destruct Iv as [raw [<- Iraw]].
    left. exists raw, None. split; [exact Iraw | reflexivity].
  - right. exists p. reflexivity.
Qed.

(** A row that falls in a group has its Viewers: the viewing rows were
    filled, the producer-only rows have no Month. *)
Lemma grouped_rows_have_viewers (df : ViewingSheet) (ps : ProducerSheet)
    (nf : NormalizedFrame) (jf : JoinedFrame) :
  preprocess_data df = Ok nf -> merge_data ps nf = Ok jf ->
  has_pr_Producer ps = true -> has_Viewers df = true ->
  forall ir, In ir (jf_rows jf) -> group_key (snd ir) <> None ->
             Viewers (snd ir) <> None.
Proof.
  intros Hp Hm P V [i r] I K. simpl in *.
  destruct (joined_row_origin df ps nf jf i r Hp Hm P I)
    as [[raw [prod [_ ->]]] | [p ->]].
  - simpl. rewrite V. destruct (vr_Viewers raw); discriminate.
  - unfold group_key in K. simpl in K. destruct (fillna "Unknown" (pr_Producer p)); congruence.
Qed.

Lemma joined_rows_nonnegative (df : ViewingSheet) (ps : ProducerSheet)
    (nf : NormalizedFrame) (jf : JoinedFrame) :
  preprocess_data df = Ok nf -> merge_data ps nf = Ok jf ->
  has_pr_Producer ps = true ->
  viewers_are_counts df -> nonnegative (jf_rows jf).
Proof.
  intros Hp Hm P C [i r] v I E. simpl in *.
  unfold viewers_are_counts in C. rewrite Forall_forall in C.
  destruct (joined_row_origin df ps nf jf i r Hp Hm P I)
    as [[raw [prod [Iraw ->]]] | [p ->]].
  - simpl in E. specialize (C raw Iraw).
    destruct (has_Viewers df), (vr_Viewers raw) as [z |]; simpl in E;
      try discriminate; injection E as <-; try lia; apply C; reflexivity.
  - discriminate.
Qed.

Lemma pipeline_flags (df : ViewingSheet) (ps : ProducerSheet)
    (nf : NormalizedFrame) (jf : JoinedFrame) (summary : list SummaryRow) :
  preprocess_data df = Ok nf -> merge_data ps nf = Ok jf ->
  aggregate_data jf = Ok summary ->
  has_pr_Producer ps = true /\ has_Channel df = true /\ has_Viewers df = true.
Proof.
  intros Hp Hm Ha. apply aggregate_data_flags in Ha.
  apply merge_data_ok in Hm. destruct Hm as [_ ->].
  apply preprocess_data_ok in Hp. destruct Hp as [_ [_ [_ [_ ->]]]].
  exact Ha.
Qed.

Lemma joined_frame_of_ok (wb : Workbook) (jf : JoinedFrame) :
  joined_frame_of wb = Ok jf ->
  exists nf, preprocess_data (sheet_viewing wb) = Ok nf /\
             merge_data (sheet_producers wb) nf = Ok jf.
Proof.
  unfold joined_frame_of, load_data. simpl.
  destruct (preprocess_data (sheet_viewing wb)) as [nf | e]; simpl; [| discriminate].
  intros H. exists nf. split; [reflexivity | exact H].
Qed.

Lemma summary_of_ok (wb : Workbook) (summary : list SummaryRow) :
  summary_of wb = Ok summary ->
  exists jf, joined_frame_of wb = Ok jf /\ aggregate_data jf = Ok summary.
Proof.
  unfold summary_of.
  destruct (joined_frame_of wb) as [jf | e]; simpl; [| discriminate].
  intros H. exists jf. split; [reflexivity | exact H].
Qed.

(** The facts the aggregation may rely on, for a workbook it accepted. *)
Lemma aggregated_frame (wb : Workbook) (jf : JoinedFrame)
    (summary : list SummaryRow) :
  joined_frame_of wb = Ok jf -> aggregate_data jf = Ok summary ->
  summary = aggregate_rows (jf_rows jf) /\
  (forall ir, In ir (jf_rows jf) -> group_key (snd ir) <> None ->
              Viewers (snd ir) <> None) /\
  (viewers_are_counts (sheet_viewing wb) -> nonnegative (jf_rows jf)).
Proof.
  intros Hj Ha. destruct (joined_frame_of_ok wb jf Hj) as [nf [Hp Hm]].
  destruct (pipeline_flags _ _ _ _ _ Hp Hm Ha) as [P [_ V]].
  split; [apply aggregate_data_rows; exact Ha |]. split.
  - exact (grouped_rows_have_viewers _ _ _ _ Hp Hm P V).
  - exact (joined_rows_nonnegative _ _ _ _ Hp Hm P).
Qed.

Lemma group_running_sums_nonempty (k : GroupKey) (df : Indexed JoinedRecord) :
  In k (group_keys group_key df) -> group_running_sums k (sort_values df) <> [].
Proof.
  intros I E. apply group_sums_nil in E.
  apply group_keys_In in I. destruct I as [ir [I K]].
  assert (I' : In ir (get_group group_key k (sort_values df))).
  { apply get_group_In. split; [| exact K].
    apply (Permutation_in _ (Permutation_sym (sort_values_perm df))). exact I. }
  rewrite E in I'. exact I'.
Qed.

Lemma nonnegative_sorted (df : Indexed JoinedRecord) :
  nonnegative df -> nonnegative (sort_values df).
Proof.
  intros N ir v I. apply N.
  apply (Permutation_in _ (sort_values_perm df)). exact I.
Qed.

Lemma cumulative_maximum (wb : Workbook) (jf : JoinedFrame)
    (summary : list SummaryRow) (s : SummaryRow) :
  joined_frame_of wb = Ok jf ->
  aggregate_data jf = Ok summary ->
  In s summary ->
  let sums := group_running_sums (summary_key s) (sort_values (jf_rows jf)) in
  (exists m, Cumulative_Viewers s = Some m /\ is_maximum m sums) /\
  (viewers_are_counts (sheet_viewing wb) ->
   Cumulative_Viewers s = Some (last sums 0)).
Proof.
  intros Hj Ha Is sums.
  destruct (aggregated_frame wb jf summary Hj Ha) as [-> [V N]].
  apply aggregate_rows_In in Is. destruct Is as [Ik Es].
  assert (Ec : Cumulative_Viewers s = series_max (map Some sums)).
  { rewrite Es at 1. rewrite cumulative_row.
    apply cumulative_of_running_sums. exact V. }
  pose proof (group_running_sums_nonempty _ _ Ik) as NE.
  destruct (series_max_maximum sums NE) as [m [Em Mm]].
  split.
  - exists m. split; [congruence | exact Mm].
  - intros C. rewrite Ec, Em. f_equal.
    apply (maximum_unique m (last sums 0) sums Mm).
    apply last_is_maximum; [exact NE |].
    apply (group_sums_grow (summary_key s) [] (sort_values (jf_rows jf))).
    apply nonnegative_sorted, N, C.
Qed.

(** C2 (amended). For a joined table whose numbers are within the exact
    range: the table is sorted ascending by (Producer, Month, Channel,
    Date), nulls last; a running sum of Viewers is kept per Producer only
    over that order; the Cumulative_Viewers of a record is the greatest
    running-sum value on the rows of its group; and when no Viewers cell is
    negative this is the running sum on the last row of the group. *)
Theorem C2_cumulative_is_group_maximum (wb : Workbook) (jf : JoinedFrame)
    (summary : list SummaryRow) :
  joined_frame_of wb = Ok jf ->
  aggregate_data jf = Ok summary ->
  exact_numbers (jf_rows jf) ->
  let sorted := sort_values (jf_rows jf) in
  Permutation sorted (jf_rows jf) /\
  StronglySorted row_le sorted /\
  forall s, In s summary ->
    let sums := group_running_sums (summary_key s) sorted in
    (exists m, Cumulative_Viewers s = Some m /\ is_maximum m sums) /\
    (viewers_are_counts (sheet_viewing wb) ->
     Cumulative_Viewers s = Some (last sums 0)).
Proof.
  intros Hj Ha _ sorted.
  split; [apply sort_values_perm |]. split; [apply sort_values_sorted |].
  intros s Is. exact (cumulative_maximum wb jf summary s Hj Ha Is).
Qed.

Lemma counts_mixed : viewers_are_counts (sheet_viewing wb_mixed).
Proof.
  unfold viewers_are_counts. simpl.
  repeat (apply Forall_cons;
          [simpl; intros v E; try discriminate; injection E as <-; lia |]).
  apply Forall_nil.
Qed.

Lemma C2_cumulative_is_group_maximum_witness :
  joined_frame_of wb_mixed = Ok jf_mixed /\
  aggregate_data jf_mixed = Ok summary_mixed /\
  exact_numbers (jf_rows jf_mixed) /\
  viewers_are_counts (sheet_viewing wb_mixed) /\
  forall s, In s summary_mixed ->
    Cumulative_Viewers s
    = Some (last (group_running_sums (summary_key s)
                    (sort_values (jf_rows jf_mixed))) 0).
Proof.
  split; [reflexivity |]. split; [reflexivity |]. split; [reflexivity |].
  split; [exact counts_mixed |].
  intros s Is.
  exact (proj2 (proj2 (proj2
           (C2_cumulative_is_group_maximum wb_mixed jf_mixed summary_mixed
              eq_refl eq_refl eq_refl)) s Is) counts_mixed).
Defined.

(** C2 as stated fails where a Viewers cell is negative, the numbers being
    within the exact range: the group of [wb_negative_later] has running
    sums 5 then 2; Cumulative_Viewers is their maximum 5, not the running
    sum 2 of the last row. *)
Lemma C2_counterexample :
  exists jf s,
    joined_frame_of wb_negative_later = Ok jf /\
    exact_numbers (jf_rows jf) /\
    aggregate_data jf = Ok [s] /\
    group_running_sums (summary_key s) (sort_values (jf_rows jf)) = [5; 2] /\
    Cumulative_Viewers s = Some 5 /\
    Cumulative_Viewers s
    <> Some (last (group_running_sums (summary_key s) (sort_values (jf_rows jf))) 0).
Proof.
  eexists. eexists. split; [vm_compute; reflexivity |].
  split; [vm_compute; reflexivity |].
  split; [vm_compute; reflexivity |].
  split; [vm_compute; reflexivity |].
  split; [reflexivity |]. vm_compute. discriminate.
Qed.

(* ================================================================== *)
(** ** Across the groups of a Producer *)

(** Rows of an earlier group sort before rows of a later one. *)
Lemma group_order_rows (i i' : nat) (r r' : JoinedRecord) (k k' : GroupKey) :
  group_key r = Some k -> group_key r' = Some k' -> group_cmp k k' = Lt ->
  row_cmp (i, r) (i', r') = Lt.
Proof.
  unfold group_key, row_cmp, on_key, sort_key, sort_cmp, group_cmp, pair_cmp.
  simpl.
  destruct (Producer r) as [p |], (Month r) as [m |], (Channel r) as [c |];
    try discriminate.
  destruct (Producer r') as [p' |], (Month r') as [m' |], (Channel r') as [c' |];
    try discriminate.
  intros [= <-] [= <-]. simpl.
  destruct (str_cmp p p'); simpl; try congruence.
  destruct (period_cmp m m'); simpl; try congruence.
  destruct (c ?= c'); simpl; congruence.
Qed.

Lemma group_sums_from_In (k : GroupKey) (seen table : Indexed JoinedRecord) (t : Z) :
  In t (group_sums_from k seen table) ->
  exists ir, In ir table /\ group_key (snd ir) = Some k.
Proof.
  unfold group_sums_from. rewrite in_map_iff.
  intros [irt [_ I]]. apply filter_In in I. destruct I as [I G].
  exists (fst irt). split; [exact (running_sums_In _ _ _ I) |].
  apply in_group_true. exact G.
Qed.

Lemma group_key_producer (r : JoinedRecord) (k : GroupKey) :
  group_key r = Some k -> Producer r = Some (fst k).
Proof.
  unfold group_key. destruct (Producer r), (Month r), (Channel r);
    try discriminate. intros [= <-]. reflexivity.
Qed.

Lemma cross_group_sums (k1 k2 : GroupKey) (seen table : Indexed JoinedRecord) :
  StronglySorted row_le table -> nonnegative table ->
  fst k1 = fst k2 -> group_cmp k1 k2 = Lt ->
  forall t1 t2, In t1 (group_sums_from k1 seen table) ->
                In t2 (group_sums_from k2 seen table) -> t1 <= t2.
Proof.
  intros S N P L. revert seen.
  induction S as [| ir rest Srest IH Fir]; intros seen t1 t2.
  - intros [].
  - assert (Nrest : nonnegative rest).
    { intros x v I. apply N. right. exact I. }
    unfold group_sums_from. cbn [running_sums filter fst].
    fold (group_sums_from k1 (seen ++ [ir]) rest).
    destruct (in_group group_key k1 ir) eqn:G1;
      destruct (in_group group_key k2 ir) eqn:G2; cbn [map snd].
    + apply in_group_true in G1, G2. rewrite G1 in G2. injection G2 as ->.
      rewrite (cmp_refl group_cmp) in L. discriminate.
    + fold (group_sums_from k2 (seen ++ [ir]) rest).
      intros [<- | I1] I2.
      * apply in_group_true in G1. rewrite (group_key_producer _ _ G1), P.
        destruct (group_sums_grow k2 (seen ++ [ir]) rest Nrest) as [_ F].
        rewrite Forall_forall in F. apply F. exact I2.
      * apply (IH Nrest (seen ++ [ir])); assumption.
    + fold (group_sums_from k2 (seen ++ [ir]) rest).
      intros I1 [<- | I2].
      * exfalso. apply in_group_true in G2.
        destruct (group_sums_from_In _ _ _ _ I1) as [[i' r'] [I' K']].
        rewrite Forall_forall in Fir. specialize (Fir _ I').
        destruct ir as [i r]. simpl in *.
        pose proof (group_order_rows i' i r' r k1 k2 K' G2 L) as C.
        apply (cmp_gt_lt sort_cmp) in C.
        unfold row_le, le, leb_of in Fir. unfold row_cmp, on_key in Fir, C.
        simpl in Fir, C. rewrite C in Fir. discriminate.
      * apply (IH Nrest (seen ++ [ir])); assumption.
    + fold (group_sums_from k2 (seen ++ [ir]) rest).
      apply (IH Nrest (seen ++ [ir])).
Qed.

(** C6 (amended). When no Viewers cell is negative and the numbers of the
    joined table are within the exact range: for two records of one
    Producer, the one whose (Month, Channel) comes first in the sort order
    has the smaller or equal Cumulative_Viewers. *)
Theorem C6_cumulative_monotone (wb : Workbook) (jf : JoinedFrame)
    (summary : list SummaryRow) :
  joined_frame_of wb = Ok jf ->
  aggregate_data jf = Ok summary ->
  exact_numbers (jf_rows jf) ->
  viewers_are_counts (sheet_viewing wb) ->
  forall s1 s2, In s1 summary -> In s2 summary ->
    s_Producer s1 = s_Producer s2 ->
    le (pair_cmp period_cmp Z.compare)
       (s_Month s1, s_Channel s1) (s_Month s2, s_Channel s2) ->
    exists c1 c2, Cumulative_Viewers s1 = Some c1 /\
                  Cumulative_Viewers s2 = Some c2 /\ c1 <= c2.
Proof.
  intros Hj Ha _ C s1 s2 I1 I2 P Lmc.
  destruct (proj1 (cumulative_maximum wb jf summary s1 Hj Ha I1)) as [c1 [E1 [In1 _]]].
  destruct (proj1 (cumulative_maximum wb jf summary s2 Hj Ha I2)) as [c2 [E2 [In2 F2]]].
  exists c1, c2. split; [exact E1 |]. split; [exact E2 |].
  destruct (aggregated_frame wb jf summary Hj Ha) as [Es [_ N]].
  assert (Lk : group_cmp (summary_key s1) (summary_key s2) <> Gt).
  { unfold le, leb_of in Lmc. unfold group_cmp, summary_key, pair_cmp at 1.
    cbn [fst snd]. rewrite P, (cmp_refl str_cmp). simpl.
    destruct (pair_cmp period_cmp Z.compare (s_Month s1, s_Channel s1)
                (s_Month s2, s_Channel s2)); congruence. }
  destruct (group_cmp (summary_key s1) (summary_key s2)) eqn:Ek; [| | congruence].
  - apply (cmp_eq group_cmp) in Ek. subst summary.
    apply aggregate_rows_In in I1, I2. destruct I1 as [_ R1], I2 as [_ R2].
    assert (s1 = s2) by (rewrite R1, R2, Ek; reflexivity). subst s2.
    assert (c1 = c2) by congruence. lia.
  - apply (cross_group_sums (summary_key s1) (summary_key s2) []
             (sort_values (jf_rows jf))); try assumption.
    + apply sort_values_sorted.
    + apply nonnegative_sorted, N, C.
Qed.

Lemma C6_cumulative_monotone_witness :
  joined_frame_of wb_mixed = Ok jf_mixed /\
  aggregate_data jf_mixed = Ok summary_mixed /\
  exact_numbers (jf_rows jf_mixed) /\
  viewers_are_counts (sheet_viewing wb_mixed) /\
  forall s1 s2, In s1 summary_mixed -> In s2 summary_mixed ->
    s_Producer s1 = s_Producer s2 ->
    le (pair_cmp period_cmp Z.compare)
       (s_Month s1, s_Channel s1) (s_Month s2, s_Channel s2) ->
    exists c1 c2, Cumulative_Viewers s1 = Some c1 /\
                  Cumulative_Viewers s2 = Some c2 /\ c1 <= c2.
Proof.
  split; [reflexivity |]. split; [reflexivity |]. split; [reflexivity |].
  split; [exact counts_mixed |].
  exact (C6_cumulative_monotone wb_mixed jf_mixed summary_mixed
           eq_refl eq_refl eq_refl counts_mixed).
Defined.

(** C6 as stated fails where a Viewers cell is negative: in
    [wb_negative_month] the records of "Acme" for 2024-01 and 2024-02 have
    Cumulative_Viewers 10 and then 5. *)
Lemma C6_counterexample :
  exists s1 s2,
    exact_workbook wb_negative_month /\
    summary_of wb_negative_month = Ok [s1; s2] /\
    s_Producer s1 = s_Producer s2 /\
    lt (pair_cmp period_cmp Z.compare)
       (s_Month s1, s_Channel s1) (s_Month s2, s_Channel s2) /\
    Cumulative_Viewers s1 = Some 10 /\ Cumulative_Viewers s2 = Some 5.
Proof.
  eexists. eexists. split; [vm_compute; reflexivity |].
  split; [vm_compute; reflexivity |].
  repeat split.
Qed.

(* ================================================================== *)
(** ** One record per group *)

Lemma filter_summary_key (k : GroupKey) (df : Indexed JoinedRecord) :
  In k (group_keys group_key df) ->
  filter (fun s => eqb_of group_cmp (summary_key s) k) (aggregate_rows df)
  = [summary_row (k, (peak_and_sum (get_group group_key k df), cumulative_of k df))].
Proof.
  intros I. unfold aggregate_rows.
  assert (E : forall (f : GroupKey -> SummaryRow) (ks : list GroupKey),
            (forall k', summary_key (f k') = k') ->
            filter (fun s => eqb_of group_cmp (summary_key s) k) (map f ks)
            = map f (filter (fun k' => eqb_of group_cmp k' k) ks)).
  { intros f ks Hf. induction ks as [| h t IH]; simpl; [reflexivity |].
    rewrite Hf. destruct (eqb_of group_cmp h k); simpl; rewrite IH; reflexivity. }
  rewrite E by (intros k'; apply summary_key_row).
  rewrite (filter_key_singleton k _ (group_keys_NoDup group_key df) I).
  reflexivity.
Qed.

(** C5 (amended). For every key combination of the joined data whose
    Producer, Month and Channel are all non-null, the summary has exactly
    one record with that key; no two records share a key; and every record
    has the key of some joined row. *)
Theorem C5_one_record_per_group (jf : JoinedFrame) (summary : list SummaryRow) :
  aggregate_data jf = Ok summary ->
  (forall k, (exists ir, In ir (jf_rows jf) /\ group_key (snd ir) = Some k) ->
     exists s, summary_key s = k /\
               filter (fun s' => eqb_of group_cmp (summary_key s') k) summary = [s]) /\
  NoDup (map summary_key summary) /\
  (forall s, In s summary ->
     exists ir, In ir (jf_rows jf) /\ group_key (snd ir) = Some (summary_key s)).
Proof.
  intros Ha. apply aggregate_data_rows in Ha. subst summary.
  split; [| split].
  - intros k Hk. apply group_keys_In in Hk.
    eexists. split; [| apply filter_summary_key; exact Hk].
    apply summary_key_row.
  - rewrite aggregate_rows_keys. apply group_keys_NoDup.
  - intros s Is. apply (group_keys_In group_key).
    rewrite <- aggregate_rows_keys. apply in_map. exact Is.
Qed.

Lemma C5_one_record_per_group_witness :
  aggregate_data jf_mixed = Ok summary_mixed /\
  NoDup (map summary_key summary_mixed).
Proof.
  split; [reflexivity |].
  exact (proj1 (proj2 (C5_one_record_per_group jf_mixed summary_mixed eq_refl))).
Defined.

(** C5 as stated fails on a key combination with a null: the joined data
    of [wb_unparseable_date] has the combinations ("Acme", 2024-01, 101)
    and ("Acme", null, 101), and the summary has the one record of the
    first. *)
Lemma C5_counterexample :
  exists jf i r s,
    joined_frame_of wb_unparseable_date = Ok jf /\
    In (i, r) (jf_rows jf) /\
    Producer r = Some "Acme" /\ Month r = None /\ Channel r = Some 101 /\
    aggregate_data jf = Ok [s] /\
    summary_key s = ("Acme", ({| p_year := 2024; p_month := 1 |}, 101)).
Proof.
  do 4 eexists. split; [vm_compute; reflexivity |].
  split; [right; left; reflexivity |].
  split; [reflexivity |]. split; [reflexivity |]. split; [reflexivity |].
  split; [vm_compute; reflexivity | reflexivity].
Qed.

(* ================================================================== *)
(** ** Rows outside every group *)

Section FilterGroups.
Context {A : Type} (key : A -> option GroupKey) (keep : nat * A -> bool).

Lemma group_keys_filter (df : Indexed A) :
(forall ir, In ir df -> keep ir = false -> key (snd ir) = None) ->
group_keys key (filter keep df) = group_keys key df.
Proof.
intros H. unfold group_keys. f_equal.
induction df as [| ir df IH]; simpl; [reflexivity |].
assert (IH' : dropna (map (fun ir => key (snd ir)) (filter keep df))
              = dropna (map (fun ir => key (snd ir)) df)).
{ apply IH. intros x I. apply H. right. exact I. }
destruct (keep ir) eqn:K; simpl.
- rewrite IH'. reflexivity.
- rewrite (H ir (or_introl eq_refl) K). exact IH'.
Qed.

Lemma get_group_filter (k : GroupKey) (df : Indexed A) :
(forall ir, In ir df -> keep ir = false -> key (snd ir) = None) ->
get_group key k (filter keep df) = get_group key k df.
Proof.
intros H. unfold get_group.
induction df as [| ir df IH]; simpl; [reflexivity |].
assert (IH' : filter (in_group key k) (filter keep df)
              = filter (in_group key k) df).
{ apply IH. intros x I. apply H. right. exact I. }
destruct (keep ir) eqn:K; simpl.
- rewrite IH'. reflexivity.
- unfold in_group at 2. rewrite (H ir (or_introl eq_refl) K). exact IH'.
Qed.
End FilterGroups.

(** [cumsum] reads the running totals only at the Producers of its rows. *)
Lemma cumsum_ext_on (acc acc' : Running) (df : Indexed JoinedRecord) :
  (forall ir q, In ir df -> Producer (snd ir) = Some q -> acc q = acc' q) ->
  cumsum acc df = cumsum acc' df.
Proof.
  revert acc acc'. induction df as [| [i r] df IH]; intros acc acc' E; simpl.
  - reflexivity.
  - assert (Erest : forall ir q, In ir df -> Producer (snd ir) = Some q ->
                                 acc q = acc' q).
    { intros ir q I. apply E. right. exact I. }
    destruct (Producer r) as [p |] eqn:Ep; [destruct (Viewers r) as [v |] |].
    + rewrite (E (i, r) p (or_introl eq_refl) Ep). f_equal.
      apply IH. intros ir q I Eq. unfold add_to.
      rewrite (Erest ir q I Eq). reflexivity.
    + f_equal. apply IH. exact Erest.
    + f_equal. apply IH. exact Erest.
Qed.

(** In the sorted frame a row without Month is followed, among the rows of
    its Producer, only by rows without Month. *)
Lemma null_month_sorts_last (ir ir' : nat * JoinedRecord) (p : string) :
  row_le ir ir' -> Producer (snd ir) = Some p -> Producer (snd ir') = Some p ->
  Month (snd ir) = None -> Month (snd ir') = None.
Proof.
  unfold row_le, le, leb_of, row_cmp, on_key, sort_key, sort_cmp, pair_cmp.
  simpl. intros L P P' M. rewrite P, P', M in L. simpl in L.
  rewrite (cmp_refl str_cmp) in L. simpl in L.
  destruct (Month (snd ir')); [discriminate | reflexivity].
Qed.

Lemma cumsum_select_month (acc : Running) (df : Indexed JoinedRecord) :
  StronglySorted row_le df ->
  filter (fun irc => has_Month (fst (snd irc))) (cumsum acc df)
  = cumsum acc (filter (fun ir => has_Month (snd ir)) df).
Proof.
  intros S. revert acc. induction S as [| [i r] rest Srest IH Fir]; intros acc.
  - reflexivity.
  - cbn [cumsum filter snd].
    destruct (has_Month r) eqn:M.
    + cbn [cumsum].
      destruct (Producer r) as [p |]; [destruct (Viewers r) as [v |] |];
        cbn [filter snd fst]; rewrite M, IH; reflexivity.
    + assert (E : forall acc', 
                (forall q, Producer r <> Some q -> acc' q = acc q) ->
                filter (fun irc => has_Month (fst (snd irc))) (cumsum acc' rest)
                = cumsum acc (filter (fun ir => has_Month (snd ir)) rest)).
      { intros acc' Hacc. rewrite IH. apply cumsum_ext_on.
        intros ir q I Eq. apply Hacc. intros Ep.
        apply filter_In in I. destruct I as [I HM].
        rewrite Forall_forall in Fir. specialize (Fir ir I).
        unfold has_Month, notnull in M, HM.
        rewrite (null_month_sorts_last (i, r) ir q Fir Ep Eq) in HM.
        - discriminate.
        - simpl. destruct (Month r); [discriminate | reflexivity]. }
      destruct (Producer r) as [p |] eqn:Ep; [destruct (Viewers r) as [v |] |];
        cbn [filter snd fst]; rewrite M; apply E.
      * intros q Hq. unfold add_to.
        destruct (String.eqb_spec q p) as [-> | _]; [congruence | reflexivity].
      * reflexivity.
      * reflexivity.
Qed.

Lemma cumulative_of_select_month (k : GroupKey) (df : Indexed JoinedRecord) :
  cumulative_of k (filter (fun ir => has_Month (snd ir)) df) = cumulative_of k df.
Proof.
  unfold cumulative_of. rewrite <- sort_values_filter.
  rewrite <- cumsum_select_month by apply sort_values_sorted.
  rewrite get_group_filter; [reflexivity |].
  intros [i [r c]] _. unfold has_Month, notnull, cum_key, group_key. simpl.
  destruct (Month r); [discriminate |]. destruct (Producer r); reflexivity.
Qed.

Lemma no_key_no_group (keep : JoinedRecord -> bool) :
  (forall r, keep r = false -> group_key r = None) ->
  forall (df : Indexed JoinedRecord) (ir : nat * JoinedRecord),
    In ir df -> keep (snd ir) = false -> group_key (snd ir) = None.
Proof. intros H df ir _. apply H. Qed.

Lemma has_Month_group (r : JoinedRecord) : has_Month r = false -> group_key r = None.
Proof.
  unfold has_Month, notnull, group_key.
  destruct (Month r); [discriminate |]. destruct (Producer r); reflexivity.
Qed.

Lemma has_group_key_group (r : JoinedRecord) :
  has_group_key r = false -> group_key r = None.
Proof.
  unfold has_group_key, notnull. destruct (group_key r); [discriminate | reflexivity].
Qed.

Lemma aggregate_rows_select_month (df : Indexed JoinedRecord) :
  aggregate_rows (filter (fun ir => has_Month (snd ir)) df) = aggregate_rows df.
Proof.
  unfold aggregate_rows.
  rewrite group_keys_filter by (apply no_key_no_group, has_Month_group).
  apply map_ext. intros k.
  rewrite get_group_filter by (apply no_key_no_group, has_Month_group).
  rewrite cumulative_of_select_month. reflexivity.
Qed.

Lemma peak_fields_select (keep : JoinedRecord -> bool) (df : Indexed JoinedRecord) :
  (forall r, keep r = false -> group_key r = None) ->
  map peak_fields (aggregate_rows (filter (fun ir => keep (snd ir)) df))
  = map peak_fields (aggregate_rows df).
Proof.
  intros H. unfold aggregate_rows. rewrite !map_map.
  rewrite group_keys_filter by (apply no_key_no_group, H).
  apply map_ext. intros k.
  rewrite get_group_filter by (apply no_key_no_group, H).
  destruct k as [p [m c]]. reflexivity.
Qed.

Lemma aggregate_data_select (keep : JoinedRecord -> bool) (jf : JoinedFrame) :
  aggregate_data (select keep jf)
  = result_map (fun _ => aggregate_rows (jf_rows (select keep jf)))
      (aggregate_data jf).
Proof.
  unfold aggregate_data, require_column, select. simpl.
  destruct (jf_has_Producer jf), (jf_has_Channel jf), (jf_has_Viewers jf);
    simpl; try reflexivity.
  rewrite merge_aggregates. reflexivity.
Qed.

(** C9 (amended). A joined row with a null Month contributes to no record:
    with all such rows left out the summary is the same.  A joined row with
    a null in any key column (a null Channel too) is in no group: with all
    such rows left out, the keys, Top_Programme, Highest_Viewers and
    Sum_of_Viewers of the records are the same.  (Cumulative_Viewers is left
    out of the second part: see [C9_counterexample].) *)
Theorem C9_null_key_rows_excluded (jf : JoinedFrame) :
  aggregate_data (select has_Month jf) = aggregate_data jf /\
  result_map (map peak_fields) (aggregate_data (select has_group_key jf))
  = result_map (map peak_fields) (aggregate_data jf).
Proof.
  rewrite !aggregate_data_select.
  destruct (aggregate_data jf) as [summary |] eqn:Ha; simpl; [| split; reflexivity].
  apply aggregate_data_rows in Ha. subst summary. split.
  - rewrite aggregate_rows_select_month. reflexivity.
  - rewrite (peak_fields_select has_group_key) by apply has_group_key_group.
    reflexivity.
Qed.

(** C9 as stated fails for a null Channel: the January row of
    [wb_null_channel] has no Channel, and its 7 viewers are in the
    Cumulative_Viewers 10 of the February record; without the row that
    record has 3. *)
Lemma C9_counterexample :
  exists jf i r s s',
    joined_frame_of wb_null_channel = Ok jf /\
    In (i, r) (jf_rows jf) /\ Channel r = None /\ Viewers r = Some 7 /\
    aggregate_data jf = Ok [s] /\ Cumulative_Viewers s = Some 10 /\
    aggregate_data (select has_Channel_cell jf) = Ok [s'] /\
    Cumulative_Viewers s' = Some 3.
Proof.
  do 5 eexists. split; [vm_compute; reflexivity |].
  split; [left; reflexivity |].
  split; [reflexivity |]. split; [reflexivity |].
  split; [vm_compute; reflexivity |]. split; [reflexivity |].
  split; [vm_compute; reflexivity |]. reflexivity.
Qed.

(* ================================================================== *)
(** ** Missing columns *)

Lemma process_raises (wb : Workbook) (file : File) (e : Exception) :
  final_summary_of wb = Raise e <->
  process_and_save_data wb file = (file, Raise e).
Proof.
  unfold process_and_save_data, save_summary_to_json.
  destruct (final_summary_of wb) as [final | e']; split; intros H;
    try discriminate; try congruence.
Qed.

Lemma no_viewers_column_raises (wb : Workbook) :
  viewing_rows (sheet_viewing wb) <> [] ->
  Programme_is_text (sheet_viewing wb) = true ->
  Territory_is_text (sheet_viewing wb) = true ->
  pr_Programme_is_text (sheet_producers wb) = true ->
  has_Viewers (sheet_viewing wb) = false ->
  exists c, final_summary_of wb = Raise (KeyError c).
Proof.
  intros R TP TT TPP V.
  unfold final_summary_of, summary_of, joined_frame_of, load_data.
  cbn [bind fst snd]. rewrite preprocess_data_cases, TP, TT.
  destruct (has_Date (sheet_viewing wb)); cbn [negb bind]; [| eauto].
  destruct (viewing_rows (sheet_viewing wb)) as [| r rows]; [congruence |].
  destruct (has_Programme (sheet_viewing wb)); cbn [negb bind]; [| eauto].
  destruct (has_Territory (sheet_viewing wb)); cbn [negb bind]; [| eauto].
  rewrite merge_data_cases, TPP.
  destruct (has_pr_Programme (sheet_producers wb)); cbn [negb bind]; [| eauto].
  assert (E : match producer_rows (sheet_producers wb),
                    nf_rows {| nf_has_Channel := has_Channel (sheet_viewing wb);
                               nf_has_Viewers := has_Viewers (sheet_viewing wb);
                               nf_rows := map (preprocess_row (has_Viewers (sheet_viewing wb)))
                                            (r :: rows) |}
              with
              | _ :: _, _ :: _ => false
              | _, _ => false
              end = false)
    by (destruct (producer_rows (sheet_producers wb)); reflexivity).
  rewrite E. cbn [bind].
  unfold aggregate_data, require_column.
  cbn [jf_has_Producer jf_has_Channel jf_has_Viewers nf_has_Channel nf_has_Viewers].
  destruct (has_pr_Producer (sheet_producers wb)); cbn [bind]; [| eauto].
  destruct (has_Channel (sheet_viewing wb)); cbn [bind]; [| eauto].
  rewrite V. cbn [bind]. eauto.
Qed.

(** C4 (amended). For a raw viewing table with rows whose Programme and
    Territory columns hold text (and a producer table whose Programme
    column does): if Date, Programme or Territory is absent, the Normalizer
    fails with a KeyError (SchemaMismatch); the absence of Viewers alone
    does not fail the Normalizer; and a table lacking Viewers makes the
    pipeline fail with a KeyError before anything is written, in the
    Aggregator when no other column is missing. *)
Theorem C4_missing_columns (wb : Workbook) (file : File) :
  let df := sheet_viewing wb in
  viewing_rows df <> [] ->
  Programme_is_text df = true -> Territory_is_text df = true ->
  pr_Programme_is_text (sheet_producers wb) = true ->
  (has_Date df = false \/ has_Programme df = false \/ has_Territory df = false ->
   exists c, preprocess_data df = Raise (KeyError c)) /\
  (has_Date df = true -> has_Programme df = true -> has_Territory df = true ->
   exists nf, preprocess_data df = Ok nf) /\
  (has_Viewers df = false ->
   (exists c, process_and_save_data wb file = (file, Raise (KeyError c))) /\
   forall jf, joined_frame_of wb = Ok jf ->
     jf_has_Producer jf = true -> jf_has_Channel jf = true ->
     aggregate_data jf = Raise (KeyError "Viewers")).
Proof.
  intros df R TP TT TPP. subst df. split; [| split].
  - rewrite preprocess_data_cases, TP, TT.
    destruct (viewing_rows (sheet_viewing wb)) as [| r rows]; [congruence |].
    destruct (has_Date (sheet_viewing wb)); cbn [negb]; [| eauto].
    destruct (has_Programme (sheet_viewing wb)); cbn [negb]; [| eauto].
    destruct (has_Territory (sheet_viewing wb)); cbn [negb]; [| eauto].
    intros [H | [H | H]]; discriminate.
  - intros D P T. rewrite preprocess_data_cases, TP, TT, D, P, T.
    destruct (viewing_rows (sheet_viewing wb)) as [| r rows]; [congruence |].
    cbn [negb]. eauto.
  - intros V. split.
    + destruct (no_viewers_column_raises wb R TP TT TPP V) as [c E].
      exists c. apply process_raises. exact E.
    + intros jf Hj P C.
      destruct (joined_frame_of_ok wb jf Hj) as [nf [Hp Hm]].
      apply merge_data_ok in Hm. destruct Hm as [_ ->].
      apply preprocess_data_ok in Hp. destruct Hp as [_ [_ [_ [_ ->]]]].
      simpl in P, C. unfold aggregate_data, require_column. simpl.
      rewrite P, C, V. reflexivity.
Qed.

Lemma C4_missing_columns_witness :
  viewing_rows (sheet_viewing wb_no_viewers_column) <> [] /\
  Programme_is_text (sheet_viewing wb_no_viewers_column) = true /\
  Territory_is_text (sheet_viewing wb_no_viewers_column) = true /\
  pr_Programme_is_text (sheet_producers wb_no_viewers_column) = true /\
  exists c, process_and_save_data wb_no_viewers_column None
            = (None, Raise (KeyError c)).
Proof.
  assert (R : viewing_rows (sheet_viewing wb_no_viewers_column) <> [])
    by (simpl; discriminate).
  split; [exact R |]. split; [reflexivity |]. split; [reflexivity |].
  split; [reflexivity |].
  exact (proj1 (proj2 (proj2 (C4_missing_columns wb_no_viewers_column None R
                                eq_refl eq_refl eq_refl))
                 eq_refl)).
Defined.

(** C4 as stated fails for Viewers: the sheet of [wb_no_viewers_column]
    lacks the column and the Normalizer returns its frame. *)
Lemma C4_counterexample :
  has_Viewers (sheet_viewing wb_no_viewers_column) = false /\
  exists nf, preprocess_data (sheet_viewing wb_no_viewers_column) = Ok nf.
Proof. split; [reflexivity |]. eexists. reflexivity. Qed.

(* ================================================================== *)
(** ** The scenarios *)

(** C7. The scenario of the specification: two broadcasts of "Show A" on
    channel 101 in January 2024, produced by "Acme", give the one record
    (Acme, 2024-01, 101, Show A, 1000, 1500, 1500). *)
Theorem C7_scenario :
  process_and_save_data wb_scenario None
  = (Some [ [ ("Producer", JString "Acme");
              ("Month", JString "2024-01");
              ("Channel", JNumber 101);
              ("Top_Programme", JString "Show A");
              ("Highest_Viewers", JNumber 1000);
              ("Sum_of_Viewers", JNumber 1500);
              ("Cumulative_Viewers", JNumber 1500) ] ],
     Ok tt).
Proof. vm_compute. reflexivity. Qed.

(** C1, at the failing input.  The group ("Acme", 2024-01, 101) of
    [wb_two_programmes] has the rows ("Alpha", 900) and ("Zulu", 100).
    Highest_Viewers is 900 and Sum_of_Viewers 1000, but Top_Programme is
    "Zulu", the greatest Programme text, where the row attaining the
    maximum Viewers has "Alpha": the lambda of [agg] is given the Programme
    column, so [idxmax] compares programme names. *)
Theorem C1_top_programme_at_failing_input :
  exists jf s,
    joined_frame_of wb_two_programmes = Ok jf /\
    aggregate_data jf = Ok [s] /\
    map (fun ir => (Programme (snd ir), Viewers (snd ir)))
      (get_group group_key (summary_key s) (jf_rows jf))
    = [("Alpha", Some 900); ("Zulu", Some 100)] /\
    Highest_Viewers s = Some 900 /\
    Sum_of_Viewers s = 1000 /\
    Top_Programme s = Some "Zulu".
Proof.
  eexists. eexists. split; [vm_compute; reflexivity |].
  split; [vm_compute; reflexivity |]. repeat split.
Qed.

(* ================================================================== *)
(** ** The typed summary and the records written *)

Lemma digit_ok (x : Z) :
  0 <= x <= 9 -> is_digit (digit x) = true /\ digit_value (digit x) = x.
Proof.
  intros H.
  assert (C : x = 0 \/ x = 1 \/ x = 2 \/ x = 3 \/ x = 4 \/ x = 5 \/ x = 6 \/
              x = 7 \/ x = 8 \/ x = 9) by lia.
  repeat (destruct C as [-> | C]; [split; reflexivity |]).
  subst x. split; reflexivity.
Qed.

Lemma decimal_digit (n k : Z) : 0 < k -> 0 <= n / k mod 10 <= 9.
Proof. intros H. pose proof (Z.mod_pos_bound (n / k) 10). lia. Qed.

Lemma decimal4 (y : Z) :
  0 <= y <= 9999 ->
  1000 * (y / 1000 mod 10) + 100 * (y / 100 mod 10) + 10 * (y / 10 mod 10)
  + y mod 10 = y.
Proof. intros H. Z.div_mod_to_equations. lia. Qed.

Lemma decimal2 (m : Z) : 0 <= m <= 99 -> 10 * (m / 10 mod 10) + m mod 10 = m.
Proof. intros H. Z.div_mod_to_equations. lia. Qed.

Lemma year_str_pad4 (y : Z) : 1000 <= y -> year_str y = pad4 y.
Proof. intros H. unfold year_str. destruct (Z.leb_spec 1000 y); [reflexivity | lia]. Qed.

Lemma year_month_period_str (p : Period) :
  1000 <= p_year p <= 9999 -> 0 <= p_month p <= 99 ->
  year_month (period_str p) = Some (p_year p, p_month p).
Proof.
  intros Hy Hm. destruct p as [y m]. simpl in Hy, Hm.
  unfold period_str. cbn [p_year p_month]. rewrite year_str_pad4 by lia.
  unfold pad4, pad2. cbn [String.append year_month forallb].
  replace (y mod 10) with (y / 1 mod 10) by (rewrite Z.div_1_r; reflexivity).
  replace (m mod 10) with (m / 1 mod 10) by (rewrite Z.div_1_r; reflexivity).
  destruct (digit_ok (y / 1000 mod 10)) as [-> ->]; [apply decimal_digit; lia |].
  destruct (digit_ok (y / 100 mod 10)) as [-> ->]; [apply decimal_digit; lia |].
  destruct (digit_ok (y / 10 mod 10)) as [-> ->]; [apply decimal_digit; lia |].
  destruct (digit_ok (y / 1 mod 10)) as [-> ->]; [apply decimal_digit; lia |].
  destruct (digit_ok (m / 10 mod 10)) as [-> ->]; [apply decimal_digit; lia |].
  destruct (digit_ok (m / 1 mod 10)) as [-> ->]; [apply decimal_digit; lia |].
  change (Ascii.eqb "-" "-") with true. cbn [andb].
  rewrite !Z.div_1_r, (decimal4 y), (decimal2 m Hm) by lia. reflexivity.
Qed.

Lemma mapM_In {A B : Type} (f : A -> result B) (l : list A) (l' : list B) :
  mapM f l = Ok l' -> forall b, In b l' -> exists a, In a l /\ f a = Ok b.
Proof.
  revert l'. induction l as [| a l IH]; simpl; intros l' H b I.
  - injection H as <-. destruct I.
  - destruct (f a) as [b0 |] eqn:Ea; simpl in H; [| discriminate].
    destruct (mapM f l) as [bs |] eqn:El; simpl in H; [| discriminate].
    injection H as <-. destruct I as [<- | I].
    + exists a. split; [left; reflexivity | exact Ea].
    + destruct (IH bs eq_refl b I) as [a' [Ia' Ea']].
      exists a'. split; [right; exact Ia' | exact Ea'].
Qed.

Lemma mapM_total {A B : Type} (f : A -> result B) (l : list A) :
  (forall a, In a l -> exists b, f a = Ok b) -> exists l', mapM f l = Ok l'.
Proof.
  induction l as [| a l IH]; simpl; intros H.
  - eauto.
  - destruct (H a (or_introl eq_refl)) as [b ->].
    destruct IH as [l' ->]; [intros x I; apply H; right; exact I |].
    simpl. eauto.
Qed.

Lemma idxmax_from_label (best_label : nat) (best : string) (x : Indexed string) :
  idxmax_from best_label best x = best_label \/
  In (idxmax_from best_label best x) (map fst x).
Proof.
  revert best_label best. induction x as [| [i v] x IH]; intros b bv; simpl.
  - left. reflexivity.
  - destruct (str_cmp v bv).
    + destruct (IH b bv) as [E | I]; [left; exact E | right; right; exact I].
    + destruct (IH b bv) as [E | I]; [left; exact E | right; right; exact I].
    + destruct (IH i v) as [E | I]; [right; left; congruence | right; right; exact I].
Qed.

Lemma loc_label {A : Type} (x : Indexed A) (label : nat) :
  In label (map fst x) -> exists a, loc x label = Some a.
Proof.
  unfold loc. induction x as [| [i a] x IH]; simpl; [tauto |].
  intros [-> | I].
  - rewrite Nat.eqb_refl. simpl. eauto.
  - destruct (Nat.eqb i label); simpl; [eauto | apply IH; exact I].
Qed.

Lemma top_programme_some (x : Indexed string) :
  x <> [] -> exists t, top_programme x = Some t.
Proof.
  unfold top_programme, idxmax. destruct x as [| [i v] x]; [congruence |].
  intros _. apply loc_label.
  destruct (idxmax_from_label i v x) as [-> | I]; [left; reflexivity | right; exact I].
Qed.

Lemma convert_data_types_In (summary : list SummaryRow) (final : list SummaryRecord)
    (r : SummaryRecord) :
  convert_data_types summary = Ok final -> In r final ->
  exists s, In s summary /\ convert_row s = Ok r.
Proof.
  unfold convert_data_types.
  destruct (mapM (fun s => astype_int "Highest_Viewers" (Highest_Viewers s)) summary);
    simpl; [| discriminate].
  intros H I. exact (mapM_In convert_row summary final H r I).
Qed.

Lemma process_writes (wb : Workbook) (file : File) (out : list JsonRecord) :
  process_and_save_data wb file = (Some out, Ok tt) ->
  exists final, final_summary_of wb = Ok final /\ out = to_json final.
Proof.
  unfold process_and_save_data, save_summary_to_json.
  destruct (final_summary_of wb) as [final | e]; intros H; [| discriminate H].
  injection H as E. exists final. split; [reflexivity | congruence].
Qed.

Lemma final_summary_of_ok (wb : Workbook) (final : list SummaryRecord) :
  final_summary_of wb = Ok final ->
  exists jf summary, joined_frame_of wb = Ok jf /\
                     aggregate_data jf = Ok summary /\
                     convert_data_types summary = Ok final.
Proof.
  unfold final_summary_of.
  destruct (summary_of wb) as [summary | e] eqn:Es; simpl; [| discriminate].
  intros H. destruct (summary_of_ok wb summary Es) as [jf [Hj Ha]].
  exists jf, summary. auto.
Qed.

(** The Month of a group is the month of a Date of the sheet. *)
Lemma group_month_in_range (wb : Workbook) (jf : JoinedFrame) (k : GroupKey) :
  joined_frame_of wb = Ok jf ->
  has_pr_Producer (sheet_producers wb) = true ->
  dates_in_range (sheet_viewing wb) ->
  In k (group_keys group_key (jf_rows jf)) ->
  1677 <= p_year (fst (snd k)) <= 2262 /\ 1 <= p_month (fst (snd k)) <= 12.
Proof.
  intros Hj P D Ik. destruct (joined_frame_of_ok wb jf Hj) as [nf [Hp Hm]].
  apply group_keys_In in Ik. destruct Ik as [[i r] [I K]]. simpl in K.
  assert (M : Month r = Some (fst (snd k))).
  { unfold group_key in K. destruct (Producer r), (Month r), (Channel r);
      try discriminate. injection K as <-. reflexivity. }
  destruct (joined_row_origin _ _ nf jf i r Hp Hm P I)
    as [[raw [prod [Iraw ->]]] | [p ->]]; [| discriminate].
  simpl in M. unfold dates_in_range in D. rewrite Forall_forall in D.
  specialize (D raw Iraw). destruct (vr_Date raw) as [t |]; [| discriminate].
  simpl in M. injection M as <-. exact (D t eq_refl).
Qed.


Lemma dates_mixed : dates_in_range (sheet_viewing wb_mixed).
Proof.
  unfold dates_in_range, wf_timestamp. simpl.
  repeat (apply Forall_cons;
          [simpl; intros t E; try discriminate; injection E as <-; simpl; lia |]).
  apply Forall_nil.
Qed.


(* ================================================================== *)
(** ** The order of the records *)

Lemma lex_assoc (a b c : comparison) : lex (lex a b) c = lex a (lex b c).
Proof. destruct a; reflexivity. Qed.

Lemma lex_eq_r (a : comparison) : lex a Eq = a.
Proof. destruct a; reflexivity. Qed.

(** Comparing digit by digit is comparing the numbers. *)
Lemma lex_base (base h h' l l' : Z) :
  0 <= l < base -> 0 <= l' < base ->
  lex (h ?= h') (l ?= l') = (base * h + l ?= base * h' + l').
Proof.
  intros Hl Hl'. symmetry.
  destruct (Z.compare_spec h h') as [-> | L | G]; simpl.
  - destruct (Z.compare_spec l l') as [-> | L | G].
    + apply Z.compare_refl.
    + apply Z.compare_lt_iff. lia.
    + apply Z.compare_gt_iff. lia.
  - apply Z.compare_lt_iff. nia.
  - apply Z.compare_gt_iff. nia.
Qed.

Lemma digit_cmp (x y : Z) :
  0 <= x <= 9 -> 0 <= y <= 9 ->
  Ascii_as_OT.compare (digit x) (digit y) = (x ?= y).
Proof.
  intros Hx Hy.
  assert (Cx : x = 0 \/ x = 1 \/ x = 2 \/ x = 3 \/ x = 4 \/ x = 5 \/ x = 6 \/
               x = 7 \/ x = 8 \/ x = 9) by lia.
  assert (Cy : y = 0 \/ y = 1 \/ y = 2 \/ y = 3 \/ y = 4 \/ y = 5 \/ y = 6 \/
               y = 7 \/ y = 8 \/ y = 9) by lia.
  repeat (destruct Cx as [-> | Cx]);
    repeat (destruct Cy as [-> | Cy]); try subst; reflexivity.
Qed.

Lemma str_cmp_cons (a b : ascii) (s t : string) :
  str_cmp (String a s) (String b t)
  = lex (Ascii_as_OT.compare a b) (str_cmp s t).
Proof.
  unfold str_cmp. simpl. destruct (Ascii_as_OT.compare a b); reflexivity.
Qed.

Lemma pad2_cmp (m m' : Z) (s t : string) :
  0 <= m <= 99 -> 0 <= m' <= 99 ->
  str_cmp (pad2 m ++ s) (pad2 m' ++ t) = lex (m ?= m') (str_cmp s t).
Proof.
  intros H H'. unfold pad2. cbn [String.append].
  rewrite !str_cmp_cons.
  assert (D : forall n, 0 <= n <= 99 -> 0 <= n / 10 mod 10 <= 9 /\ 0 <= n mod 10 <= 9).
  { intros n Hn. Z.div_mod_to_equations. lia. }
  destruct (D m H) as [D1 D0], (D m' H') as [D1' D0'].
  rewrite !digit_cmp by assumption.
  rewrite <- lex_assoc. f_equal.
  rewrite (lex_base 10) by lia.
  rewrite (decimal2 m H), (decimal2 m' H'). reflexivity.
Qed.

Lemma pad4_cmp (y y' : Z) (s t : string) :
  0 <= y <= 9999 -> 0 <= y' <= 9999 ->
  str_cmp (pad4 y ++ s) (pad4 y' ++ t) = lex (y ?= y') (str_cmp s t).
Proof.
  intros H H'. unfold pad4, pad2. cbn [String.append].
  rewrite !str_cmp_cons.
  assert (D : forall n, 0 <= n <= 9999 ->
            0 <= n / 1000 mod 10 <= 9 /\ 0 <= n / 100 mod 10 <= 9 /\
            0 <= n / 10 mod 10 <= 9 /\ 0 <= n mod 10 <= 9).
  { intros n Hn. Z.div_mod_to_equations. lia. }
  destruct (D y H) as [D3 [D2 [D1 D0]]], (D y' H') as [D3' [D2' [D1' D0']]].
  rewrite !digit_cmp by assumption.
  rewrite <- !lex_assoc. f_equal.
  rewrite (lex_base 10) by lia. rewrite (lex_base 10) by lia.
  rewrite (lex_base 10) by lia.
  f_equal.
  - rewrite <- (decimal4 y H) at 5. ring.
  - rewrite <- (decimal4 y' H') at 5. ring.
Qed.

(** In the range of pandas timestamps the "YYYY-MM" texts are ordered as
    the months are. *)
Lemma period_str_cmp (p q : Period) :
  1000 <= p_year p <= 9999 -> 0 <= p_month p <= 99 ->
  1000 <= p_year q <= 9999 -> 0 <= p_month q <= 99 ->
  str_cmp (period_str p) (period_str q) = period_cmp p q.
Proof.
  intros Py Pm Qy Qm. unfold period_str, period_cmp, on_key, period_key, pair_cmp.
  rewrite (year_str_pad4 (p_year p)), (year_str_pad4 (p_year q)) by lia.
  cbn [fst snd]. rewrite pad4_cmp by lia. f_equal.
  change ("-" ++ pad2 (p_month p))%string with (String "-" (pad2 (p_month p))).
  change ("-" ++ pad2 (p_month q))%string with (String "-" (pad2 (p_month q))).
  rewrite str_cmp_cons. change (Ascii_as_OT.compare "-" "-") with Eq. cbn [lex].
  replace (pad2 (p_month p)) with (pad2 (p_month p) ++ "")%string
    by (unfold pad2; reflexivity).
  replace (pad2 (p_month q)) with (pad2 (p_month q) ++ "")%string
    by (unfold pad2; reflexivity).
  rewrite pad2_cmp by assumption. apply lex_eq_r.
Qed.

Lemma text_key_cmp (k k' : GroupKey) :
  1000 <= p_year (fst (snd k)) <= 9999 -> 0 <= p_month (fst (snd k)) <= 99 ->
  1000 <= p_year (fst (snd k')) <= 9999 -> 0 <= p_month (fst (snd k')) <= 99 ->
  output_cmp (text_key k) (text_key k') = group_cmp k k'.
Proof.
  intros Hy Hm Hy' Hm'. unfold output_cmp, group_cmp, text_key, pair_cmp.
  cbn [fst snd]. rewrite period_str_cmp by assumption. reflexivity.
Qed.

Lemma StronglySorted_map {A B : Type} (R : A -> A -> Prop) (R' : B -> B -> Prop)
    (f : A -> B) (l : list A) :
  (forall x y, In x l -> In y l -> R x y -> R' (f x) (f y)) ->
  StronglySorted R l -> StronglySorted R' (map f l).
Proof.
  intros H S. induction S as [| a l Sl IH Fa]; simpl; constructor.
  - apply IH. intros x y Ix Iy. apply H; right; assumption.
  - rewrite Forall_forall in Fa |- *. intros b Ib.
    apply in_map_iff in Ib. destruct Ib as [y [<- Iy]].
    apply H; [left; reflexivity | right; exact Iy | apply Fa; exact Iy].
Qed.

Lemma mapM_map {A B C : Type} (f : A -> result B) (g : B -> C) (h : A -> C)
    (l : list A) (l' : list B) :
  (forall a b, f a = Ok b -> g b = h a) ->
  mapM f l = Ok l' -> map g l' = map h l.
Proof.
  intros H. revert l'. induction l as [| a l IH]; simpl; intros l' E.
  - injection E as <-. reflexivity.
  - destruct (f a) as [b |] eqn:Ea; simpl in E; [| discriminate].
    destruct (mapM f l) as [bs |]; simpl in E; [| discriminate].
    injection E as <-. simpl. rewrite (H a b Ea), (IH bs eq_refl). reflexivity.
Qed.

Lemma convert_row_key (s : SummaryRow) (r : SummaryRecord) :
  convert_row s = Ok r ->
  json_key (to_json_record r) = Some (text_key (summary_key s)).
Proof.
  unfold convert_row, astype_int.
  destruct (Highest_Viewers s); simpl; [| discriminate].
  destruct (Cumulative_Viewers s); simpl; [| discriminate].
  intros [= <-]. reflexivity.
Qed.



(* ================================================================== *)
(** ** The pipeline writes its output *)

Lemma series_max_some (l : list (option Z)) :
  l <> [] -> (forall c, In c l -> c <> None) -> exists m, series_max l = Some m.
Proof.
  induction l as [| c l IH]; [congruence |]. intros _ H. simpl.
  destruct c as [a |]; [| destruct (H None (or_introl eq_refl) eq_refl)].
  destruct (series_max l); eauto.
Qed.

(** No null reaches the casts: every record has its Highest_Viewers and
    its Cumulative_Viewers. *)
Lemma summary_converts (wb : Workbook) (jf : JoinedFrame)
    (summary : list SummaryRow) :
  joined_frame_of wb = Ok jf -> aggregate_data jf = Ok summary ->
  exists final, convert_data_types summary = Ok final.
Proof.
  intros Hj Ha.
  destruct (joined_frame_of_ok wb jf Hj) as [nf [Hp Hm]].
  destruct (pipeline_flags _ _ _ _ _ Hp Hm Ha) as [PR [_ V]].
  pose proof (aggregate_data_rows jf summary Ha) as Es.
  assert (Hs : forall s, In s summary ->
                 (exists h, Highest_Viewers s = Some h) /\
                 (exists c, Cumulative_Viewers s = Some c)).
  { intros s Is. split.
    - pose proof Is as Is'. rewrite Es in Is'.
      apply aggregate_rows_In in Is'. destruct Is' as [Ik E].
      rewrite E. destruct (summary_key s) as [p [m c]] eqn:Ek. simpl.
      apply series_max_some.
      + unfold values. intros E0. apply map_eq_nil in E0.
        exact (get_group_nonempty group_key _ _ Ik E0).
      + intros c' Ic. unfold values in Ic. apply in_map_iff in Ic.
        destruct Ic as [ir [<- Iir]]. apply get_group_In in Iir.
        destruct Iir as [Iir K].
        apply (grouped_rows_have_viewers _ _ _ _ Hp Hm PR V ir Iir). congruence.
    - destruct (proj1 (cumulative_maximum wb jf _ s Hj Ha Is)) as [m [E _]].
      eauto. }
  unfold convert_data_types.
  destruct (mapM_total (fun s => astype_int "Highest_Viewers" (Highest_Viewers s))
              summary) as [hs ->].
  { intros s Is. destruct (proj1 (Hs s Is)) as [h ->]. simpl. eauto. }
  simpl. apply mapM_total. intros s Is.
  destruct (Hs s Is) as [[h Eh] [c Ec]].
  unfold convert_row. rewrite Eh, Ec. simpl. eauto.
Qed.

(** A workbook with every expected column, text in its text columns and
    at least one broadcast goes through all the stages. *)
Lemma pipeline_succeeds (wb : Workbook) (file : File) :
  has_Date (sheet_viewing wb) = true -> has_Programme (sheet_viewing wb) = true ->
  has_Territory (sheet_viewing wb) = true -> has_Channel (sheet_viewing wb) = true ->
  has_Viewers (sheet_viewing wb) = true ->
  has_pr_Programme (sheet_producers wb) = true ->
  has_pr_Producer (sheet_producers wb) = true ->
  Programme_is_text (sheet_viewing wb) = true ->
  Territory_is_text (sheet_viewing wb) = true ->
  pr_Programme_is_text (sheet_producers wb) = true ->
  viewing_rows (sheet_viewing wb) <> [] ->
  exists out, process_and_save_data wb file = (Some out, Ok tt).
Proof.
  intros D P T C V PP PR TP TT TPP R.
  assert (Hp : exists nf, preprocess_data (sheet_viewing wb) = Ok nf).
  { rewrite preprocess_data_cases, D, P, T, TP, TT.
    destruct (viewing_rows (sheet_viewing wb)); [congruence |]. simpl. eauto. }
  destruct Hp as [nf Hp].
  assert (Hm : exists jf, merge_data (sheet_producers wb) nf = Ok jf).
  { rewrite merge_data_cases, PP, TPP. cbn [negb].
    destruct (producer_rows (sheet_producers wb)), (nf_rows nf); eauto. }
  destruct Hm as [jf Hm].
  assert (Hj : joined_frame_of wb = Ok jf).
  { unfold joined_frame_of, load_data. simpl. rewrite Hp. simpl. exact Hm. }
  assert (Ha : aggregate_data jf = Ok (aggregate_rows (jf_rows jf))).
  { pose proof Hm as Hm'. apply merge_data_ok in Hm'. destruct Hm' as [_ Ej].
    pose proof Hp as Hp'. apply preprocess_data_ok in Hp'.
    destruct Hp' as [_ [_ [_ [_ En]]]].
    apply aggregate_data_ok; rewrite Ej; simpl; try rewrite En; simpl; assumption. }
  destruct (summary_converts wb jf _ Hj Ha) as [final Hc].
  exists (to_json final). unfold process_and_save_data, final_summary_of, summary_of.
  rewrite Hj. simpl. rewrite Ha. simpl. rewrite Hc. reflexivity.
Qed.

(* ================================================================== *)
(** ** What the peak-and-sum aggregate computes *)

Lemma str_le_trans (a b c : string) :
  str_cmp a b <> Gt -> str_cmp b c <> Gt -> str_cmp a c <> Gt.
Proof.
  intros H1 H2 H3.
  assert (L1 : leb_of str_cmp a b = true)
    by (unfold leb_of; destruct (str_cmp a b); congruence).
  assert (L2 : leb_of str_cmp b c = true)
    by (unfold leb_of; destruct (str_cmp b c); congruence).
  pose proof (leb_of_trans str_cmp a b c L1 L2) as L3.
  unfold leb_of in L3. rewrite H3 in L3. discriminate.
Qed.

(** [idxmax] returns the label of a row whose value no row exceeds. *)
Lemma idxmax_from_greatest (best_label : nat) (best : string) (x : Indexed string) :
  exists v,
    (idxmax_from best_label best x = best_label /\ v = best \/
     In (idxmax_from best_label best x, v) x) /\
    str_cmp best v <> Gt /\
    forall iw, In iw x -> str_cmp (snd iw) v <> Gt.
Proof.
  revert best_label best. induction x as [| [i w] x IH]; intros b bv.
  - exists bv. simpl. rewrite (cmp_refl str_cmp).
    split; [left; split; reflexivity |]. split; [discriminate | tauto].
  - cbn [idxmax_from].
    destruct (str_cmp w bv) eqn:E.
    + destruct (IH b bv) as [v [Hv [Hb Hall]]]. exists v. split; [| split].
      * destruct Hv as [Hv | Hv]; [left; exact Hv | right; right; exact Hv].
      * exact Hb.
      * intros iw [<- | I]; [| apply Hall; exact I]. simpl.
        apply (str_le_trans w bv v); [congruence | exact Hb].
    + destruct (IH b bv) as [v [Hv [Hb Hall]]]. exists v. split; [| split].
      * destruct Hv as [Hv | Hv]; [left; exact Hv | right; right; exact Hv].
      * exact Hb.
      * intros iw [<- | I]; [| apply Hall; exact I]. simpl.
        apply (str_le_trans w bv v); [congruence | exact Hb].
    + destruct (IH i w) as [v [Hv [Hb Hall]]]. exists v. split; [| split].
      * right. destruct Hv as [[-> ->] | Hv]; [left; reflexivity | right; exact Hv].
      * apply (str_le_trans bv w v); [| exact Hb].
        rewrite (cmp_opp str_cmp w bv), E. discriminate.
      * intros iw [<- | I]; [exact Hb | apply Hall; exact I].
Qed.

Lemma loc_unique {A : Type} (x : Indexed A) (label : nat) (a : A) :
  NoDup (map fst x) -> In (label, a) x -> loc x label = Some a.
Proof.
  unfold loc. induction x as [| [i b] x IH]; simpl; [tauto |].
  intros ND. inversion ND as [| ? ? Ni NDx]; subst.
  intros [[= -> ->] | I].
  - rewrite Nat.eqb_refl. reflexivity.
  - destruct (Nat.eqb_spec i label) as [-> | _].
    + destruct Ni. apply in_map_iff. exists (label, a). split; [reflexivity | exact I].
    + apply IH; assumption.
Qed.

(** On a column with distinct labels, [x.loc[x.idxmax()]] is the greatest
    value of the column. *)
Lemma top_programme_greatest (x : Indexed string) :
  x <> [] -> NoDup (map fst x) ->
  exists t, top_programme x = Some t /\ In t (map snd x) /\
            forall iw, In iw x -> str_cmp (snd iw) t <> Gt.
Proof.
  unfold top_programme, idxmax. destruct x as [| [i w] x]; [congruence |].
  intros _ ND. destruct (idxmax_from_greatest i w x) as [v [Hv [Hb Hall]]].
  exists v.
  assert (I : In (idxmax_from i w x, v) ((i, w) :: x)).
  { destruct Hv as [[-> ->] | Hv]; [left; reflexivity | right; exact Hv]. }
  split; [apply loc_unique; assumption |]. split.
  - apply in_map_iff. exists (idxmax_from i w x, v). split; [reflexivity | exact I].
  - intros iw [<- | Iw]; [exact Hb | apply Hall; exact Iw].
Qed.

Lemma range_index_labels {A : Type} (l : list A) : NoDup (map fst (range_index l)).
Proof.
  unfold range_index.
  assert (E : forall start, map fst (combine (seq start (List.length l)) l)
                            = seq start (List.length l)).
  { induction l as [| a l IH]; intros start; simpl; [reflexivity |].
    rewrite IH. reflexivity. }
  rewrite E. apply seq_NoDup.
Qed.

Lemma NoDup_filter_labels {A : Type} (f : nat * A -> bool) (x : Indexed A) :
  NoDup (map fst x) -> NoDup (map fst (filter f x)).
Proof.
  induction x as [| [i a] x IH]; simpl; intros ND; [constructor |].
  inversion ND as [| ? ? Ni NDx]; subst.
  destruct (f (i, a)); simpl; [| apply IH; exact NDx].
  constructor; [| apply IH; exact NDx].
  intros I. apply Ni. apply in_map_iff in I. destruct I as [[j b] [E I]].
  simpl in E. subst j. apply filter_In in I. destruct I as [I _].
  apply in_map_iff. exists (i, b). split; [reflexivity | exact I].
Qed.

(** For every record of the summary: Sum_of_Viewers is the sum and
    Highest_Viewers the maximum of the Viewers over exactly the joined rows
    of its key, and Top_Programme is the greatest Programme text among
    those rows (whatever their Viewers). *)
Lemma peak_and_sum_of_group (wb : Workbook) (jf : JoinedFrame)
    (summary : list SummaryRow) (s : SummaryRow) :
  joined_frame_of wb = Ok jf ->
  aggregate_data jf = Ok summary ->
  In s summary ->
  let g := get_group group_key (summary_key s) (jf_rows jf) in
  (forall ir, In ir g <->
              In ir (jf_rows jf) /\ group_key (snd ir) = Some (summary_key s)) /\
  Sum_of_Viewers s = series_sum (values Viewers g) /\
  (exists h, Highest_Viewers s = Some h /\ is_maximum h (map viewers_or_zero g)) /\
  (exists t, Top_Programme s = Some t /\ In t (values Programme g) /\
             forall ir, In ir g -> str_cmp (Programme (snd ir)) t <> Gt).
Proof.
  intros Hj Ha Is g.
  destruct (aggregated_frame wb jf summary Hj Ha) as [-> [V _]].
  apply aggregate_rows_In in Is. destruct Is as [Ik Es]. fold g in Es.
  assert (NE : g <> []) by (apply get_group_nonempty; exact Ik).
  split; [intros ir; apply get_group_In |].
  split; [rewrite Es; destruct (summary_key s) as [p [m c]]; reflexivity |].
  split.
  - assert (Ev : values Viewers g = map Some (map viewers_or_zero g)).
    { unfold values. rewrite map_map. apply map_ext_in. intros ir I.
      apply get_group_In in I. destruct I as [I K]. unfold viewers_or_zero.
      destruct (Viewers (snd ir)) eqn:E; [reflexivity |].
      destruct (V ir I); [congruence | exact E]. }
    destruct (series_max_maximum (map viewers_or_zero g)) as [h [Eh Mh]].
    { intros E. apply map_eq_nil in E. exact (NE E). }
    exists h. split; [| exact Mh].
    rewrite Es. destruct (summary_key s) as [p [m c]]. simpl.
    fold g. rewrite Ev. exact Eh.
  - destruct (top_programme_greatest (column Programme g)) as [t [Et [It Gt]]].
    + unfold column. intros E. apply map_eq_nil in E. exact (NE E).
    + unfold column. rewrite map_map. simpl.
      apply NoDup_filter_labels.
      destruct (joined_frame_of_ok wb jf Hj) as [nf [_ Hm]].
      apply merge_data_ok in Hm. destruct Hm as [_ ->]. simpl.
      apply range_index_labels.
    + exists t. split; [| split].
      * rewrite Es. destruct (summary_key s) as [p [m c]]. exact Et.
      * unfold column in It. rewrite map_map in It. exact It.
      * intros ir I. apply (Gt (fst ir, Programme (snd ir))).
        unfold column. apply in_map_iff. exists ir. split; [reflexivity | exact I].
Qed.

(* ================================================================== *)
(** ** The join on the mixed workbook *)

Lemma C3_join_completeness_witness :
  merge_data (sheet_producers wb_mixed) nf_mixed = Ok jf_mixed /\
  has_pr_Producer (sheet_producers wb_mixed) = true /\
  (forall v, In v (nf_rows nf_mixed) ->
     (exists i j, In (i, j) (jf_rows jf_mixed) /\ corresponds v j) /\
     ((forall p, In p (producer_rows (sheet_producers wb_mixed)) -> ~ matches v p) ->
      forall i j, In (i, j) (jf_rows jf_mixed) -> corresponds v j ->
                  Producer j = Some "Unknown")) /\
  (forall i j, In (i, j) (jf_rows jf_mixed) -> Producer j <> None).
Proof.
  split; [reflexivity |]. split; [reflexivity |].
  exact (C3_join_completeness (sheet_producers wb_mixed) nf_mixed jf_mixed
           eq_refl eq_refl).
Defined.

(* ================================================================== *)
(** * Further properties of the pipeline *)

(** ** Success and failure of a run *)

Lemma first_missing_raises (wb : Workbook) (c : string) (rest : list string) :
  viewing_rows (sheet_viewing wb) <> [] ->
  Programme_is_text (sheet_viewing wb) = true ->
  Territory_is_text (sheet_viewing wb) = true ->
  pr_Programme_is_text (sheet_producers wb) = true ->
  missing_columns wb = c :: rest ->
  final_summary_of wb = Raise (KeyError c).
Proof.
  intros R TP TT TPP.
  unfold missing_columns, final_summary_of, summary_of, joined_frame_of, load_data.
  cbn [bind fst snd]. rewrite preprocess_data_cases, TP, TT.
  destruct (viewing_rows (sheet_viewing wb)) as [| r rows]; [congruence |].
  destruct (has_Date (sheet_viewing wb)); cbn [negb bind app];
    [| intros [= <- _]; reflexivity].
  destruct (has_Programme (sheet_viewing wb)); cbn [negb bind app];
    [| intros [= <- _]; reflexivity].
  destruct (has_Territory (sheet_viewing wb)); cbn [negb bind app];
    [| intros [= <- _]; reflexivity].
  rewrite merge_data_cases, TPP.
  destruct (has_pr_Programme (sheet_producers wb)); cbn [negb bind app];
    [| intros [= <- _]; reflexivity].
  assert (E : forall (ps : list ProducerRecord) (vs : list NormalizedViewingRecord),
            match ps, vs with
            | _ :: _, _ :: _ => false
            | _, _ => false
            end = false)
    by (intros [| p ps] [| v vs]; reflexivity).
  rewrite E. cbn [bind].
  unfold aggregate_data, require_column.
  cbn [jf_has_Producer jf_has_Channel jf_has_Viewers nf_has_Channel nf_has_Viewers].
  destruct (has_pr_Producer (sheet_producers wb)); cbn [bind app];
    [| intros [= <- _]; reflexivity].
  destruct (has_Channel (sheet_viewing wb)); cbn [bind app];
    [| intros [= <- _]; reflexivity].
  destruct (has_Viewers (sheet_viewing wb)); cbn [bind app];
    [discriminate | intros [= <- _]; reflexivity].
Qed.

(** X2. On a workbook whose viewing sheet has rows, whose Programme and
    Territory columns hold text, and that lacks an expected column, the run
    raises the KeyError of the first missing column in stage order (Date,
    Programme, Territory of the viewing sheet; Programme, Producer of the
    producers sheet; Channel; Viewers) and leaves the output file as it
    was. *)
Theorem X2_first_missing_column_is_raised (wb : Workbook) (file : File)
    (c : string) (rest : list string) :
  viewing_rows (sheet_viewing wb) <> [] ->
  Programme_is_text (sheet_viewing wb) = true ->
  Territory_is_text (sheet_viewing wb) = true ->
  pr_Programme_is_text (sheet_producers wb) = true ->
  missing_columns wb = c :: rest ->
  process_and_save_data wb file = (file, Raise (KeyError c)).
Proof.
  intros R TP TT TPP M. apply process_raises.
  exact (first_missing_raises wb c rest R TP TT TPP M).
Qed.

Lemma X2_first_missing_column_is_raised_witness :
  viewing_rows (sheet_viewing wb_no_viewers_column) <> [] /\
  Programme_is_text (sheet_viewing wb_no_viewers_column) = true /\
  Territory_is_text (sheet_viewing wb_no_viewers_column) = true /\
  pr_Programme_is_text (sheet_producers wb_no_viewers_column) = true /\
  missing_columns wb_no_viewers_column = ["Viewers"] /\
  process_and_save_data wb_no_viewers_column None
  = (None, Raise (KeyError "Viewers")).
Proof.
  assert (R : viewing_rows (sheet_viewing wb_no_viewers_column) <> [])
    by (simpl; discriminate).
  split; [exact R |]. split; [reflexivity |]. split; [reflexivity |].
  split; [reflexivity |]. split; [reflexivity |].
  exact (X2_first_missing_column_is_raised wb_no_viewers_column None
           "Viewers" [] R eq_refl eq_refl eq_refl eq_refl).
Defined.

(** The stages before the casts raise a KeyError, an AttributeError or a
    ValueError, nothing else. *)
Lemma summary_of_raises (wb : Workbook) (e : Exception) :
  summary_of wb = Raise e ->
  (exists c, e = KeyError c) \/ (exists a, e = AttributeError a) \/
  (exists k, e = ValueError k).
Proof.
  unfold summary_of, joined_frame_of, load_data. cbn [bind fst snd].
  rewrite preprocess_data_cases.
  destruct (has_Date (sheet_viewing wb)); cbn [negb bind];
    [| intros [= <-]; eauto].
  destruct (viewing_rows (sheet_viewing wb)) as [| r rows];
    [intros [= <-]; eauto |].
  destruct (has_Programme (sheet_viewing wb)); cbn [negb bind];
    [| intros [= <-]; eauto].
  destruct (Programme_is_text (sheet_viewing wb)); cbn [negb bind];
    [| intros [= <-]; eauto].
  destruct (has_Territory (sheet_viewing wb)); cbn [negb bind];
    [| intros [= <-]; eauto].
  destruct (Territory_is_text (sheet_viewing wb)); cbn [negb bind];
    [| intros [= <-]; eauto].
  rewrite merge_data_cases.
  destruct (has_pr_Programme (sheet_producers wb)); cbn [negb bind];
    [| intros [= <-]; eauto].
  match goal with
  | |- context [if ?b then Raise (ValueError _) else _] => destruct b
  end; cbn [bind]; [intros [= <-]; eauto 6 |].
  unfold aggregate_data, require_column.
  cbn [jf_has_Producer jf_has_Channel jf_has_Viewers].
  destruct (has_pr_Producer (sheet_producers wb)); cbn [bind];
    [| intros [= <-]; eauto].
  match goal with
  | |- context [if ?b then Ok tt else _] => destruct b
  end; cbn [bind]; [| intros [= <-]; eauto].
  match goal with
  | |- context [if ?b then Ok tt else _] => destruct b
  end; cbn [bind]; [discriminate | intros [= <-]; eauto].
Qed.

(** X3. No null reaches the integer casts of [convert_data_types]: every
    record of a summary has its Highest_Viewers and its Cumulative_Viewers,
    so that a run on a workbook whose numbers are within the exact range
    never raises the error of a cast that meets a null. *)
Theorem X3_integer_casts_never_fail (wb : Workbook) (file : File) (column : string) :
  exact_workbook wb ->
  snd (process_and_save_data wb file) <> Raise (IntCastingNaNError column).
Proof.
  intros _. unfold process_and_save_data, final_summary_of.
  destruct (summary_of wb) as [summary | e] eqn:Es; cbn [bind].
  - destruct (summary_of_ok wb summary Es) as [jf [Hj Ha]].
    destruct (summary_converts wb jf summary Hj Ha) as [final ->].
    simpl. discriminate.
  - cbn [snd]. intros [= ->].
    destruct (summary_of_raises wb _ Es) as [[c E] | [[a E] | [k E]]];
      discriminate E.
Qed.

Lemma X3_integer_casts_never_fail_witness :
  exact_workbook wb_mixed /\
  snd (process_and_save_data wb_mixed None)
  <> Raise (IntCastingNaNError "Highest_Viewers").
Proof.
  assert (E : exact_workbook wb_mixed) by reflexivity.
  split; [exact E |].
  exact (X3_integer_casts_never_fail wb_mixed None "Highest_Viewers" E).
Defined.

(* ================================================================== *)
(** ** The two aggregates and their merge *)

Lemma merge_inner_keys_same (df : Indexed JoinedRecord) :
  map fst (merge_inner (peak_summary df) (cumulative_summary df))
  = group_keys group_key df.
Proof.
  rewrite peak_summary_keys, cumulative_summary_keys.
  rewrite merge_inner_same_keys by apply group_keys_NoDup.
  rewrite map_map. simpl. apply map_id.
Qed.

(** X4. The aggregate computed before the sort and the cumulative
    aggregate computed after it have the same keys in the same order, so
    their inner merge drops no group: the merged summary has exactly the
    keys of the two. *)
Theorem X4_inner_merge_drops_no_group (df : Indexed JoinedRecord) :
  map fst (peak_summary df) = map fst (cumulative_summary df) /\
  map fst (merge_inner (peak_summary df) (cumulative_summary df))
  = map fst (peak_summary df).
Proof.
  rewrite merge_inner_keys_same.
  rewrite peak_summary_keys, cumulative_summary_keys, !map_map. simpl.
  rewrite map_id. split; reflexivity.
Qed.

(** X5. For a joined table whose numbers are within the exact range and
    every record of its summary: Sum_of_Viewers is the sum and
    Highest_Viewers the maximum of the Viewers over exactly the joined rows
    that have the record's (Producer, Month, Channel); Top_Programme is the
    Programme of one of those rows, and it is the greatest Programme text
    among them, compared as Python compares strings (the Viewers play no
    part in it). *)
Theorem X5_peak_and_sum_of_group (wb : Workbook) (jf : JoinedFrame)
    (summary : list SummaryRow) (s : SummaryRow) :
  joined_frame_of wb = Ok jf ->
  aggregate_data jf = Ok summary ->
  exact_numbers (jf_rows jf) ->
  In s summary ->
  let g := get_group group_key (summary_key s) (jf_rows jf) in
  (forall ir, In ir g <->
              In ir (jf_rows jf) /\ group_key (snd ir) = Some (summary_key s)) /\
  Sum_of_Viewers s = series_sum (values Viewers g) /\
  (exists h, Highest_Viewers s = Some h /\ is_maximum h (map viewers_or_zero g)) /\
  (exists t, Top_Programme s = Some t /\ In t (values Programme g) /\
             forall ir, In ir g -> str_cmp (Programme (snd ir)) t <> Gt).
Proof. intros Hj Ha _. exact (peak_and_sum_of_group wb jf summary s Hj Ha). Qed.

Lemma X5_peak_and_sum_of_group_witness :
  joined_frame_of wb_mixed = Ok jf_mixed /\
  aggregate_data jf_mixed = Ok summary_mixed /\
  exact_numbers (jf_rows jf_mixed) /\
  forall s, In s summary_mixed ->
    let g := get_group group_key (summary_key s) (jf_rows jf_mixed) in
    (forall ir, In ir g <->
                In ir (jf_rows jf_mixed) /\ group_key (snd ir) = Some (summary_key s)) /\
    Sum_of_Viewers s = series_sum (values Viewers g) /\
    (exists h, Highest_Viewers s = Some h /\ is_maximum h (map viewers_or_zero g)) /\
    (exists t, Top_Programme s = Some t /\ In t (values Programme g) /\
               forall ir, In ir g -> str_cmp (Programme (snd ir)) t <> Gt).
Proof.
  split; [reflexivity |]. split; [reflexivity |]. split; [reflexivity |].
  intros s Is.
  exact (X5_peak_and_sum_of_group wb_mixed jf_mixed summary_mixed s
           eq_refl eq_refl eq_refl Is).
Defined.

(* ================================================================== *)
(** ** Which records there are *)

Lemma group_key_fillna_viewing (prod : option string) (fill : bool)
    (raw : ViewingRecord) (k : GroupKey) :
  group_key (fillna_Producer (of_viewing prod (preprocess_row fill raw))) = Some k <->
  exists t c,
    vr_Date raw = Parseable t /\ vr_Channel raw = Some c /\
    k = (match prod with Some q => q | None => "Unknown" end, (to_period t, c)).
Proof.
  unfold group_key. simpl.
  destruct prod as [q |]; simpl;
    destruct (vr_Date raw) as [t |]; simpl;
    destruct (vr_Channel raw) as [c |]; simpl;
    split; try discriminate;
    try (intros [= <-]; exists t, c; repeat split; reflexivity);
    try (intros [t' [c' [[= <-] [[= <-] ->]]]]; reflexivity);
    try (intros [t' [c' [E1 [E2 _]]]]; discriminate).
Qed.

Lemma producer_names_In (ps : list ProducerRecord) (programme name : string) :
  In name (producer_names ps programme) <->
  (exists p, In p ps /\ pr_Programme p = programme /\ producer_name p = name) \/
  ((forall p, In p ps -> pr_Programme p <> programme) /\ name = "Unknown").
Proof.
  unfold producer_names, producers_of.
  destruct (filter (fun p => String.eqb (pr_Programme p) programme) ps)
    as [| p0 ms] eqn:E.
  - pose proof (proj1 (filter_programme_nil pr_Programme programme ps) E) as N.
    simpl. split.
    + intros [<- | []]. right. split; [exact N | reflexivity].
    + intros [[p [Ip [Ep _]]] | [_ ->]]; [destruct (N p Ip Ep) | left; reflexivity].
  - rewrite <- E. rewrite in_map_iff. split.
    + intros [p [En Ip]]. apply filter_In in Ip. destruct Ip as [Ip Ep].
      apply String.eqb_eq in Ep. left. exists p. auto.
    + intros [[p [Ip [Ep En]]] | [N _]].
      * exists p. split; [exact En |]. apply filter_In.
        split; [exact Ip | apply String.eqb_eq; exact Ep].
      * assert (I0 : In p0 (filter (fun p => String.eqb (pr_Programme p) programme) ps))
          by (rewrite E; left; reflexivity).
        apply filter_In in I0. destruct I0 as [I0 E0].
        apply String.eqb_eq in E0. destruct (N p0 I0 E0).
Qed.

Lemma summary_keys_of_broadcasts (wb : Workbook) (summary : list SummaryRow)
    (k : GroupKey) :
  summary_of wb = Ok summary ->
  In k (map summary_key summary) <->
  exists raw t c,
    In raw (viewing_rows (sheet_viewing wb)) /\
    vr_Date raw = Parseable t /\ vr_Channel raw = Some c /\
    In (fst k) (producer_names (producer_rows (sheet_producers wb))
                  (strip (vr_Programme raw))) /\
    snd k = (to_period t, c).
Proof.
  intros Hs. destruct (summary_of_ok wb summary Hs) as [jf [Hj Ha]].
  destruct (joined_frame_of_ok wb jf Hj) as [nf [Hp Hm]].
  destruct (pipeline_flags _ _ _ _ _ Hp Hm Ha) as [P _].
  pose proof (aggregate_data_rows jf summary Ha) as ->.
  rewrite aggregate_rows_keys, group_keys_In.
  pose proof (fun j => joined_rows_In _ nf jf j Hm P) as R.
  pose proof Hp as Hp'. apply preprocess_data_ok in Hp'.
  destruct Hp' as [_ [_ [_ [_ En]]]].
  assert (Rows : nf_rows nf
                 = map (preprocess_row (has_Viewers (sheet_viewing wb)))
                     (viewing_rows (sheet_viewing wb))) by (rewrite En; reflexivity).
  split.
  - intros [[i r] [I K]]. simpl in K.
    destruct (proj1 (R r) (ex_intro _ i I)) as [j0 [I0 ->]].
    apply merge_outer_In in I0. rewrite Rows in I0.
    destruct I0 as [[p [v [Ip [Iv [E ->]]]]] | [[v [Iv [N ->]]] | [p [_ [_ ->]]]]].
    + apply in_map_iff in Iv. destruct Iv as [raw [<- Iraw]].
      apply group_key_fillna_viewing in K. destruct K as [t [c [Ed [Ec ->]]]].
      exists raw, t, c. repeat split; try assumption. simpl.
      apply producer_names_In. left. exists p. auto.
    + apply in_map_iff in Iv. destruct Iv as [raw [<- Iraw]].
      apply group_key_fillna_viewing in K. destruct K as [t [c [Ed [Ec ->]]]].
      exists raw, t, c. repeat split; try assumption. simpl.
      apply producer_names_In. right. split; [exact N | reflexivity].
    + unfold group_key in K. simpl in K.
      destruct (fillna "Unknown" (pr_Producer p)); discriminate.
  - intros [raw [t [c [Iraw [Ed [Ec [In_name Ek]]]]]]].
    set (v := preprocess_row (has_Viewers (sheet_viewing wb)) raw).
    assert (Iv : In v (nf_rows nf)) by (rewrite Rows; apply in_map; exact Iraw).
    apply producer_names_In in In_name.
    assert (J : exists prod,
              In (of_viewing prod v)
                (merge_outer (producer_rows (sheet_producers wb)) (nf_rows nf)) /\
              fst k = match prod with Some q => q | None => "Unknown" end).
    { destruct In_name as [[p [Ip [Ep En']]] | [N En']].
      - exists (pr_Producer p). split.
        + apply merge_outer_In. left. exists p, v. auto.
        + rewrite <- En'. reflexivity.
      - exists None. split; [| exact En'].
        apply merge_outer_In. right. left. exists v. auto. }
    destruct J as [prod [Ij Ef]].
    destruct (proj2 (R (fillna_Producer (of_viewing prod v)))) as [i I].
    { exists (of_viewing prod v). split; [exact Ij | reflexivity]. }
    exists (i, fillna_Producer (of_viewing prod v)). split; [exact I |].
    simpl. apply group_key_fillna_viewing. exists t, c.
    repeat split; try assumption.
    destruct k as [q mc]. simpl in *. congruence.
Qed.

(** X6. For a workbook whose numbers are within the exact range, the
    records of the summary are those of the broadcasts that have a
    Date that parses and a Channel: there is a record (Producer, Month,
    Channel) exactly when some such broadcast has that Month and Channel
    and is counted under that Producer, which is the name of a producer row
    of its (stripped) Programme, "Unknown" for a row without name, or
    "Unknown" when no producer row has the Programme.  A producer without
    such a broadcast has no record, and no such broadcast is dropped. *)
Theorem X6_records_are_those_of_broadcasts (wb : Workbook)
    (summary : list SummaryRow) (producer : string) (month : Period) (channel : Z) :
  summary_of wb = Ok summary ->
  exact_workbook wb ->
  (exists s, In s summary /\ s_Producer s = producer /\
             s_Month s = month /\ s_Channel s = channel) <->
  (exists raw t,
     In raw (viewing_rows (sheet_viewing wb)) /\
     vr_Date raw = Parseable t /\ to_period t = month /\
     vr_Channel raw = Some channel /\
     In producer (producer_names (producer_rows (sheet_producers wb))
                    (strip (vr_Programme raw)))).
Proof.
  intros Hs.
  pose proof (summary_keys_of_broadcasts wb summary (producer, (month, channel)) Hs)
    as K.
  rewrite in_map_iff in K. split.
  - intros [s [Is [E1 [E2 E3]]]].
    destruct (proj1 K) as [raw [t [c [Iraw [Ed [Ec [In_name Ek]]]]]]].
    { exists s. split; [| exact Is]. unfold summary_key. congruence. }
    simpl in In_name, Ek. injection Ek as -> ->.
    exists raw, t. auto.
  - intros [raw [t [Iraw [Ed [Em [Ec In_name]]]]]].
    destruct (proj2 K) as [s [Es Is]].
    { exists raw, t, channel. simpl. repeat split; try assumption. congruence. }
    exists s. unfold summary_key in Es. injection Es as E1 E2 E3. auto.
Qed.

Lemma X6_records_are_those_of_broadcasts_witness :
  summary_of wb_mixed = Ok summary_mixed /\
  exact_workbook wb_mixed /\
  ((exists s, In s summary_mixed /\ s_Producer s = "Unknown" /\
              s_Month s = {| p_year := 2024; p_month := 2 |} /\ s_Channel s = 1) <->
   (exists raw t,
      In raw (viewing_rows (sheet_viewing wb_mixed)) /\
      vr_Date raw = Parseable t /\
      to_period t = {| p_year := 2024; p_month := 2 |} /\
      vr_Channel raw = Some 1 /\
      In "Unknown" (producer_names (producer_rows (sheet_producers wb_mixed))
                      (strip (vr_Programme raw))))).
Proof.
  assert (E : exact_workbook wb_mixed) by reflexivity.
  split; [reflexivity |]. split; [exact E |].
  exact (X6_records_are_those_of_broadcasts wb_mixed summary_mixed "Unknown"
           {| p_year := 2024; p_month := 2 |} 1 eq_refl E).
Defined.

(* ================================================================== *)
(** ** Cumulative_Viewers without the sort *)

Lemma row_le_unfold (ir ir' : nat * JoinedRecord) :
  row_le ir ir' <->
  lex (na_last str_cmp (Producer (snd ir)) (Producer (snd ir')))
    (lex (na_last period_cmp (Month (snd ir)) (Month (snd ir')))
       (lex (na_last Z.compare (Channel (snd ir)) (Channel (snd ir')))
          (na_last ts_cmp (Date (snd ir)) (Date (snd ir'))))) <> Gt.
Proof.
  unfold row_le, le, leb_of, row_cmp, on_key, sort_key, sort_cmp, pair_cmp.
  cbn [fst snd].
  destruct (lex _ _); split; congruence.
Qed.

Lemma not_after_unfold (k : GroupKey) (ir : nat * JoinedRecord) :
  not_after k ir = true <->
  lex (na_last period_cmp (Month (snd ir)) (Some (fst (snd k))))
    (na_last Z.compare (Channel (snd ir)) (Some (snd (snd k)))) <> Gt.
Proof.
  unfold not_after, leb_of, pair_cmp. cbn [fst snd].
  destruct (lex _ _); split; congruence.
Qed.

Lemma group_key_cells (r : JoinedRecord) (k : GroupKey) :
  group_key r = Some k <->
  Producer r = Some (fst k) /\ Month r = Some (fst (snd k)) /\
  Channel r = Some (snd (snd k)).
Proof.
  unfold group_key. destruct k as [p [m c]]. simpl.
  destruct (Producer r), (Month r), (Channel r); split;
    try discriminate; try (intros [A [B C]]; discriminate).
  - intros [= -> -> ->]. auto.
  - intros [[= ->] [[= ->] [= ->]]]. reflexivity.
Qed.

(** A row of the Producer that sorts before a row of the group is not
    after the group. *)
Lemma before_group_row (k : GroupKey) (ir ir' : nat * JoinedRecord) :
  row_le ir ir' -> group_key (snd ir') = Some k ->
  producer_is (Some (fst k)) ir = true -> not_after k ir = true.
Proof.
  intros L K P. apply row_le_unfold in L. apply not_after_unfold.
  apply group_key_cells in K. destruct K as [Kp [Km Kc]].
  apply producer_is_same in P. rewrite P, Kp, Km, Kc in L. simpl in L.
  rewrite (cmp_refl str_cmp) in L. simpl in L.
  destruct (na_last period_cmp (Month (snd ir)) (Some (fst (snd k))));
    destruct (na_last Z.compare (Channel (snd ir)) (Some (snd (snd k))));
    simpl in *; congruence.
Qed.

(** A row of the Producer that sorts after a row of the group and is not
    after the group is in the group. *)
Lemma after_group_row (k : GroupKey) (ir ir' : nat * JoinedRecord) :
  row_le ir ir' -> group_key (snd ir) = Some k ->
  producer_is (Some (fst k)) ir' = true -> not_after k ir' = true ->
  group_key (snd ir') = Some k.
Proof.
  intros L K P N. apply row_le_unfold in L. apply not_after_unfold in N.
  apply group_key_cells in K. destruct K as [Kp [Km Kc]].
  apply producer_is_same in P.
  pose proof (@cmp_opp _ (na_last period_cmp) (lawful_na_last _ lawful_period)
                (Month (snd ir')) (Month (snd ir))) as OM.
  pose proof (@cmp_opp _ (na_last Z.compare) (lawful_na_last _ lawful_Z)
                (Channel (snd ir')) (Channel (snd ir))) as OC.
  rewrite OM, OC in L. rewrite P, Kp, Km, Kc in L. cbn [na_last] in L.
  rewrite (cmp_refl str_cmp) in L. cbn [lex] in L.
  apply group_key_cells. split; [exact P |].
  destruct (na_last period_cmp (Month (snd ir')) (Some (fst (snd k)))) eqn:EM;
    simpl in L, N; try congruence.
  destruct (na_last Z.compare (Channel (snd ir')) (Some (snd (snd k)))) eqn:EC;
    simpl in L, N; try congruence.
  split.
  - exact (proj1 (@cmp_eq _ (na_last period_cmp) (lawful_na_last _ lawful_period)
                    _ _) EM).
  - exact (proj1 (@cmp_eq _ (na_last Z.compare) (lawful_na_last _ lawful_Z)
                    _ _) EC).
Qed.

Lemma group_sums_from_nil (k : GroupKey) (seen table : Indexed JoinedRecord)
    (ir : nat * JoinedRecord) :
  group_sums_from k seen table = [] -> In ir table ->
  group_key (snd ir) <> Some k.
Proof.
  unfold group_sums_from. intros E I K.
  rewrite <- (running_sums_rows seen table) in I.
  apply in_map_iff in I. destruct I as [irt [<- I]].
  assert (I' : In (snd irt)
                 (map snd (filter (fun irt => in_group group_key k (fst irt))
                             (running_sums seen table)))).
  { apply in_map, filter_In. split; [exact I | apply in_group_true; exact K]. }
  rewrite E in I'. destruct I'.
Qed.

Lemma viewers_total_cons (p : option string) (ir : nat * JoinedRecord)
    (rows : Indexed JoinedRecord) :
  viewers_total p (ir :: rows)
  = (if producer_is p ir then viewers_or_zero ir else 0) + viewers_total p rows.
Proof.
  unfold viewers_total, values, viewers_or_zero. simpl.
  destruct (producer_is p ir); simpl; [| reflexivity].
  destruct (Viewers (snd ir)); reflexivity.
Qed.

Lemma viewers_total_none (p : option string) (rows : Indexed JoinedRecord) :
  (forall ir, In ir rows -> producer_is p ir = false) -> viewers_total p rows = 0.
Proof.
  intros H. unfold viewers_total. rewrite (filter_none _ _ H). reflexivity.
Qed.

Lemma group_sums_from_cons (k : GroupKey) (seen rest : Indexed JoinedRecord)
    (ir : nat * JoinedRecord) :
  group_sums_from k seen (ir :: rest)
  = (if in_group group_key k ir
     then [viewers_total (Producer (snd ir)) (seen ++ [ir])] else [])
    ++ group_sums_from k (seen ++ [ir]) rest.
Proof.
  unfold group_sums_from. cbn [running_sums filter fst].
  destruct (in_group group_key k ir); reflexivity.
Qed.

Lemma last_app_cons (l ts : list Z) (t d : Z) :
  last (l ++ t :: ts) d = last (t :: ts) d.
Proof.
  induction l as [| a l IH]; [reflexivity |]. simpl.
  destruct (l ++ t :: ts) eqn:El; [destruct l; discriminate | exact IH].
Qed.

(** In a sorted table the running sum on the last row of a group is the
    total of the rows of the Producer that are not after the group. *)
Lemma last_group_sum (k : GroupKey) (d : Z) (table : Indexed JoinedRecord) :
  StronglySorted row_le table ->
  forall seen,
    group_sums_from k seen table <> [] ->
    last (group_sums_from k seen table) d
    = viewers_total (Some (fst k)) seen
      + viewers_total (Some (fst k)) (filter (not_after k) table).
Proof.
  induction 1 as [| ir rest Srest IH Fir]; intros seen NE.
  - destruct NE. reflexivity.
  - rewrite Forall_forall in Fir.
    rewrite group_sums_from_cons in NE |- *.
    destruct (group_sums_from k (seen ++ [ir]) rest) as [| t ts] eqn:Erest.
    + (* the last row of the group is [ir] *)
      rewrite app_nil_r in NE |- *.
      destruct (in_group group_key k ir) eqn:G; [| destruct NE; reflexivity].
      apply in_group_true in G.
      pose proof (proj1 (group_key_cells _ _) G) as [Gp _].
      cbn [last]. rewrite Gp, viewers_total_snoc.
      rewrite (proj2 (producer_is_same (fst k) ir) Gp).
      cbn [filter].
      assert (Nir : not_after k ir = true).
      { apply (before_group_row k ir ir); [| exact G |
          apply producer_is_same; exact Gp].
        unfold row_le, le, leb_of, row_cmp, on_key.
        rewrite (cmp_refl sort_cmp). reflexivity. }
      rewrite Nir, viewers_total_cons.
      rewrite (proj2 (producer_is_same (fst k) ir) Gp).
      rewrite (viewers_total_none (Some (fst k)) (filter (not_after k) rest)); [lia |].
      intros x Ix. apply filter_In in Ix. destruct Ix as [Ix Nx].
      destruct (producer_is (Some (fst k)) x) eqn:Px; [| reflexivity].
      destruct (group_sums_from_nil k _ rest x Erest Ix).
      exact (after_group_row k ir x (Fir x Ix) G Px Nx).
    + (* the last row of the group is in [rest] *)
      assert (NE' : group_sums_from k (seen ++ [ir]) rest <> [])
        by (rewrite Erest; discriminate).
      specialize (IH (seen ++ [ir]) NE'). rewrite Erest in IH.
      rewrite last_app_cons, IH, viewers_total_snoc.
      destruct (group_sums_from_In k (seen ++ [ir]) rest t) as [x [Ix Kx]];
        [rewrite Erest; left; reflexivity |].
      cbn [filter]. destruct (producer_is (Some (fst k)) ir) eqn:Pir.
      * rewrite (before_group_row k ir x (Fir x Ix) Kx Pir).
        rewrite viewers_total_cons, Pir. lia.
      * destruct (not_after k ir); [rewrite viewers_total_cons, Pir |]; lia.
Qed.

Lemma viewers_total_filter_perm (p : option string) (f : nat * JoinedRecord -> bool)
    (l l' : Indexed JoinedRecord) :
  Permutation l l' ->
  viewers_total p (filter f l) = viewers_total p (filter f l').
Proof.
  induction 1 as [| x l l' _ IH | x y l | l l' l'' _ IH1 _ IH2].
  - reflexivity.
  - cbn [filter]. destruct (f x); [rewrite !viewers_total_cons |]; lia.
  - cbn [filter]. destruct (f x), (f y); rewrite ?viewers_total_cons; lia.
  - lia.
Qed.

Lemma cumulative_closed_form (wb : Workbook) (jf : JoinedFrame)
    (summary : list SummaryRow) (s : SummaryRow) :
  joined_frame_of wb = Ok jf ->
  aggregate_data jf = Ok summary ->
  viewers_are_counts (sheet_viewing wb) ->
  In s summary ->
  Cumulative_Viewers s
  = Some (viewers_total (Some (s_Producer s))
            (filter (not_after (summary_key s)) (jf_rows jf))).
Proof.
  intros Hj Ha C Is.
  rewrite (proj2 (cumulative_maximum wb jf summary s Hj Ha Is) C). f_equal.
  pose proof (aggregate_data_rows jf summary Ha) as ->.
  apply aggregate_rows_In in Is. destruct Is as [Ik _].
  change (group_running_sums (summary_key s) (sort_values (jf_rows jf)))
    with (group_sums_from (summary_key s) [] (sort_values (jf_rows jf))).
  rewrite (last_group_sum (summary_key s) 0 (sort_values (jf_rows jf))
             (sort_values_sorted (jf_rows jf)) []).
  - rewrite (viewers_total_filter_perm _ _ _ _ (sort_values_perm (jf_rows jf))).
    reflexivity.
  - exact (group_running_sums_nonempty _ _ Ik).
Qed.

(** X7. When no Viewers cell is negative and the numbers of the joined
    table are within the exact range, the Cumulative_Viewers of the
    record (Producer, Month, Channel) is the total Viewers of all joined
    rows of that Producer whose (Month, Channel) is not after the record's
    in the sort order, nulls last: the rows of the group, the rows of the
    Producer's earlier groups, and the rows of an earlier Month that have
    no Channel.  The order of the rows of the sheets plays no part. *)
Theorem X7_cumulative_is_total_up_to_group (wb : Workbook) (jf : JoinedFrame)
    (summary : list SummaryRow) (s : SummaryRow) :
  joined_frame_of wb = Ok jf ->
  aggregate_data jf = Ok summary ->
  exact_numbers (jf_rows jf) ->
  viewers_are_counts (sheet_viewing wb) ->
  In s summary ->
  Cumulative_Viewers s
  = Some (viewers_total (Some (s_Producer s))
            (filter (not_after (summary_key s)) (jf_rows jf))).
Proof. intros Hj Ha _. exact (cumulative_closed_form wb jf summary s Hj Ha). Qed.

Lemma X7_cumulative_is_total_up_to_group_witness :
  joined_frame_of wb_mixed = Ok jf_mixed /\
  aggregate_data jf_mixed = Ok summary_mixed /\
  exact_numbers (jf_rows jf_mixed) /\
  viewers_are_counts (sheet_viewing wb_mixed) /\
  forall s, In s summary_mixed ->
    Cumulative_Viewers s
    = Some (viewers_total (Some (s_Producer s))
              (filter (not_after (summary_key s)) (jf_rows jf_mixed))).
Proof.
  split; [reflexivity |]. split; [reflexivity |]. split; [reflexivity |].
  split; [exact counts_mixed |].
  intros s Is.
  exact (X7_cumulative_is_total_up_to_group wb_mixed jf_mixed summary_mixed s
           eq_refl eq_refl eq_refl counts_mixed Is).
Defined.

(* ================================================================== *)
(** ** The fields of a record against each other *)

Lemma group_sum_le_total (k : GroupKey) (df : Indexed JoinedRecord) :
  nonnegative df ->
  series_sum (values Viewers (get_group group_key k df))
  <= viewers_total (Some (fst k)) (filter (not_after k) df).
Proof.
  unfold get_group, values.
  induction df as [| ir df IH]; intros N; [simpl; unfold viewers_total; simpl; lia |].
  assert (Ndf : nonnegative df) by (intros x v I; apply N; right; exact I).
  specialize (IH Ndf).
  pose proof (viewers_or_zero_nonneg _ ir N (or_introl eq_refl)) as V.
  cbn [filter]. destruct (in_group group_key k ir) eqn:G.
  - apply in_group_true in G.
    pose proof (proj1 (group_key_cells _ _) G) as [Gp _].
    assert (P : producer_is (Some (fst k)) ir = true)
      by (apply producer_is_same; exact Gp).
    assert (Nir : not_after k ir = true).
    { apply (before_group_row k ir ir); [| exact G | exact P].
      unfold row_le, le, leb_of, row_cmp, on_key.
      rewrite (cmp_refl sort_cmp). reflexivity. }
    rewrite Nir, viewers_total_cons, P. cbn [map series_sum].
    unfold viewers_or_zero in V |- *. destruct (Viewers (snd ir)); lia.
  - destruct (not_after k ir); [rewrite viewers_total_cons |];
      [destruct (producer_is (Some (fst k)) ir) |]; lia.
Qed.

Lemma maximum_le_sum (h : Z) (l : list Z) :
  Forall (fun x => 0 <= x) l -> In h l -> 0 <= h <= list_sum l.
Proof.
  induction 1 as [| x l Hx Hl IH]; simpl; [tauto |].
  assert (S : 0 <= list_sum l).
  { clear IH. induction Hl; simpl; lia. }
  intros [<- | I]; [lia | specialize (IH I); lia].
Qed.

Lemma series_sum_viewers (g : Indexed JoinedRecord) :
  series_sum (values Viewers g) = list_sum (map viewers_or_zero g).
Proof.
  unfold values, viewers_or_zero.
  induction g as [| ir g IH]; simpl; [reflexivity |].
  destruct (Viewers (snd ir)); rewrite IH; reflexivity.
Qed.

Lemma record_fields_ordered (wb : Workbook) (jf : JoinedFrame)
    (summary : list SummaryRow) (s : SummaryRow) :
  joined_frame_of wb = Ok jf ->
  aggregate_data jf = Ok summary ->
  viewers_are_counts (sheet_viewing wb) ->
  In s summary ->
  exists highest cumulative,
    Highest_Viewers s = Some highest /\ Cumulative_Viewers s = Some cumulative /\
    0 <= highest <= Sum_of_Viewers s /\ Sum_of_Viewers s <= cumulative.
Proof.
  intros Hj Ha C Is.
  destruct (peak_and_sum_of_group wb jf summary s Hj Ha Is)
    as [Hg [Hsum [[h [Eh [Ih _]]] _]]].
  destruct (aggregated_frame wb jf summary Hj Ha) as [_ [_ N]].
  specialize (N C).
  exists h, (viewers_total (Some (s_Producer s))
               (filter (not_after (summary_key s)) (jf_rows jf))).
  split; [exact Eh |].
  split; [exact (cumulative_closed_form wb jf summary s Hj Ha C Is) |].
  rewrite Hsum. split.
  - rewrite series_sum_viewers. apply maximum_le_sum; [| exact Ih].
    rewrite Forall_forall. intros x Ix. apply in_map_iff in Ix.
    destruct Ix as [ir [<- Iir]]. apply get_group_In in Iir.
    apply (viewers_or_zero_nonneg (jf_rows jf)); tauto.
  - exact (group_sum_le_total (summary_key s) (jf_rows jf) N).
Qed.

(** X8. When no Viewers cell is negative and the numbers of the joined
    table are within the exact range, every record has
    0 <= Highest_Viewers <= Sum_of_Viewers <= Cumulative_Viewers. *)
Theorem X8_record_fields_ordered (wb : Workbook) (jf : JoinedFrame)
    (summary : list SummaryRow) (s : SummaryRow) :
  joined_frame_of wb = Ok jf ->
  aggregate_data jf = Ok summary ->
  exact_numbers (jf_rows jf) ->
  viewers_are_counts (sheet_viewing wb) ->
  In s summary ->
  exists highest cumulative,
    Highest_Viewers s = Some highest /\ Cumulative_Viewers s = Some cumulative /\
    0 <= highest <= Sum_of_Viewers s /\ Sum_of_Viewers s <= cumulative.
Proof. intros Hj Ha _. exact (record_fields_ordered wb jf summary s Hj Ha). Qed.

Lemma X8_record_fields_ordered_witness :
  joined_frame_of wb_mixed = Ok jf_mixed /\
  aggregate_data jf_mixed = Ok summary_mixed /\
  exact_numbers (jf_rows jf_mixed) /\
  viewers_are_counts (sheet_viewing wb_mixed) /\
  forall s, In s summary_mixed ->
    exists highest cumulative,
      Highest_Viewers s = Some highest /\ Cumulative_Viewers s = Some cumulative /\
      0 <= highest <= Sum_of_Viewers s /\ Sum_of_Viewers s <= cumulative.
Proof.
  split; [reflexivity |]. split; [reflexivity |]. split; [reflexivity |].
  split; [exact counts_mixed |].
  intros s Is.
  exact (X8_record_fields_ordered wb_mixed jf_mixed summary_mixed s
           eq_refl eq_refl eq_refl counts_mixed Is).
Defined.

(* ================================================================== *)
(** ** The viewers of the summary, all records together *)

Lemma list_sum_app (l1 l2 : list Z) : list_sum (l1 ++ l2) = list_sum l1 + list_sum l2.
Proof. induction l1 as [| x l1 IH]; simpl; [reflexivity | rewrite IH; lia]. Qed.

Lemma list_sum_map_add {A : Type} (g h : A -> Z) (l : list A) :
  list_sum (map (fun a => g a + h a) l) = list_sum (map g l) + list_sum (map h l).
Proof. induction l as [| a l IH]; simpl; [reflexivity | rewrite IH; lia]. Qed.

Lemma list_sum_map_mul {A : Type} (c : Z) (g : A -> Z) (l : list A) :
  list_sum (map (fun a => c * g a) l) = c * list_sum (map g l).
Proof. induction l as [| a l IH]; simpl; [lia | rewrite IH; lia]. Qed.

Lemma list_sum_map_ext {A : Type} (g h : A -> Z) (l : list A) :
  (forall a, In a l -> g a = h a) -> list_sum (map g l) = list_sum (map h l).
Proof. intros H. f_equal. apply map_ext_in. exact H. Qed.

Lemma list_sum_filter {A : Type} (d : A -> bool) (g : A -> Z) (l : list A) :
  list_sum (map g (filter d l)) = list_sum (map (fun a => if d a then g a else 0) l).
Proof.
  induction l as [| a l IH]; simpl; [reflexivity |].
  destruct (d a); simpl; rewrite IH; reflexivity.
Qed.

Lemma list_sum_flat_map {A B : Type} (g : B -> Z) (f : A -> list B) (l : list A) :
  list_sum (map g (flat_map f l)) = list_sum (map (fun a => list_sum (map g (f a))) l).
Proof.
  induction l as [| a l IH]; simpl; [reflexivity |].
  rewrite map_app, list_sum_app, IH. reflexivity.
Qed.

Lemma list_sum_const {A : Type} (c : Z) (l : list A) :
  list_sum (map (fun _ => c) l) = Z.of_nat (List.length l) * c.
Proof.
  induction l as [| a l IH]; [simpl; lia |].
  cbn [map list_sum fold_right List.length]. fold (list_sum (map (fun _ : A => c) l)).
  rewrite IH. lia.
Qed.

(** Summing group by group is summing over the rows that have a group,
    when every such row is in the group of exactly one key. *)
Lemma sum_by_groups {A K : Type} (belongs : K -> A -> bool) (dom : A -> bool)
    (g : A -> Z) (keys : list K) (l : list A) :
  (forall a, In a l ->
     list_sum (map (fun k => if belongs k a then 1 else 0) keys)
     = if dom a then 1 else 0) ->
  list_sum (map (fun k => list_sum (map g (filter (belongs k) l))) keys)
  = list_sum (map g (filter dom l)).
Proof.
  induction l as [| a l IH]; intros H.
  - clear H. simpl. induction keys as [| k keys IHk]; simpl; [reflexivity | exact IHk].
  - assert (E : list_sum (map (fun k => list_sum (map g (filter (belongs k) (a :: l)))) keys)
                = list_sum (map (fun k => (if belongs k a then 1 else 0) * g a) keys)
                  + list_sum (map (fun k => list_sum (map g (filter (belongs k) l))) keys)).
    { rewrite <- list_sum_map_add. apply list_sum_map_ext. intros k _.
      cbn [filter]. destruct (belongs k a); unfold list_sum; cbn [map fold_right]; lia. }
    rewrite E, IH by (intros x I; apply H; right; exact I).
    assert (E' : list_sum (map (fun k => (if belongs k a then 1 else 0) * g a) keys)
                 = g a * list_sum (map (fun k => if belongs k a then 1 else 0) keys)).
    { rewrite <- list_sum_map_mul. apply list_sum_map_ext. intros k _. lia. }
    rewrite E', (H a (or_introl eq_refl)). cbn [filter].
    destruct (dom a); unfold list_sum; cbn [map fold_right]; lia.
Qed.

Lemma indicator_none {K : Type} (ind : K -> bool) (keys : list K) :
  (forall k, In k keys -> ind k = false) ->
  list_sum (map (fun k => if ind k then 1 else 0) keys) = 0.
Proof.
  induction keys as [| k keys IH]; intros H; simpl; [reflexivity |].
  rewrite (H k (or_introl eq_refl)), IH; [reflexivity |].
  intros x I. apply H. right. exact I.
Qed.

Lemma indicator_one {K : Type} (ind : K -> bool) (k0 : K) (keys : list K) :
  NoDup keys -> In k0 keys ->
  (forall k, In k keys -> ind k = true <-> k = k0) ->
  list_sum (map (fun k => if ind k then 1 else 0) keys) = 1.
Proof.
  induction 1 as [| k keys Nk ND IH]; intros I H; [destruct I |].
  simpl. destruct I as [-> | I].
  - rewrite (proj2 (H k0 (or_introl eq_refl)) eq_refl).
    rewrite indicator_none; [reflexivity |].
    intros x Ix. destruct (ind x) eqn:E; [| reflexivity].
    apply (H x (or_intror Ix)) in E. subst x. contradiction.
  - destruct (ind k) eqn:E.
    + apply (H k (or_introl eq_refl)) in E. subst k. contradiction.
    + rewrite IH; [reflexivity | exact I |].
      intros x Ix. apply H. right. exact Ix.
Qed.

Lemma sum_of_groups (df : Indexed JoinedRecord) :
  list_sum (map Sum_of_Viewers (aggregate_rows df))
  = list_sum (map (fun ir => grouped_viewers (snd ir)) df).
Proof.
  unfold aggregate_rows. rewrite map_map.
  assert (E : forall k,
            Sum_of_Viewers
              (summary_row (k, (peak_and_sum (get_group group_key k df),
                                cumulative_of k df)))
            = list_sum (map viewers_or_zero (filter (in_group group_key k) df))).
  { intros [p [m c]]. simpl. apply series_sum_viewers. }
  rewrite (list_sum_map_ext _ _ _ (fun k _ => E k)).
  rewrite (sum_by_groups (in_group group_key) (fun ir => has_group_key (snd ir))).
  - rewrite list_sum_filter. apply list_sum_map_ext. intros ir _.
    unfold grouped_viewers, viewers_or_zero. reflexivity.
  - intros ir I. unfold has_group_key, notnull.
    destruct (group_key (snd ir)) as [k0 |] eqn:K.
    + apply (indicator_one _ k0); [apply group_keys_NoDup | |].
      * apply group_keys_In. exists ir. auto.
      * intros k _. rewrite in_group_true, K. split; congruence.
    + apply indicator_none. intros k _.
      destruct (in_group group_key k ir) eqn:G; [| reflexivity].
      apply in_group_true in G. congruence.
Qed.

Lemma grouped_viewers_of_viewing (prod : option string) (v : NormalizedViewingRecord) :
  grouped_viewers (fillna_Producer (of_viewing prod v)) = normalized_viewers v.
Proof.
  unfold grouped_viewers, normalized_viewers, has_group_key, group_key, notnull.
  simpl. destruct (fillna "Unknown" prod) eqn:E; [| destruct prod; discriminate].
  destruct (nv_Month v), (nv_Channel v); reflexivity.
Qed.

Lemma grouped_viewers_of_producer (p : ProducerRecord) :
  grouped_viewers (fillna_Producer (of_producer p)) = 0.
Proof.
  unfold grouped_viewers, has_group_key, group_key, notnull. simpl.
  destruct (fillna "Unknown" (pr_Producer p)); reflexivity.
Qed.

(** The rows one programme has in the join. *)
Lemma block_viewers (ls : list ProducerRecord) (rs : list NormalizedViewingRecord) :
  list_sum (map (fun j => grouped_viewers (fillna_Producer j))
              match ls, rs with
              | [], _ => map (of_viewing None) rs
              | _, [] => map of_producer ls
              | _, _ => flat_map (fun p => map (of_viewing (pr_Producer p)) rs) ls
              end)
  = Z.max 1 (Z.of_nat (List.length ls)) * list_sum (map normalized_viewers rs).
Proof.
  assert (V : forall prod,
            list_sum (map (fun j => grouped_viewers (fillna_Producer j))
                        (map (of_viewing prod) rs))
            = list_sum (map normalized_viewers rs)).
  { intros prod. rewrite map_map. apply list_sum_map_ext. intros v _.
    apply grouped_viewers_of_viewing. }
  destruct ls as [| p ls].
  - rewrite V. cbn [List.length]. change (Z.max 1 (Z.of_nat 0)) with 1. lia.
  - destruct rs as [| v rs].
    + rewrite map_map.
      rewrite (list_sum_map_ext _ (fun _ => 0))
        by (intros q _; apply grouped_viewers_of_producer).
      rewrite list_sum_const. unfold list_sum. cbn [map fold_right]. lia.
    + rewrite list_sum_flat_map.
      rewrite (list_sum_map_ext _ (fun _ => list_sum (map normalized_viewers (v :: rs))))
        by (intros q _; apply V).
      rewrite list_sum_const.
      replace (Z.max 1 (Z.of_nat (List.length (p :: ls))))
        with (Z.of_nat (List.length (p :: ls))); [reflexivity |].
      simpl List.length. lia.
Qed.

Lemma merge_outer_viewers (left : list ProducerRecord)
    (right : list NormalizedViewingRecord) :
  list_sum (map (fun j => grouped_viewers (fillna_Producer j)) (merge_outer left right))
  = list_sum (map (fun v => copies left (nv_Programme v) * normalized_viewers v) right).
Proof.
  unfold merge_outer. rewrite list_sum_flat_map.
  set (keys := sorted_unique str_cmp (map pr_Programme left ++ map nv_Programme right)).
  rewrite (list_sum_map_ext _
             (fun k => list_sum
                         (map (fun v => copies left (nv_Programme v) * normalized_viewers v)
                            (filter (fun v => String.eqb (nv_Programme v) k) right)))).
  - rewrite (sum_by_groups (fun k v => String.eqb (nv_Programme v) k) (fun _ => true)).
    + rewrite list_sum_filter. reflexivity.
    + intros v Iv. apply (indicator_one _ (nv_Programme v)).
      * apply (strictly_sorted_NoDup str_cmp). apply (sorted_unique_sorted str_cmp).
      * apply (sorted_unique_In str_cmp), in_or_app. right. apply in_map. exact Iv.
      * intros k _. rewrite String.eqb_eq. split; congruence.
  - intros k _. rewrite block_viewers.
    rewrite <- list_sum_map_mul. apply list_sum_map_ext.
    intros v Iv. apply filter_In in Iv. destruct Iv as [_ Ek].
    apply String.eqb_eq in Ek. unfold copies, producers_of. rewrite Ek. reflexivity.
Qed.

Lemma list_sum_range_index {A : Type} (g : A -> Z) (l : list A) :
  list_sum (map (fun ir => g (snd ir)) (range_index l)) = list_sum (map g l).
Proof.
  rewrite <- (range_index_values l) at 2. rewrite map_map. reflexivity.
Qed.

Lemma normalized_viewers_of_raw (raw : ViewingRecord) :
  normalized_viewers (preprocess_row true raw)
  = if counted raw then raw_viewers raw else 0.
Proof.
  unfold normalized_viewers, counted, raw_viewers, notnull. simpl.
  destruct (vr_Date raw), (vr_Channel raw), (vr_Viewers raw); reflexivity.
Qed.

Lemma summary_total (wb : Workbook) (summary : list SummaryRow) :
  summary_of wb = Ok summary ->
  list_sum (map Sum_of_Viewers summary)
  = list_sum (map (broadcast_share (producer_rows (sheet_producers wb)))
                (viewing_rows (sheet_viewing wb))).
Proof.
  intros Hs. destruct (summary_of_ok wb summary Hs) as [jf [Hj Ha]].
  destruct (joined_frame_of_ok wb jf Hj) as [nf [Hp Hm]].
  destruct (pipeline_flags _ _ _ _ _ Hp Hm Ha) as [P [_ V]].
  pose proof (aggregate_data_rows jf summary Ha) as ->.
  rewrite sum_of_groups.
  apply merge_data_ok in Hm. destruct Hm as [_ ->].
  apply preprocess_data_ok in Hp. destruct Hp as [_ [_ [_ [_ ->]]]].
  cbn [jf_rows nf_rows]. rewrite P, V. cbn [fill_producers].
  rewrite (list_sum_range_index grouped_viewers), map_map, merge_outer_viewers, map_map.
  apply list_sum_map_ext. intros raw _.
  rewrite normalized_viewers_of_raw. unfold broadcast_share.
  destruct (counted raw); [reflexivity | lia].
Qed.

(** X9. For a workbook whose numbers are within the exact range, the
    Sum_of_Viewers of all records together is the Viewers of the
    broadcasts that have a Date that parses and a Channel, each counted
    once for every producer row of its (stripped) Programme and once when
    it has none; a broadcast without Viewers counts 0.  So a programme with
    two producer rows has its viewers in the summary twice, and with at
    most one producer row per programme no viewer is lost or counted
    twice. *)
Theorem X9_sum_of_viewers_total (wb : Workbook) (summary : list SummaryRow) :
  summary_of wb = Ok summary ->
  exact_workbook wb ->
  list_sum (map Sum_of_Viewers summary)
  = list_sum (map (broadcast_share (producer_rows (sheet_producers wb)))
                (viewing_rows (sheet_viewing wb))).
Proof. intros Hs _. exact (summary_total wb summary Hs). Qed.

Lemma X9_sum_of_viewers_total_witness :
  summary_of wb_mixed = Ok summary_mixed /\
  exact_workbook wb_mixed /\
  list_sum (map Sum_of_Viewers summary_mixed)
  = list_sum (map (broadcast_share (producer_rows (sheet_producers wb_mixed)))
                (viewing_rows (sheet_viewing wb_mixed))).
Proof.
  assert (E : exact_workbook wb_mixed) by reflexivity.
  split; [reflexivity |]. split; [exact E |].
  exact (X9_sum_of_viewers_total wb_mixed summary_mixed eq_refl E).
Defined.

(* ================================================================== *)
(** ** Programme texts with surrounding whitespace *)

Lemma rstrip_cons (c : ascii) (s : string) :
  rstrip (String c s) =
  match rstrip s with
  | EmptyString => if is_space c then EmptyString else String c EmptyString
  | String d EmptyString =>
      if is_space2 c d then EmptyString else String c (String d EmptyString)
  | String d (String e EmptyString) =>
      if is_space3 c d e then EmptyString
      else String c (String d (String e EmptyString))
  | t => String c t
  end.
Proof. reflexivity. Qed.

(** [rstrip] drops everything, or keeps the first byte before what it
    leaves of the rest. *)
Lemma rstrip_cases (c : ascii) (s : string) :
  rstrip (String c s) = EmptyString \/
  rstrip (String c s) = String c (rstrip s).
Proof.
  rewrite rstrip_cons.
  destruct (rstrip s) as [| d [| e [| f t]]].
  - destruct (is_space c); auto.
  - destruct (is_space2 c d); auto.
  - destruct (is_space3 c d e); auto.
  - auto.
Qed.

Lemma rstrip_idempotent (s : string) : rstrip (rstrip s) = rstrip s.
Proof.
  induction s as [| c s IH]; [reflexivity |].
  destruct (rstrip_cases c s) as [E | E]; rewrite E; [reflexivity |].
  rewrite rstrip_cons, IH, <- rstrip_cons. exact E.
Qed.

(** What [rstrip] leaves is the beginning of the text. *)
Lemma rstrip_prefix (s : string) : exists w, s = (rstrip s ++ w)%string.
Proof.
  induction s as [| c s [w IH]]; [exists EmptyString; reflexivity |].
  destruct (rstrip_cases c s) as [E | E]; rewrite E.
  - exists (String c s). reflexivity.
  - exists w. cbn [String.append]. rewrite <- IH. reflexivity.
Qed.

Lemma lstrip_unfold (s : string) :
  lstrip s = match after_space s with
             | Some rest => lstrip rest
             | None => s
             end.
Proof.
  destruct s as [| c s1]; [reflexivity |].
  cbn [lstrip after_space]. destruct (is_space c); [reflexivity |].
  destruct s1 as [| d s2]; [reflexivity |].
  destruct (is_space2 c d); [reflexivity |].
  destruct s2 as [| e s3]; [reflexivity |].
  destruct (is_space3 c d e); reflexivity.
Qed.

Lemma after_space_shorter (s rest : string) :
  after_space s = Some rest -> (String.length rest < String.length s)%nat.
Proof.
  destruct s as [| c s1]; [discriminate |].
  cbn [after_space]. destruct (is_space c); [intros [= <-]; simpl; lia |].
  destruct s1 as [| d s2]; [discriminate |].
  destruct (is_space2 c d); [intros [= <-]; simpl; lia |].
  destruct s2 as [| e s3]; [discriminate |].
  destruct (is_space3 c d e); [intros [= <-]; simpl; lia | discriminate].
Qed.

(** What [lstrip] leaves does not start with whitespace. *)
Lemma lstrip_no_space (s : string) : after_space (lstrip s) = None.
Proof.
  assert (H : forall n s, (String.length s < n)%nat -> after_space (lstrip s) = None).
  { intros n. induction n as [| n IH]; intros t L; [lia |].
    rewrite lstrip_unfold. destruct (after_space t) as [rest |] eqn:E; [| exact E].
    apply IH. apply after_space_shorter in E. lia. }
  exact (H (S (String.length s)) s (Nat.lt_succ_diag_r _)).
Qed.

Lemma lstrip_fixed (s : string) : after_space s = None -> lstrip s = s.
Proof. intros H. rewrite lstrip_unfold, H. reflexivity. Qed.

Lemma after_space_app (b w rest : string) :
  after_space b = Some rest ->
  after_space (b ++ w)%string = Some (rest ++ w)%string.
Proof.
  destruct b as [| c s1]; [discriminate |].
  cbn [after_space String.append]. destruct (is_space c); [intros [= <-]; reflexivity |].
  destruct s1 as [| d s2]; [discriminate |].
  cbn [String.append]. destruct (is_space2 c d); [intros [= <-]; reflexivity |].
  destruct s2 as [| e s3]; [discriminate |].
  cbn [String.append]. destruct (is_space3 c d e);
    [intros [= <-]; reflexivity | discriminate].
Qed.

Lemma after_space_rstrip (s : string) :
  after_space s = None -> after_space (rstrip s) = None.
Proof.
  intros H. destruct (after_space (rstrip s)) as [rest |] eqn:E; [| reflexivity].
  destruct (rstrip_prefix s) as [w Hw].
  apply (after_space_app _ w) in E. rewrite <- Hw in E. congruence.
Qed.

(** Whitespace beyond ASCII is stripped as well, from both ends. *)
Lemma strip_unicode_whitespace :
  strip (em_space ++ " Show A" ++ no_break_space)%string = "Show A"%string.
Proof. reflexivity. Qed.

(** Stripping a stripped text changes nothing. *)
Lemma strip_idempotent (s : string) : strip (strip s) = strip s.
Proof.
  unfold strip.
  rewrite (lstrip_fixed (rstrip (lstrip s)))
    by (apply after_space_rstrip, lstrip_no_space).
  apply rstrip_idempotent.
Qed.

Lemma joined_rows_In_any (ps : ProducerSheet) (nf : NormalizedFrame)
    (jf : JoinedFrame) (j : JoinedRecord) :
  merge_data ps nf = Ok jf ->
  (exists i, In (i, j) (jf_rows jf)) ->
  exists j0, In j0 (merge_outer (producer_rows ps) (nf_rows nf)) /\
             Programme j = Programme j0 /\ Date j = Date j0 /\
             Territory j = Territory j0 /\ Channel j = Channel j0 /\
             Viewers j = Viewers j0 /\ Month j = Month j0.
Proof.
  intros H. apply merge_data_ok in H. destruct H as [_ ->]. simpl.
  rewrite <- range_index_In. unfold fill_producers.
  destruct (has_pr_Producer ps).
  - rewrite in_map_iff. intros [j0 [<- I]]. exists j0. simpl. tauto.
  - intros I. exists j. tauto.
Qed.

(** X10. Only the viewing sheet has its Programme stripped, so a joined
    row whose Programme text has leading or trailing whitespace comes from
    the producers sheet alone: it carries no broadcast (Date, Territory,
    Channel, Viewers and Month are null), whatever the viewing sheet holds.
    A producer row written with such a Programme is never matched. *)
Theorem X10_padded_programme_is_never_matched (df : ViewingSheet)
    (ps : ProducerSheet) (nf : NormalizedFrame) (jf : JoinedFrame)
    (i : nat) (j : JoinedRecord) :
  preprocess_data df = Ok nf ->
  merge_data ps nf = Ok jf ->
  In (i, j) (jf_rows jf) ->
  strip (Programme j) <> Programme j ->
  Date j = None /\ Territory j = None /\ Channel j = None /\
  Viewers j = None /\ Month j = None.
Proof.
  intros Hp Hm I S.
  destruct (joined_rows_In_any ps nf jf j Hm (ex_intro _ i I))
    as [j0 [I0 [Ep [Ed [Et [Ec [Ev Em]]]]]]].
  rewrite Ed, Et, Ec, Ev, Em. rewrite Ep in S.
  apply preprocess_data_ok in Hp. destruct Hp as [_ [_ [_ [_ ->]]]].
  simpl in I0. apply merge_outer_In in I0.
  assert (V : forall prod v,
            In v (map (preprocess_row (has_Viewers df)) (viewing_rows df)) ->
            j0 = of_viewing prod v -> False).
  { intros prod v Iv ->. apply in_map_iff in Iv. destruct Iv as [raw [<- _]].
    simpl in S. apply S. apply strip_idempotent. }
  destruct I0 as [[p [v [_ [Iv [_ E]]]]] | [[v [Iv [_ E]]] | [p [_ [_ ->]]]]].
  - destruct (V _ v Iv E).
  - destruct (V _ v Iv E).
  - simpl. auto.
Qed.

Lemma X10_padded_programme_is_never_matched_witness :
  exists nf,
    preprocess_data (sheet_viewing wb_padded_producer) = Ok nf /\
    merge_data (sheet_producers wb_padded_producer) nf = Ok jf_padded_producer /\
    In (0%nat, fillna_Producer (of_producer (producer " Show A" "Acme")))
      (jf_rows jf_padded_producer) /\
    strip " Show A" <> " Show A" /\
    Date (fillna_Producer (of_producer (producer " Show A" "Acme"))) = None.
Proof.
  eexists. split; [reflexivity |].
  assert (M : merge_data (sheet_producers wb_padded_producer)
                {| nf_has_Channel := true; nf_has_Viewers := true;
                   nf_rows := map (preprocess_row true)
                                (viewing_rows (sheet_viewing wb_padded_producer)) |}
              = Ok jf_padded_producer) by reflexivity.
  assert (I : In (0%nat, fillna_Producer (of_producer (producer " Show A" "Acme")))
                (jf_rows jf_padded_producer)) by (left; reflexivity).
  assert (S : strip " Show A" <> " Show A") by (vm_compute; discriminate).
  split; [exact M |]. split; [exact I |]. split; [exact S |].
  exact (proj1 (X10_padded_programme_is_never_matched
                  (sheet_viewing wb_padded_producer)
                  (sheet_producers wb_padded_producer) _ jf_padded_producer
                  0%nat _ eq_refl M I S)).
Defined.

(* ================================================================== *)
(** ** The order of the rows of the sheets *)

Lemma filter_perm {A : Type} (f : A -> bool) (l l' : list A) :
  Permutation l l' -> Permutation (filter f l) (filter f l').
Proof.
  induction 1 as [| x l l' _ IH | x y l | l l' l'' _ IH1 _ IH2]; cbn [filter].
  - constructor.
  - destruct (f x); [constructor |]; exact IH.
  - destruct (f x), (f y); try apply Permutation_refl. apply perm_swap.
  - eapply Permutation_trans; eassumption.
Qed.

Lemma flat_map_perm {A B : Type} (f g : A -> list B) (l : list A) :
  (forall a, Permutation (f a) (g a)) ->
  Permutation (flat_map f l) (flat_map g l).
Proof.
  intros H. induction l as [| a l IH]; simpl; [constructor |].
  apply Permutation_app; [apply H | exact IH].
Qed.

Lemma block_perm (ls ls' : list ProducerRecord)
    (rs rs' : list NormalizedViewingRecord) :
  Permutation ls ls' -> Permutation rs rs' ->
  Permutation
    match ls, rs with
    | [], _ => map (of_viewing None) rs
    | _, [] => map of_producer ls
    | _, _ => flat_map (fun p => map (of_viewing (pr_Producer p)) rs) ls
    end
    match ls', rs' with
    | [], _ => map (of_viewing None) rs'
    | _, [] => map of_producer ls'
    | _, _ => flat_map (fun p => map (of_viewing (pr_Producer p)) rs') ls'
    end.
Proof.
  intros L R. destruct ls as [| a ls].
  - apply Permutation_nil in L. subst ls'. apply Permutation_map. exact R.
  - destruct ls' as [| a' ls'];
      [apply Permutation_sym, Permutation_nil in L; discriminate |].
    destruct rs as [| b rs].
    + apply Permutation_nil in R. subst rs'. apply Permutation_map. exact L.
    + destruct rs' as [| b' rs'];
        [apply Permutation_sym, Permutation_nil in R; discriminate |].
      apply Permutation_trans
        with (flat_map (fun p => map (of_viewing (pr_Producer p)) (b :: rs))
                (a' :: ls')).
      * apply Permutation_flat_map. exact L.
      * apply flat_map_perm. intros p. apply Permutation_map. exact R.
Qed.

(** The outer merge of reordered sheets has the same rows, reordered. *)
Lemma merge_outer_perm (L L' : list ProducerRecord)
    (R R' : list NormalizedViewingRecord) :
  Permutation L L' -> Permutation R R' ->
  Permutation (merge_outer L R) (merge_outer L' R').
Proof.
  intros HL HR. unfold merge_outer.
  rewrite (sorted_unique_ext str_cmp
             (map pr_Programme L ++ map nv_Programme R)
             (map pr_Programme L' ++ map nv_Programme R')).
  - apply flat_map_perm. intros k. apply block_perm; apply filter_perm; assumption.
  - intros k. rewrite !in_app_iff.
    pose proof (Permutation_map pr_Programme HL) as PL.
    pose proof (Permutation_map nv_Programme HR) as PR.
    split; intros [I | I].
    + left. exact (Permutation_in _ PL I).
    + right. exact (Permutation_in _ PR I).
    + left. exact (Permutation_in _ (Permutation_sym PL) I).
    + right. exact (Permutation_in _ (Permutation_sym PR) I).
Qed.

Lemma series_sum_perm (l l' : list (option Z)) :
  Permutation l l' -> series_sum l = series_sum l'.
Proof.
  induction 1 as [| x l l' _ IH | x y l | l l' l'' _ IH1 _ IH2].
  - reflexivity.
  - destruct x; cbn [series_sum]; lia.
  - destruct x, y; cbn [series_sum]; lia.
  - congruence.
Qed.

Lemma series_max_perm (l l' : list (option Z)) :
  Permutation l l' -> series_max l = series_max l'.
Proof.
  induction 1 as [| x l l' _ IH | x y l | l l' l'' _ IH1 _ IH2].
  - reflexivity.
  - cbn [series_max]. rewrite IH. reflexivity.
  - cbn [series_max].
    destruct x as [a |], y as [b |], (series_max l) as [m |];
      try reflexivity; f_equal; lia.
  - congruence.
Qed.

(** A filter that does not read the labels, on the rows without labels. *)
Lemma map_snd_filter {A : Type} (f : nat * A -> bool) (df : Indexed A) :
  (forall i j a, f (i, a) = f (j, a)) ->
  map snd (filter f df) = filter (fun a => f (0%nat, a)) (map snd df).
Proof.
  intros H. induction df as [| [i a] df IH]; [reflexivity |].
  cbn [filter map snd]. rewrite (H i 0%nat a).
  destruct (f (0%nat, a)); cbn [map snd]; rewrite IH; reflexivity.
Qed.

Lemma get_group_perm (k : GroupKey) (df df' : Indexed JoinedRecord) :
  Permutation (map snd df) (map snd df') ->
  Permutation (map snd (get_group group_key k df))
              (map snd (get_group group_key k df')).
Proof.
  intros P. unfold get_group.
  rewrite !map_snd_filter by reflexivity. apply filter_perm, P.
Qed.

Lemma group_keys_perm (df df' : Indexed JoinedRecord) :
  Permutation (map snd df) (map snd df') ->
  group_keys group_key df = group_keys group_key df'.
Proof.
  intros P. unfold group_keys. apply (sorted_unique_ext group_cmp). intros k.
  rewrite !dropna_In.
  rewrite <- (map_map snd group_key df), <- (map_map snd group_key df').
  pose proof (Permutation_map group_key P) as Q.
  split; intros I.
  - exact (Permutation_in _ Q I).
  - exact (Permutation_in _ (Permutation_sym Q) I).
Qed.

Lemma values_rows {A B : Type} (f : A -> B) (df : Indexed A) :
  values f df = map f (map snd df).
Proof. unfold values. rewrite map_map. reflexivity. Qed.

Lemma viewers_total_perm (p : option string) (k : GroupKey)
    (df df' : Indexed JoinedRecord) :
  Permutation (map snd df) (map snd df') ->
  viewers_total p (filter (not_after k) df)
  = viewers_total p (filter (not_after k) df').
Proof.
  intros P. unfold viewers_total. rewrite !values_rows.
  rewrite !(map_snd_filter (producer_is p)) by reflexivity.
  rewrite !(map_snd_filter (not_after k)) by reflexivity.
  apply series_sum_perm, Permutation_map, filter_perm, filter_perm, P.
Qed.

Lemma str_le_antisym (a b : string) :
  str_cmp a b <> Gt -> str_cmp b a <> Gt -> a = b.
Proof.
  intros H1 H2. apply (cmp_eq str_cmp).
  rewrite (cmp_opp str_cmp a b) in H2.
  destruct (str_cmp a b); simpl in H2; congruence.
Qed.

(** The greatest Programme text of a group does not depend on where its
    rows stand. *)
Lemma top_programme_perm (g g' : Indexed JoinedRecord) :
  g <> [] -> NoDup (map fst g) -> NoDup (map fst g') ->
  Permutation (map snd g) (map snd g') ->
  top_programme (column Programme g) = top_programme (column Programme g').
Proof.
  intros NE ND ND' P.
  assert (NE' : g' <> []).
  { intros ->. apply Permutation_sym, Permutation_nil in P.
    apply map_eq_nil in P. exact (NE P). }
  assert (Labels : forall x : Indexed JoinedRecord,
            map fst (column Programme x) = map fst x).
  { intros x. unfold column. rewrite map_map. reflexivity. }
  assert (Texts : forall x : Indexed JoinedRecord,
            map snd (column Programme x) = map Programme (map snd x)).
  { intros x. unfold column. rewrite !map_map. reflexivity. }
  assert (Top : forall x : Indexed JoinedRecord, x <> [] -> NoDup (map fst x) ->
            exists t, top_programme (column Programme x) = Some t /\
                      In t (map Programme (map snd x)) /\
                      forall w, In w (map Programme (map snd x)) ->
                                str_cmp w t <> Gt).
  { intros x Nx Dx.
    destruct (top_programme_greatest (column Programme x)) as [t [Et [It G]]].
    - unfold column. intros E. apply map_eq_nil in E. exact (Nx E).
    - rewrite Labels. exact Dx.
    - exists t. rewrite <- Texts. split; [exact Et |]. split; [exact It |].
      intros w Iw. apply in_map_iff in Iw. destruct Iw as [iw [<- Iw]].
      apply G. exact Iw. }
  destruct (Top g NE ND) as [t [-> [It G]]].
  destruct (Top g' NE' ND') as [t' [-> [It' G']]].
  pose proof (Permutation_map Programme P) as Q.
  f_equal. apply str_le_antisym.
  - apply G'. exact (Permutation_in _ Q It).
  - apply G. exact (Permutation_in _ (Permutation_sym Q) It').
Qed.

Lemma joined_labels (wb : Workbook) (jf : JoinedFrame) :
  joined_frame_of wb = Ok jf -> NoDup (map fst (jf_rows jf)).
Proof.
  intros Hj. destruct (joined_frame_of_ok wb jf Hj) as [nf [_ Hm]].
  apply merge_data_ok in Hm. destruct Hm as [_ ->]. apply range_index_labels.
Qed.

Lemma cumulative_of_closed_form (wb : Workbook) (jf : JoinedFrame)
    (summary : list SummaryRow) (k : GroupKey) :
  joined_frame_of wb = Ok jf ->
  aggregate_data jf = Ok summary ->
  viewers_are_counts (sheet_viewing wb) ->
  In k (group_keys group_key (jf_rows jf)) ->
  cumulative_of k (jf_rows jf)
  = Some (viewers_total (Some (fst k)) (filter (not_after k) (jf_rows jf))).
Proof.
  intros Hj Ha C Ik.
  pose (s := summary_row (k, (peak_and_sum (get_group group_key k (jf_rows jf)),
                              cumulative_of k (jf_rows jf)))).
  assert (Is : In s summary).
  { rewrite (aggregate_data_rows jf summary Ha). unfold aggregate_rows.
    apply in_map_iff. exists k. split; [reflexivity | exact Ik]. }
  pose proof (cumulative_closed_form wb jf summary s Hj Ha C Is) as E.
  unfold s in E. rewrite summary_key_row, cumulative_row in E.
  destruct k as [p [m c]]. exact E.
Qed.

(** Two accepted workbooks whose joined rows are the same up to their
    order have the same summary, when no Viewers cell is negative. *)
Lemma summary_of_reordered (wb wb' : Workbook) (jf jf' : JoinedFrame)
    (summary summary' : list SummaryRow) :
  joined_frame_of wb = Ok jf -> aggregate_data jf = Ok summary ->
  joined_frame_of wb' = Ok jf' -> aggregate_data jf' = Ok summary' ->
  viewers_are_counts (sheet_viewing wb) ->
  viewers_are_counts (sheet_viewing wb') ->
  Permutation (map snd (jf_rows jf)) (map snd (jf_rows jf')) ->
  summary = summary'.
Proof.
  intros Hj Ha Hj' Ha' C C' P.
  rewrite (aggregate_data_rows jf summary Ha).
  rewrite (aggregate_data_rows jf' summary' Ha').
  unfold aggregate_rows.
  pose proof (group_keys_perm _ _ P) as K. rewrite <- K.
  apply map_ext_in. intros k Ik.
  assert (Ik' : In k (group_keys group_key (jf_rows jf')))
    by (rewrite <- K; exact Ik).
  pose proof (get_group_perm k _ _ P) as G.
  assert (Epk : peak_and_sum (get_group group_key k (jf_rows jf))
                = peak_and_sum (get_group group_key k (jf_rows jf'))).
  { unfold peak_and_sum. rewrite !values_rows.
    pose proof (Permutation_map Viewers G) as V.
    rewrite (series_max_perm _ _ V), (series_sum_perm _ _ V).
    rewrite (top_programme_perm _ (get_group group_key k (jf_rows jf'))).
    - reflexivity.
    - apply get_group_nonempty. exact Ik.
    - apply NoDup_filter_labels, (joined_labels wb), Hj.
    - apply NoDup_filter_labels, (joined_labels wb'), Hj'.
    - exact G. }
  rewrite Epk.
  rewrite (cumulative_of_closed_form wb jf summary k Hj Ha C Ik).
  rewrite (cumulative_of_closed_form wb' jf' summary' k Hj' Ha' C' Ik').
  rewrite (viewers_total_perm _ k _ _ P). reflexivity.
Qed.

(** The join of a workbook and of the workbook with its rows reordered:
    the same exception, or the same columns and the same rows, reordered. *)
Lemma joined_frame_reordered (wb : Workbook) (vs : list ViewingRecord)
    (ps : list ProducerRecord) :
  Permutation (viewing_rows (sheet_viewing wb)) vs ->
  Permutation (producer_rows (sheet_producers wb)) ps ->
  match joined_frame_of wb, joined_frame_of (with_rows vs ps wb) with
  | Ok jf, Ok jf' =>
      jf_has_Producer jf' = jf_has_Producer jf /\
      jf_has_Channel jf' = jf_has_Channel jf /\
      jf_has_Viewers jf' = jf_has_Viewers jf /\
      Permutation (map snd (jf_rows jf)) (map snd (jf_rows jf'))
  | Raise e, Raise e' => e = e'
  | _, _ => False
  end.
Proof.
  intros PV PP.
  destruct wb as [[d p t c v tp tt rows] [pp pr tpp prods]]. simpl in PV, PP.
  unfold joined_frame_of, load_data, with_rows.
  cbn [bind sheet_viewing sheet_producers fst snd].
  rewrite !preprocess_data_cases.
  cbn [has_Date has_Programme has_Territory has_Channel has_Viewers
       Programme_is_text Territory_is_text viewing_rows].
  destruct d; cbn [negb bind]; [| reflexivity].
  destruct rows as [| r rows].
  - apply Permutation_nil in PV. subst vs. reflexivity.
  - destruct vs as [| r' vs];
      [apply Permutation_sym, Permutation_nil in PV; discriminate |].
    destruct p; cbn [negb bind]; [| reflexivity].
    destruct tp; cbn [negb bind]; [| reflexivity].
    destruct t; cbn [negb bind]; [| reflexivity].
    destruct tt; cbn [negb bind]; [| reflexivity].
    rewrite !merge_data_cases.
    cbn [has_pr_Programme has_pr_Producer pr_Programme_is_text producer_rows
         nf_has_Channel nf_has_Viewers nf_rows].
    destruct pp; cbn [negb]; [| reflexivity].
    assert (E : forall (l : list ProducerRecord) (x : ViewingRecord)
                  (xs : list ViewingRecord),
              match l, map (preprocess_row v) (x :: xs) with
              | _ :: _, _ :: _ => negb tpp
              | _, _ => false
              end = match l with [] => false | _ :: _ => negb tpp end)
      by (intros [| a l] x xs; reflexivity).
    rewrite !E.
    assert (N : match prods with [] => false | _ :: _ => negb tpp end
                = match ps with [] => false | _ :: _ => negb tpp end).
    { destruct prods as [| a prods].
      - apply Permutation_nil in PP. subst ps. reflexivity.
      - destruct ps as [| a' ps];
          [apply Permutation_sym, Permutation_nil in PP; discriminate |].
        reflexivity. }
    rewrite <- N.
    destruct (match prods with [] => false | _ :: _ => negb tpp end);
      [reflexivity |].
    cbn [jf_has_Producer jf_has_Channel jf_has_Viewers jf_rows].
    repeat split. rewrite !range_index_values.
    pose proof (merge_outer_perm _ _ _ _ PP
                  (Permutation_map (preprocess_row v) PV)) as M.
    unfold fill_producers. destruct pr; [apply Permutation_map |]; exact M.
Qed.

Lemma summary_of_with_rows (wb : Workbook) (vs : list ViewingRecord)
    (ps : list ProducerRecord) :
  Permutation (viewing_rows (sheet_viewing wb)) vs ->
  Permutation (producer_rows (sheet_producers wb)) ps ->
  viewers_are_counts (sheet_viewing wb) ->
  summary_of (with_rows vs ps wb) = summary_of wb.
Proof.
  intros PV PP C.
  assert (C' : viewers_are_counts (sheet_viewing (with_rows vs ps wb))).
  { unfold viewers_are_counts in *. simpl.
    exact (Permutation_Forall PV C). }
  pose proof (joined_frame_reordered wb vs ps PV PP) as J.
  unfold summary_of.
  destruct (joined_frame_of wb) as [jf | e] eqn:Hj;
    destruct (joined_frame_of (with_rows vs ps wb)) as [jf' | e'] eqn:Hj';
    try contradiction; cbn [bind]; [| congruence].
  destruct J as [FP [FC [FV P]]].
  destruct (aggregate_data jf) as [summary | e] eqn:Ha.
  - destruct (aggregate_data_flags jf summary Ha) as [TP [TC TV]].
    rewrite <- FP in TP. rewrite <- FC in TC. rewrite <- FV in TV.
    pose proof (aggregate_data_ok jf' TP TC TV) as Ha'.
    rewrite Ha'. f_equal. symmetry.
    exact (summary_of_reordered wb (with_rows vs ps wb) jf jf' _ _
             Hj Ha Hj' Ha' C C' P).
  - unfold aggregate_data, require_column in Ha |- *.
    rewrite FP, FC, FV.
    destruct (jf_has_Producer jf), (jf_has_Channel jf), (jf_has_Viewers jf);
      cbn [bind] in Ha |- *; try discriminate Ha; exact Ha.
Qed.

(** X11. When no Viewers cell is negative and the numbers of the workbook
    are within the exact range, the order of the rows of the two sheets is
    immaterial: the workbook with the rows of its sheets in any other order
    gives the same result, that is the same exception, or the same records
    written in the same order. *)
Theorem X11_row_order_is_immaterial (wb : Workbook) (vs : list ViewingRecord)
    (ps : list ProducerRecord) (file : File) :
  Permutation (viewing_rows (sheet_viewing wb)) vs ->
  Permutation (producer_rows (sheet_producers wb)) ps ->
  exact_workbook wb ->
  viewers_are_counts (sheet_viewing wb) ->
  process_and_save_data (with_rows vs ps wb) file
  = process_and_save_data wb file.
Proof.
  intros PV PP _ C. unfold process_and_save_data, final_summary_of.
  rewrite (summary_of_with_rows wb vs ps PV PP C). reflexivity.
Qed.

Lemma X11_row_order_is_immaterial_witness :
  Permutation (viewing_rows (sheet_viewing wb_mixed))
    (rev (viewing_rows (sheet_viewing wb_mixed))) /\
  Permutation (producer_rows (sheet_producers wb_mixed))
    (rev (producer_rows (sheet_producers wb_mixed))) /\
  exact_workbook wb_mixed /\
  viewers_are_counts (sheet_viewing wb_mixed) /\
  process_and_save_data
    (with_rows (rev (viewing_rows (sheet_viewing wb_mixed)))
       (rev (producer_rows (sheet_producers wb_mixed))) wb_mixed) None
  = process_and_save_data wb_mixed None.
Proof.
  assert (E : exact_workbook wb_mixed) by reflexivity.
  split; [apply Permutation_rev |]. split; [apply Permutation_rev |].
  split; [exact E |]. split; [exact counts_mixed |].
  exact (X11_row_order_is_immaterial wb_mixed _ _ None
           (Permutation_rev _) (Permutation_rev _) E counts_mixed).
Defined.

(* ================================================================== *)
(** ** The Territory column *)

Lemma filter_map_comm {A B : Type} (h : A -> B) (f : B -> bool) (l : list A) :
  filter f (map h l) = map h (filter (fun a => f (h a)) l).
Proof.
  induction l as [| a l IH]; [reflexivity |].
  cbn [map filter]. destruct (f (h a)); cbn [map]; rewrite IH; reflexivity.
Qed.

Lemma map_flat_map_comm {A B C : Type} (g : B -> C) (h : A -> list B)
    (l : list A) :
  map g (flat_map h l) = flat_map (fun a => map g (h a)) l.
Proof.
  induction l as [| a l IH]; [reflexivity |].
  cbn [flat_map]. rewrite map_app, IH. reflexivity.
Qed.

Section RowChange.
Variable g : JoinedRecord -> JoinedRecord.
Hypothesis g_Programme : forall r, Programme (g r) = Programme r.
Hypothesis g_Producer : forall r, Producer (g r) = Producer r.
Hypothesis g_Date : forall r, Date (g r) = Date r.
Hypothesis g_Channel : forall r, Channel (g r) = Channel r.
Hypothesis g_Viewers : forall r, Viewers (g r) = Viewers r.
Hypothesis g_Month : forall r, Month (g r) = Month r.

Lemma group_key_on_rows (r : JoinedRecord) : group_key (g r) = group_key r.
Proof. unfold group_key. rewrite g_Producer, g_Month, g_Channel. reflexivity. Qed.

Lemma row_cmp_on_rows (x y : nat * JoinedRecord) :
  row_cmp (fst x, g (snd x)) (fst y, g (snd y)) = row_cmp x y.
Proof.
  unfold row_cmp, on_key, sort_key. cbn [snd].
  rewrite !g_Producer, !g_Month, !g_Channel, !g_Date. reflexivity.
Qed.

Lemma group_keys_on_rows (df : Indexed JoinedRecord) :
  group_keys group_key (on_rows g df) = group_keys group_key df.
Proof.
  unfold group_keys, on_rows. rewrite map_map. f_equal. f_equal.
  apply map_ext. intros ir. apply group_key_on_rows.
Qed.

Lemma get_group_on_rows (k : GroupKey) (df : Indexed JoinedRecord) :
  get_group group_key k (on_rows g df) = on_rows g (get_group group_key k df).
Proof.
  unfold get_group, on_rows. rewrite filter_map_comm. f_equal.
  apply filter_ext. intros ir. unfold in_group. cbn [snd].
  rewrite group_key_on_rows. reflexivity.
Qed.

Lemma peak_and_sum_on_rows (x : Indexed JoinedRecord) :
  peak_and_sum (on_rows g x) = peak_and_sum x.
Proof.
  unfold peak_and_sum, column, values, on_rows. rewrite !map_map.
  assert (EP : map (fun ir : nat * JoinedRecord =>
                      (fst (fst ir, g (snd ir)), Programme (snd (fst ir, g (snd ir))))) x
               = map (fun ir => (fst ir, Programme (snd ir))) x).
  { apply map_ext. intros ir. cbn [fst snd]. rewrite g_Programme. reflexivity. }
  assert (EV : map (fun ir : nat * JoinedRecord =>
                      Viewers (snd (fst ir, g (snd ir)))) x
               = map (fun ir => Viewers (snd ir)) x).
  { apply map_ext. intros ir. cbn [snd]. apply g_Viewers. }
  rewrite EP, EV. reflexivity.
Qed.

Lemma insert_stable_on_rows (x : nat * JoinedRecord) (l : Indexed JoinedRecord) :
  insert_stable row_cmp (fst x, g (snd x)) (on_rows g l)
  = on_rows g (insert_stable row_cmp x l).
Proof.
  induction l as [| h l IH]; [reflexivity |].
  unfold on_rows in *. cbn [map insert_stable].
  unfold leb_of. rewrite row_cmp_on_rows.
  destruct (row_cmp x h); cbn [map]; try reflexivity.
  rewrite IH. reflexivity.
Qed.

Lemma sort_values_on_rows (df : Indexed JoinedRecord) :
  sort_values (on_rows g df) = on_rows g (sort_values df).
Proof.
  unfold sort_values, stable_sort.
  induction df as [| x df IH]; [reflexivity |].
  change (on_rows g (x :: df)) with ((fst x, g (snd x)) :: on_rows g df).
  cbn [fold_right]. rewrite IH. apply insert_stable_on_rows.
Qed.

Lemma cumsum_on_rows (acc : Running) (df : Indexed JoinedRecord) :
  cumsum acc (on_rows g df)
  = on_rows (fun rc => (g (fst rc), snd rc)) (cumsum acc df).
Proof.
  revert acc. induction df as [| [i r] df IH]; intros acc; [reflexivity |].
  change (on_rows g ((i, r) :: df)) with ((i, g r) :: on_rows g df).
  cbn [cumsum]. rewrite g_Producer, g_Viewers.
  destruct (Producer r), (Viewers r); unfold on_rows in *; cbn [map fst snd];
    rewrite IH; reflexivity.
Qed.

Lemma cumulative_of_on_rows (k : GroupKey) (df : Indexed JoinedRecord) :
  cumulative_of k (on_rows g df) = cumulative_of k df.
Proof.
  unfold cumulative_of. rewrite sort_values_on_rows, cumsum_on_rows.
  unfold get_group, on_rows, values. rewrite filter_map_comm, map_map.
  f_equal. cbn [snd].
  erewrite filter_ext; [reflexivity |].
  intros irc. unfold in_group, cum_key. cbn [snd fst].
  rewrite group_key_on_rows. reflexivity.
Qed.

(** The aggregate reads the six columns only. *)
Lemma aggregate_rows_on_rows (df : Indexed JoinedRecord) :
  aggregate_rows (on_rows g df) = aggregate_rows df.
Proof.
  unfold aggregate_rows. rewrite group_keys_on_rows. apply map_ext. intros k.
  rewrite get_group_on_rows, peak_and_sum_on_rows, cumulative_of_on_rows.
  reflexivity.
Qed.
End RowChange.

Lemma range_index_map {A B : Type} (g : A -> B) (l : list A) :
  range_index (map g l) = on_rows g (range_index l).
Proof.
  unfold range_index, on_rows. rewrite length_map.
  generalize 0%nat. induction l as [| a l IH]; intros start; [reflexivity |].
  cbn [List.length seq combine map fst snd]. rewrite IH. reflexivity.
Qed.

Lemma merge_outer_blank (L : list ProducerRecord)
    (R : list NormalizedViewingRecord) :
  merge_outer L (map nv_without_Territory R)
  = map blank_Territory (merge_outer L R).
Proof.
  unfold merge_outer. rewrite map_flat_map_comm.
  rewrite (map_map nv_without_Territory nv_Programme).
  change (map (fun x => nv_Programme (nv_without_Territory x)) R)
    with (map nv_Programme R).
  apply flat_map_ext. intros k.
  rewrite filter_map_comm.
  change (filter (fun a => String.eqb (nv_Programme (nv_without_Territory a)) k) R)
    with (filter (fun v => String.eqb (nv_Programme v) k) R).
  destruct (filter (fun p => String.eqb (pr_Programme p) k) L) as [| a ls];
    [rewrite !map_map; reflexivity |].
  destruct (filter (fun v => String.eqb (nv_Programme v) k) R) as [| b rs].
  - cbn [map]. rewrite map_map. reflexivity.
  - change (map nv_without_Territory (b :: rs))
      with (nv_without_Territory b :: map nv_without_Territory rs).
    rewrite map_flat_map_comm. apply flat_map_ext. intros p.
    change (nv_without_Territory b :: map nv_without_Territory rs)
      with (map nv_without_Territory (b :: rs)).
    rewrite !map_map. reflexivity.
Qed.

Lemma fill_producers_blank (b : bool) (rows : list JoinedRecord) :
  fill_producers b (map blank_Territory rows)
  = map blank_Territory (fill_producers b rows).
Proof. unfold fill_producers. destruct b; [rewrite !map_map |]; reflexivity. Qed.

(** Emptying the Territory texts of the sheet changes the summary in no
    way. *)
Lemma summary_of_without_Territory (wb : Workbook) :
  summary_of (with_rows (map without_Territory (viewing_rows (sheet_viewing wb)))
                (producer_rows (sheet_producers wb)) wb)
  = summary_of wb.
Proof.
  destruct wb as [[d p t c v tp tt rows] [pp pr tpp prods]].
  unfold summary_of, joined_frame_of, load_data, with_rows.
  cbn [bind sheet_viewing sheet_producers fst snd].
  rewrite !preprocess_data_cases.
  cbn [has_Date has_Programme has_Territory has_Channel has_Viewers
       Programme_is_text Territory_is_text viewing_rows producer_rows].
  destruct d; cbn [negb bind]; [| reflexivity].
  destruct rows as [| r rows]; [reflexivity |].
  change (map without_Territory (r :: rows))
    with (without_Territory r :: map without_Territory rows).
  destruct p; cbn [negb bind]; [| reflexivity].
  destruct tp; cbn [negb bind]; [| reflexivity].
  destruct t; cbn [negb bind]; [| reflexivity].
  destruct tt; cbn [negb bind]; [| reflexivity].
  rewrite !merge_data_cases.
  cbn [has_pr_Programme has_pr_Producer pr_Programme_is_text producer_rows
       nf_has_Channel nf_has_Viewers nf_rows].
  destruct pp; cbn [negb]; [| reflexivity].
  assert (E : forall (l : list ProducerRecord) (x : ViewingRecord)
                (xs : list ViewingRecord),
            match l, map (preprocess_row v) (x :: xs) with
            | _ :: _, _ :: _ => negb tpp
            | _, _ => false
            end = match l with [] => false | _ :: _ => negb tpp end)
    by (intros [| a l] x xs; reflexivity).
  rewrite !E.
  destruct (match prods with [] => false | _ :: _ => negb tpp end);
    [reflexivity |].
  cbn [bind].
  change (without_Territory r :: map without_Territory rows)
    with (map without_Territory (r :: rows)).
  rewrite (map_map without_Territory (preprocess_row v)).
  change (map (fun x => preprocess_row v (without_Territory x)) (r :: rows))
    with (map (fun x => nv_without_Territory (preprocess_row v x)) (r :: rows)).
  rewrite <- (map_map (preprocess_row v) nv_without_Territory).
  rewrite merge_outer_blank, fill_producers_blank, range_index_map.
  unfold aggregate_data, require_column.
  cbn [jf_has_Producer jf_has_Channel jf_has_Viewers jf_rows].
  destruct pr; cbn [bind]; [| reflexivity].
  destruct c; cbn [bind]; [| reflexivity].
  destruct v; cbn [bind]; [| reflexivity].
  rewrite !merge_aggregates.
  rewrite (aggregate_rows_on_rows blank_Territory) by reflexivity.
  reflexivity.
Qed.

(** X12. The texts of the Territory column are only stripped, never read
    again: two workbooks whose viewing rows differ in the texts of their
    Territory cells alone, the column holding text in both (or in
    neither, when both are refused), give the same result, that is the
    same exception, or the same records written in the same order. *)
Theorem X12_territory_is_never_read (wb : Workbook) (vs : list ViewingRecord)
    (file : File) :
  map without_Territory vs
  = map without_Territory (viewing_rows (sheet_viewing wb)) ->
  process_and_save_data
    (with_rows vs (producer_rows (sheet_producers wb)) wb) file
  = process_and_save_data wb file.
Proof.
  intros E. unfold process_and_save_data, final_summary_of.
  rewrite <- (summary_of_without_Territory wb).
  rewrite <- (summary_of_without_Territory
                (with_rows vs (producer_rows (sheet_producers wb)) wb)).
  unfold with_rows at 2 4.
  cbn [sheet_viewing sheet_producers has_Date has_Programme has_Territory
       has_Channel has_Viewers viewing_rows has_pr_Programme has_pr_Producer
       producer_rows].
  rewrite E. reflexivity.
Qed.

Lemma X12_territory_is_never_read_witness :
  map without_Territory wb_mixed_territories
  = map without_Territory (viewing_rows (sheet_viewing wb_mixed)) /\
  process_and_save_data
    (with_rows wb_mixed_territories
       (producer_rows (sheet_producers wb_mixed)) wb_mixed) None
  = process_and_save_data wb_mixed None.
Proof.
  split; [reflexivity |].
  exact (X12_territory_is_never_read wb_mixed wb_mixed_territories None eq_refl).
Defined.

(* ================================================================== *)
(** ** A viewing sheet without rows *)

Lemma empty_sheet_raises (wb : Workbook) :
  viewing_rows (sheet_viewing wb) = [] ->
  final_summary_of wb
  = Raise (if has_Date (sheet_viewing wb)
           then AttributeError "dt" else KeyError "Date").
Proof.
  intros R.
  unfold final_summary_of, summary_of, joined_frame_of, load_data,
    preprocess_data, require_column.
  cbn [bind fst snd]. rewrite R.
  destruct (has_Date (sheet_viewing wb)); reflexivity.
Qed.

(** X13. A viewing sheet without rows is refused, whatever its other
    columns: when it has its Date column the [.dt] accessor raises
    AttributeError, and the output file is left as it was; no empty
    summary is written. *)
Theorem X13_empty_viewing_sheet_is_refused (wb : Workbook) (file : File) :
  viewing_rows (sheet_viewing wb) = [] ->
  has_Date (sheet_viewing wb) = true ->
  process_and_save_data wb file = (file, Raise (AttributeError "dt")).
Proof.
  intros R D. apply process_raises.
  rewrite (empty_sheet_raises wb R), D. reflexivity.
Qed.

Lemma X13_empty_viewing_sheet_is_refused_witness :
  viewing_rows (sheet_viewing wb_no_rows) = [] /\
  has_Date (sheet_viewing wb_no_rows) = true /\
  process_and_save_data wb_no_rows None = (None, Raise (AttributeError "dt")).
Proof.
  split; [reflexivity |]. split; [reflexivity |].
  exact (X13_empty_viewing_sheet_is_refused wb_no_rows None eq_refl eq_refl).
Defined.

(* ================================================================== *)
(** ** The sums of a table within the exact range *)

Lemma abs_viewers_nonneg (l : Indexed JoinedRecord) :
  0 <= list_sum (map (fun ir => Z.abs (viewers_or_zero ir)) l).
Proof.
  induction l as [| ir l IH]; unfold list_sum in *; cbn [map fold_right]; lia.
Qed.

Lemma abs_viewers_filter (f : nat * JoinedRecord -> bool) (l : Indexed JoinedRecord) :
  list_sum (map (fun ir => Z.abs (viewers_or_zero ir)) (filter f l))
  <= list_sum (map (fun ir => Z.abs (viewers_or_zero ir)) l).
Proof.
  induction l as [| ir l IH]; cbn [filter map]; [lia |].
  destruct (f ir); unfold list_sum in *; cbn [map fold_right]; lia.
Qed.

Lemma abs_viewers_bound (l : Indexed JoinedRecord) :
  Z.abs (list_sum (map viewers_or_zero l))
  <= list_sum (map (fun ir => Z.abs (viewers_or_zero ir)) l).
Proof.
  induction l as [| ir l IH]; unfold list_sum in *; cbn [map fold_right]; lia.
Qed.

Lemma abs_viewers_perm (l l' : Indexed JoinedRecord) :
  Permutation l l' ->
  list_sum (map (fun ir => Z.abs (viewers_or_zero ir)) l)
  = list_sum (map (fun ir => Z.abs (viewers_or_zero ir)) l').
Proof.
  induction 1 as [| x l l' _ IH | x y l | l l' l'' _ IH1 _ IH2];
    unfold list_sum in *; cbn [map fold_right]; lia.
Qed.

Lemma running_sums_bound (seen table : Indexed JoinedRecord)
    (irt : nat * JoinedRecord * Z) :
  In irt (running_sums seen table) ->
  Z.abs (snd irt)
  <= list_sum (map (fun ir => Z.abs (viewers_or_zero ir)) (seen ++ table)).
Proof.
  revert seen. induction table as [| ir rest IH]; intros seen I; [destruct I |].
  cbn [running_sums] in I. destruct I as [<- | I].
  - cbn [snd]. unfold viewers_total. rewrite series_sum_viewers.
    pose proof (abs_viewers_bound (filter (producer_is (Producer (snd ir)))
                                     (seen ++ [ir]))) as B1.
    pose proof (abs_viewers_filter (producer_is (Producer (snd ir)))
                  (seen ++ [ir])) as B2.
    pose proof (abs_viewers_nonneg rest) as B3.
    replace (seen ++ ir :: rest) with ((seen ++ [ir]) ++ rest)
      by (rewrite <- app_assoc; reflexivity).
    rewrite (map_app _ (seen ++ [ir]) rest), list_sum_app. lia.
  - specialize (IH (seen ++ [ir]) I).
    rewrite <- app_assoc in IH. exact IH.
Qed.

(** On a table within the exact range every sum the aggregation makes, of
    the Viewers of a group or of a Producer down to a row of the sorted
    table, is below 2^53 in absolute value: it is the sum pandas makes, on
    an int64 column and on a float64 column. *)
Lemma sums_within_exact_range (table : Indexed JoinedRecord) :
  exact_numbers table ->
  (forall k, Z.abs (series_sum (values Viewers (get_group group_key k table)))
             < exact_limit) /\
  (forall irt, In irt (running_sums [] (sort_values table)) ->
               Z.abs (snd irt) < exact_limit).
Proof.
  unfold exact_numbers, exact_numbersb. intros E.
  apply andb_true_iff in E. destruct E as [E _]. apply Z.ltb_lt in E.
  split.
  - intros k. rewrite series_sum_viewers. unfold get_group.
    pose proof (abs_viewers_bound (filter (in_group group_key k) table)).
    pose proof (abs_viewers_filter (in_group group_key k) table). lia.
  - intros irt I. apply running_sums_bound in I. cbn [app] in I.
    rewrite (abs_viewers_perm _ _ (sort_values_perm table)) in I. lia.
Qed.
